(** * Default uniform block of the Vulkan back end (ProgramVk.cpp)

    A shallow embedding of the default-uniform-block code of
    [src/libANGLE/renderer/vulkan/ProgramVk.cpp]: the layout pass
    ([InitDefaultUniformBlock], [initDefaultUniformLayoutMapping]), the
    accessors ([UpdateDefaultUniformBlock], [ReadFromDefaultUniformBlock],
    [setUniformImpl], [getUniformImpl], [setUniformMatrixfv]) and the
    per-stage dirty bits.

    Conventions of the embedding.
    - A [MemoryBuffer] is the list of its bytes; a pointer into it is the
      byte offset from [data()], an integer that may leave the buffer.
    - C integers are [Z]; the conversions the code performs between
      [int], [uint32_t] and [size_t] are written out with [wrap_int] and
      [wrap_uint].
    - [ASSERT] is live (a build with assertions): a false condition ends the
      call with [AssertionFailure].  An access outside a buffer or a vector
      ends it with [OutOfBounds]; that is the behaviour C++ leaves undefined.
    - [GLfloat], [GLint] and [GLuint] are 4 bytes, little endian. *)

From Stdlib Require Import ZArith Lia Ascii.
From stdpp Require Import base option list functions strings gmap.
From coqutil Require Import Byte Word.LittleEndianList.

Local Open Scope Z_scope.

(** ** Outcome of a call *)

Inductive outcome (A : Type) : Type :=
  | Done (a : A)
  | AssertionFailure
  | OutOfBounds.
Arguments Done {A} a.
Arguments AssertionFailure {A}.
Arguments OutOfBounds {A}.

#[global] Instance outcome_ret : MRet outcome := fun _ a => Done a.
#[global] Instance outcome_bind : MBind outcome := fun _ _ f m =>
  match m with
  | Done a => f a
  | AssertionFailure => AssertionFailure
  | OutOfBounds => OutOfBounds
  end.

(** [ASSERT(c)] *)
Definition ASSERT (c : bool) : outcome unit :=
  if c then Done tt else AssertionFailure.

(** ** Machine integers *)

Definition wrap_uint (z : Z) : Z := z mod 2 ^ 32.
Definition wrap_int (z : Z) : Z := (z + 2 ^ 31) mod 2 ^ 32 - 2 ^ 31.

(** ** angle::MemoryBuffer and raw memory *)

Abbreviation MemoryBuffer := (list byte) (only parsing).

Definition MemoryBuffer_size (m : MemoryBuffer) : Z := Z.of_nat (length m).

#[global] Instance byte_eq_dec : EqDecision byte := λ a b,
  match decide (byte.unsigned a = byte.unsigned b) with
  | left H => left (byte.unsigned_inj a b H)
  | right H => right (λ E, H (f_equal byte.unsigned E))
  end.

(** The byte at offset [p], when [p] is inside the buffer. *)
Definition byte_at (m : MemoryBuffer) (p : Z) : option byte :=
  if 0 <=? p then m !! Z.to_nat p else None.

(** The [n] bytes at [p, p + n). *)
Definition mem_read (m : MemoryBuffer) (p n : Z) : outcome (list byte) :=
  if (0 <=? p) && (0 <=? n) && (p + n <=? MemoryBuffer_size m)
  then Done (take (Z.to_nat n) (drop (Z.to_nat p) m))
  else OutOfBounds.

(** Overwrite [p, p + length bs) with [bs]. *)
Definition mem_write (m : MemoryBuffer) (p : Z) (bs : list byte) : outcome MemoryBuffer :=
  if (0 <=? p) && (p + MemoryBuffer_size bs <=? MemoryBuffer_size m)
  then Done (take (Z.to_nat p) m ++ bs ++ drop (Z.to_nat p + length bs) m)
  else OutOfBounds.

(** [memcpy(dst + dstp, src + srcp, n)]; the count is a [size_t], so a
    negative [int] turns into a length no buffer has. *)
Definition memcpy (dst : MemoryBuffer) (dstp : Z) (src : MemoryBuffer) (srcp : Z) (n : Z)
  : outcome MemoryBuffer :=
  bs ← mem_read src srcp n; mem_write dst dstp bs.

(** ** sh::BlockMemberInfo *)

Record BlockMemberInfo := mkBlockMemberInfo {
  offset : Z;
  arrayStride : Z;
  matrixStride : Z;
  isRowMajorMatrix : bool
}.

(** ** The two templates over the default block

    [sizeofT] is [sizeof(T)]; [v] and [dst] are the caller's arrays seen as
    bytes. *)

Section Templates.
Variable sizeofT : Z.

(** The [for] loop of [UpdateDefaultUniformBlock]: [fuel] iterations are
    left, that is [maxIndex - writeIndex]. *)
Fixpoint UpdateDefaultUniformBlock_loop (fuel : nat) (writeIndex readIndex : Z)
    (componentCount elementSize : Z) (v : list byte) (layoutInfo : BlockMemberInfo)
    (uniformData : MemoryBuffer) : outcome MemoryBuffer :=
  match fuel with
  | O => Done uniformData
  | S fuel' =>
      let arrayOffset := wrap_int (writeIndex * arrayStride layoutInfo) in
      let writePtr := offset layoutInfo + arrayOffset in
      let readPtr := sizeofT * wrap_int (readIndex * componentCount) in
      _ ← ASSERT (writePtr + elementSize <=? MemoryBuffer_size uniformData);
      uniformData' ← memcpy uniformData writePtr v readPtr elementSize;
      UpdateDefaultUniformBlock_loop fuel' (writeIndex + 1) (readIndex + 1)
        componentCount elementSize v layoutInfo uniformData'
  end.

Definition UpdateDefaultUniformBlock (count arrayIndex componentCount : Z)
    (v : list byte) (layoutInfo : BlockMemberInfo) (uniformData : MemoryBuffer)
    : outcome MemoryBuffer :=
  let elementSize := wrap_int (sizeofT * componentCount) in
  let dst := offset layoutInfo in
  if (arrayStride layoutInfo =? 0) || (arrayStride layoutInfo =? elementSize) then
    let arrayOffset := wrap_uint (arrayIndex * arrayStride layoutInfo) in
    let writePtr := dst + arrayOffset in
    _ ← ASSERT (writePtr + wrap_int (elementSize * count) <=? MemoryBuffer_size uniformData);
    memcpy uniformData writePtr v 0 (wrap_int (elementSize * count))
  else
    let maxIndex := wrap_int (arrayIndex + count) in
    let writeIndex := wrap_int arrayIndex in
    UpdateDefaultUniformBlock_loop (Z.to_nat (maxIndex - writeIndex)) writeIndex 0
      componentCount elementSize v layoutInfo uniformData.

(** The two arms of [ReadFromDefaultUniformBlock], named apart so that
    they can be compared. *)
Definition ReadFromDefaultUniformBlock_packed (elementSize arrayIndex : Z)
    (dst : list byte) (layoutInfo : BlockMemberInfo) (uniformData : MemoryBuffer)
    : outcome (list byte) :=
  let source := offset layoutInfo in
  let readPtr := source + wrap_uint (arrayIndex * arrayStride layoutInfo) in
  memcpy dst 0 uniformData readPtr elementSize.

Definition ReadFromDefaultUniformBlock_strided (elementSize arrayIndex : Z)
    (dst : list byte) (layoutInfo : BlockMemberInfo) (uniformData : MemoryBuffer)
    : outcome (list byte) :=
  let source := offset layoutInfo in
  let arrayOffset := wrap_int (arrayIndex * arrayStride layoutInfo) in
  let readPtr := source + arrayOffset in
  memcpy dst 0 uniformData readPtr elementSize.

Definition ReadFromDefaultUniformBlock (componentCount arrayIndex : Z)
    (dst : list byte) (layoutInfo : BlockMemberInfo) (uniformData : MemoryBuffer)
    : outcome (list byte) :=
  _ ← ASSERT (negb (offset layoutInfo =? -1));
  let elementSize := wrap_int (sizeofT * componentCount) in
  if (arrayStride layoutInfo =? 0) || (arrayStride layoutInfo =? elementSize) then
    ReadFromDefaultUniformBlock_packed elementSize arrayIndex dst layoutInfo uniformData
  else
    ReadFromDefaultUniformBlock_strided elementSize arrayIndex dst layoutInfo uniformData.
End Templates.

(** ** GL enumerants and the element types of the entry points *)

Definition GLenum := Z.

Definition GL_NONE : GLenum := 0.
Definition GL_INT : GLenum := 0x1404.
Definition GL_UNSIGNED_INT : GLenum := 0x1405.
Definition GL_FLOAT : GLenum := 0x1406.
Definition GL_FLOAT_VEC2 : GLenum := 0x8B50.
Definition GL_FLOAT_VEC3 : GLenum := 0x8B51.
Definition GL_FLOAT_VEC4 : GLenum := 0x8B52.
Definition GL_INT_VEC2 : GLenum := 0x8B53.
Definition GL_INT_VEC3 : GLenum := 0x8B54.
Definition GL_INT_VEC4 : GLenum := 0x8B55.
Definition GL_BOOL : GLenum := 0x8B56.
Definition GL_BOOL_VEC2 : GLenum := 0x8B57.
Definition GL_BOOL_VEC3 : GLenum := 0x8B58.
Definition GL_BOOL_VEC4 : GLenum := 0x8B59.
Definition GL_FLOAT_MAT2 : GLenum := 0x8B5A.
Definition GL_FLOAT_MAT3 : GLenum := 0x8B5B.
Definition GL_FLOAT_MAT4 : GLenum := 0x8B5C.
Definition GL_SAMPLER_2D : GLenum := 0x8B5E.
Definition GL_FLOAT_MAT2x3 : GLenum := 0x8B65.
Definition GL_FLOAT_MAT2x4 : GLenum := 0x8B66.
Definition GL_FLOAT_MAT3x2 : GLenum := 0x8B67.
Definition GL_FLOAT_MAT3x4 : GLenum := 0x8B68.
Definition GL_FLOAT_MAT4x2 : GLenum := 0x8B69.
Definition GL_FLOAT_MAT4x3 : GLenum := 0x8B6A.
Definition GL_UNSIGNED_INT_VEC2 : GLenum := 0x8DC6.
Definition GL_UNSIGNED_INT_VEC3 : GLenum := 0x8DC7.
Definition GL_UNSIGNED_INT_VEC4 : GLenum := 0x8DC8.
Definition GL_IMAGE_2D : GLenum := 0x904D.

Definition GL_FALSE : Z := 0.
Definition GL_TRUE : Z := 1.

(** The template parameter [T] of [setUniformImpl] and [getUniformImpl].
    A [GLint] is its signed value, a [GLuint] its unsigned value, a
    [GLfloat] its IEEE-754 bit pattern: the code only copies floats and
    compares them with zero. *)
Inductive GLtype := GLfloat | GLint | GLuint.

Definition sizeof (T : GLtype) : Z := 4.

Definition in_range (T : GLtype) (x : Z) : Prop :=
  match T with
  | GLint => - 2 ^ 31 <= x < 2 ^ 31
  | GLfloat | GLuint => 0 <= x < 2 ^ 32
  end.

(** [x == static_cast<T>(0)]; both float zeros compare equal to zero. *)
Definition is_zero (T : GLtype) (x : Z) : bool :=
  match T with
  | GLfloat => (x =? 0) || (x =? 0x80000000)
  | GLint | GLuint => x =? 0
  end.

(** [(x == static_cast<T>(0)) ? GL_FALSE : GL_TRUE] *)
Definition bool_sentinel (T : GLtype) (x : Z) : Z :=
  if is_zero T x then GL_FALSE else GL_TRUE.

(** The object representation of one value and of an array. *)
Definition encode (x : Z) : list byte := le_split 4 x.

Definition decode (T : GLtype) (bs : list byte) : Z :=
  match T with
  | GLint => wrap_int (le_combine bs)
  | GLfloat | GLuint => le_combine bs
  end.

Definition encode_array (v : list Z) : list byte := v ≫= encode.

Fixpoint decode_array (T : GLtype) (n : nat) (bs : list byte) : list Z :=
  match n with
  | O => []
  | S n' => decode T (take 4 bs) :: decode_array T n' (drop 4 bs)
  end.

(** Modelled from the spec: [gl::IsMatrixType] of common/utilities.h, which
    is not in this file; the matrix enumerants are the nine
    [GL_FLOAT_MAT*] types that the matrix entry points cover. *)
Definition IsMatrixType (type : GLenum) : bool :=
  bool_decide (type ∈ [GL_FLOAT_MAT2; GL_FLOAT_MAT3; GL_FLOAT_MAT4;
                       GL_FLOAT_MAT2x3; GL_FLOAT_MAT2x4; GL_FLOAT_MAT3x2;
                       GL_FLOAT_MAT3x4; GL_FLOAT_MAT4x2; GL_FLOAT_MAT4x3]).

(** Modelled from the spec: [gl::VariableBoolVectorType] of
    common/utilities.h, which is not in this file.  Section 4.3: the declared
    type is a boolean vector and the write arrives as an integer or float
    vector; the function gives the boolean type of the same arity, and
    [GL_NONE] for any other enumerant. *)
Definition VariableBoolVectorType (type : GLenum) : GLenum :=
  if bool_decide (type ∈ [GL_FLOAT; GL_INT; GL_UNSIGNED_INT]) then GL_BOOL
  else if bool_decide (type ∈ [GL_FLOAT_VEC2; GL_INT_VEC2; GL_UNSIGNED_INT_VEC2]) then GL_BOOL_VEC2
  else if bool_decide (type ∈ [GL_FLOAT_VEC3; GL_INT_VEC3; GL_UNSIGNED_INT_VEC3]) then GL_BOOL_VEC3
  else if bool_decide (type ∈ [GL_FLOAT_VEC4; GL_INT_VEC4; GL_UNSIGNED_INT_VEC4]) then GL_BOOL_VEC4
  else GL_NONE.

(** ** Shader stages and the program state *)

Inductive ShaderType :=
  | Vertex | TessControl | TessEvaluation | Geometry | Fragment | Compute.

#[global] Instance ShaderType_eq_dec : EqDecision ShaderType.
Proof. solve_decision. Defined.

(** [gl::ShaderMap<X>] is an array indexed by the stage. *)
Abbreviation ShaderMap X := (ShaderType → X) (only parsing).

(** [gl::ShaderBitSet] has one bit per stage; a range-for over it visits
    the set bits in the order of the enumeration. *)
Abbreviation ShaderBitSet := (ShaderType → bool) (only parsing).

Definition kAllShaderTypes : list ShaderType :=
  [Vertex; TessControl; TessEvaluation; Geometry; Fragment; Compute].

Definition ShaderBitSet_iterate (bits : ShaderBitSet) : list ShaderType :=
  filter (λ shaderType, bits shaderType) kAllShaderTypes.

(** [gl::VariableLocation].  The struct is declared elsewhere; the result
    of its member function [used()] is a field here. *)
Record VariableLocation := mkVariableLocation {
  arrayIndex : Z;
  index : Z;
  ignored : bool;
  used : bool
}.

(** [gl::UniformTypeInfo], the fields this file reads. *)
Record UniformTypeInfo := mkUniformTypeInfo {
  typeInfo_type : GLenum;
  componentType : GLenum;
  componentCount : Z
}.

(** [gl::LinkedUniform].  The class is declared elsewhere; its accessors
    that this file calls are fields here. *)
Record LinkedUniform := mkLinkedUniform {
  name : string;
  type : GLenum;
  typeInfo : UniformTypeInfo;
  isSampler : bool;
  isImage : bool;
  isInDefaultBlock : bool;
  isFragmentInOut : bool;
  isArray : bool;
  getArraySizeProduct : Z;
  getFirstShaderTypeWhereActive : option ShaderType
}.

(** [gl::ProgramState] with the part of its executable that is read here. *)
Record ProgramState := mkProgramState {
  getUniformLocations : list VariableLocation;
  getUniforms : list LinkedUniform;
  getLinkedShaderStages : ShaderBitSet
}.

Record DefaultUniformBlock := mkDefaultUniformBlock {
  uniformData : MemoryBuffer;
  uniformLayout : list BlockMemberInfo
}.

(** [ProgramExecutableVk], the two members this file uses. *)
Record ProgramExecutableVk := mkProgramExecutableVk {
  mDefaultUniformBlocks : ShaderMap DefaultUniformBlock;
  mDefaultUniformBlocksDirty : ShaderBitSet
}.

Record ProgramVk := mkProgramVk {
  mState : ProgramState;
  mExecutable : ProgramExecutableVk
}.

(** [vec[i]] on a [std::vector]. *)
Definition at_index {A} (vec : list A) (i : Z) : outcome A :=
  if 0 <=? i then
    match vec !! Z.to_nat i with
    | Some a => Done a
    | None => OutOfBounds
    end
  else OutOfBounds.

(** [for (shaderType : stages) body], over the part of the state the body
    changes. *)
Fixpoint for_each_stage {S} (body : ShaderType → S → outcome S)
    (stages : list ShaderType) (s : S) : outcome S :=
  match stages with
  | [] => Done s
  | shaderType :: stages' => s' ← body shaderType s; for_each_stage body stages' s'
  end.

Definition set_uniformData (exe : ProgramExecutableVk) (shaderType : ShaderType)
    (data : MemoryBuffer) : ProgramExecutableVk :=
  let uniformBlock := mDefaultUniformBlocks exe shaderType in
  {| mDefaultUniformBlocks :=
       <[shaderType := {| uniformData := data;
                          uniformLayout := uniformLayout uniformBlock |}]>
         (mDefaultUniformBlocks exe);
     mDefaultUniformBlocksDirty := mDefaultUniformBlocksDirty exe |}.

(** [mExecutable.mDefaultUniformBlocksDirty.set(shaderType)] *)
Definition set_dirty (exe : ProgramExecutableVk) (shaderType : ShaderType)
    : ProgramExecutableVk :=
  {| mDefaultUniformBlocks := mDefaultUniformBlocks exe;
     mDefaultUniformBlocksDirty := <[shaderType := true]> (mDefaultUniformBlocksDirty exe) |}.

(** The block bytes, the layout table and the dirty bit of a stage. *)
Definition blockData (exe : ProgramExecutableVk) (shaderType : ShaderType) : MemoryBuffer :=
  uniformData (mDefaultUniformBlocks exe shaderType).
Definition blockLayout (exe : ProgramExecutableVk) (shaderType : ShaderType)
    : list BlockMemberInfo :=
  uniformLayout (mDefaultUniformBlocks exe shaderType).
Definition isDirty (exe : ProgramExecutableVk) (shaderType : ShaderType) : bool :=
  mDefaultUniformBlocksDirty exe shaderType.

(** The shape the three stage loops of the setters share: skip the stage when
    the offset is [-1], else change the block with [F] and set the dirty bit.
    The loops below are written out as in the source; this one is what the
    proofs reason about. *)
Definition stage_write (F : BlockMemberInfo → MemoryBuffer → outcome MemoryBuffer)
    (location : Z) (shaderType : ShaderType) (exe : ProgramExecutableVk)
    : outcome ProgramExecutableVk :=
  layoutInfo ← at_index (blockLayout exe shaderType) location;
  if offset layoutInfo =? -1 then Done exe
  else
    uniformData' ← F layoutInfo (blockData exe shaderType);
    Done (set_dirty (set_uniformData exe shaderType uniformData') shaderType).

(** ** ProgramVk::setUniformImpl *)

Section SetUniformImpl.
Variable T : GLtype.

(** Body of the stage loop when the declared type is the entry point's. *)
Definition setUniformImpl_same_type (location count : Z) (v : list Z)
    (locationInfo : VariableLocation) (linkedUniform : LinkedUniform)
    (shaderType : ShaderType) (exe : ProgramExecutableVk) : outcome ProgramExecutableVk :=
  let uniformBlock := mDefaultUniformBlocks exe shaderType in
  layoutInfo ← at_index (uniformLayout uniformBlock) location;
  (* Assume an offset of -1 means the block is unused. *)
  if offset layoutInfo =? -1 then Done exe
  else
    let componentCount := componentCount (typeInfo linkedUniform) in
    uniformData' ← UpdateDefaultUniformBlock (sizeof T) count (arrayIndex locationInfo)
                     componentCount (encode_array v) layoutInfo (uniformData uniformBlock);
    Done (set_dirty (set_uniformData exe shaderType uniformData') shaderType).

(** [dst[c] = (source[c] == static_cast<T>(0)) ? GL_FALSE : GL_TRUE] for
    [c] from its current value up to [componentCount]; [dst] is a
    [GLint *], so that [dst[c]] is 4 bytes at [dst + 4 * c]. *)
Fixpoint setUniformImpl_bool_components (fuel : nat) (c : Z) (dst source : Z)
    (v : list Z) (data : MemoryBuffer) : outcome MemoryBuffer :=
  match fuel with
  | O => Done data
  | S fuel' =>
      x ← at_index v (source + c);
      data' ← mem_write data (dst + 4 * c) (encode (bool_sentinel T x));
      setUniformImpl_bool_components fuel' (c + 1) dst source v data'
  end.

(** The loop over [i] from its current value up to [count]. *)
Fixpoint setUniformImpl_bool_elements (fuel : nat) (i : Z) (componentCount : Z)
    (initialArrayOffset : Z) (layoutInfo : BlockMemberInfo)
    (v : list Z) (data : MemoryBuffer) : outcome MemoryBuffer :=
  match fuel with
  | O => Done data
  | S fuel' =>
      let elementOffset := wrap_int (i * arrayStride layoutInfo + initialArrayOffset) in
      let source := wrap_int (i * componentCount) in
      data' ← setUniformImpl_bool_components (Z.to_nat componentCount) 0
                elementOffset source v data;
      setUniformImpl_bool_elements fuel' (i + 1) componentCount initialArrayOffset
        layoutInfo v data'
  end.

(** Body of the stage loop otherwise: the declared type is a boolean one. *)
Definition setUniformImpl_bool (location count : Z) (v : list Z)
    (entryPointType : GLenum)
    (locationInfo : VariableLocation) (linkedUniform : LinkedUniform)
    (shaderType : ShaderType) (exe : ProgramExecutableVk) : outcome ProgramExecutableVk :=
  let uniformBlock := mDefaultUniformBlocks exe shaderType in
  layoutInfo ← at_index (uniformLayout uniformBlock) location;
  (* Assume an offset of -1 means the block is unused. *)
  if offset layoutInfo =? -1 then Done exe
  else
    let componentCount := componentCount (typeInfo linkedUniform) in
    _ ← ASSERT (typeInfo_type (typeInfo linkedUniform)
                  =? VariableBoolVectorType entryPointType);
    let initialArrayOffset :=
      wrap_int (arrayIndex locationInfo * arrayStride layoutInfo + offset layoutInfo) in
    uniformData' ← setUniformImpl_bool_elements (Z.to_nat count) 0 componentCount
                     initialArrayOffset layoutInfo v (uniformData uniformBlock);
    Done (set_dirty (set_uniformData exe shaderType uniformData') shaderType).

Definition setUniformImpl (p : ProgramVk) (location count : Z) (v : list Z)
    (entryPointType : GLenum) : outcome ProgramVk :=
  locationInfo ← at_index (getUniformLocations (mState p)) location;
  linkedUniform ← at_index (getUniforms (mState p)) (index locationInfo);
  _ ← ASSERT (negb (isSampler linkedUniform));
  exe' ←
    (if typeInfo_type (typeInfo linkedUniform) =? entryPointType then
       for_each_stage (setUniformImpl_same_type location count v locationInfo linkedUniform)
         (ShaderBitSet_iterate (getLinkedShaderStages (mState p))) (mExecutable p)
     else
       for_each_stage
         (setUniformImpl_bool location count v entryPointType locationInfo linkedUniform)
         (ShaderBitSet_iterate (getLinkedShaderStages (mState p))) (mExecutable p));
  Done {| mState := mState p; mExecutable := exe' |}.
End SetUniformImpl.

(** ** The matrix helpers of renderer_utils.h

    [SetFloatUniformMatrixGLSL<cols, rows>::Run] and [GetMatrixUniform] are
    declared in renderer_utils.h and defined outside this file; they are
    parameters of what follows.  [Run] receives the block and the offset of
    its target pointer in it, [GetMatrixUniform] the destination, the block
    and the offset of its source pointer. *)

Section MatrixHelpers.
Variable SetFloatUniformMatrixGLSL_Run :
  Z → Z → Z → Z → Z → bool → list Z → MemoryBuffer → Z → outcome MemoryBuffer.
Variable GetMatrixUniform :
  GLtype → GLenum → list byte → MemoryBuffer → Z → bool → outcome (list byte).

(** Body of the stage loop of [setUniformMatrixfv<cols, rows>]. *)
Definition setUniformMatrixfv_stage (cols rows : Z) (location count : Z)
    (transpose : bool) (value : list Z)
    (locationInfo : VariableLocation) (linkedUniform : LinkedUniform)
    (shaderType : ShaderType) (exe : ProgramExecutableVk) : outcome ProgramExecutableVk :=
  let uniformBlock := mDefaultUniformBlocks exe shaderType in
  layoutInfo ← at_index (uniformLayout uniformBlock) location;
  (* Assume an offset of -1 means the block is unused. *)
  if offset layoutInfo =? -1 then Done exe
  else
    uniformData' ← SetFloatUniformMatrixGLSL_Run cols rows
                     (arrayIndex locationInfo) (getArraySizeProduct linkedUniform)
                     count transpose value (uniformData uniformBlock) (offset layoutInfo);
    Done (set_dirty (set_uniformData exe shaderType uniformData') shaderType).

Definition setUniformMatrixfv (cols rows : Z) (p : ProgramVk) (location count : Z)
    (transpose : bool) (value : list Z) : outcome ProgramVk :=
  locationInfo ← at_index (getUniformLocations (mState p)) location;
  linkedUniform ← at_index (getUniforms (mState p)) (index locationInfo);
  exe' ← for_each_stage
           (setUniformMatrixfv_stage cols rows location count transpose value
              locationInfo linkedUniform)
           (ShaderBitSet_iterate (getLinkedShaderStages (mState p))) (mExecutable p);
  Done {| mState := mState p; mExecutable := exe' |}.

(** ** ProgramVk::getUniformImpl; [v] is the caller's destination. *)
Definition getUniformImpl (T : GLtype) (p : ProgramVk) (location : Z) (v : list byte)
    (entryPointType : GLenum) : outcome (list byte) :=
  locationInfo ← at_index (getUniformLocations (mState p)) location;
  linkedUniform ← at_index (getUniforms (mState p)) (index locationInfo);
  _ ← ASSERT (negb (isSampler linkedUniform) && negb (isImage linkedUniform));
  match getFirstShaderTypeWhereActive linkedUniform with
  | None => AssertionFailure
  | Some shaderType =>
      let uniformBlock := mDefaultUniformBlocks (mExecutable p) shaderType in
      layoutInfo ← at_index (uniformLayout uniformBlock) location;
      _ ← ASSERT ((componentType (typeInfo linkedUniform) =? entryPointType)
                  || (componentType (typeInfo linkedUniform)
                        =? VariableBoolVectorType entryPointType));
      if IsMatrixType (type linkedUniform) then
        let ptrToElement :=
          offset layoutInfo
          + wrap_uint (arrayIndex locationInfo * arrayStride layoutInfo) in
        GetMatrixUniform T (type linkedUniform) v (uniformData uniformBlock)
          ptrToElement false
      else
        ReadFromDefaultUniformBlock (sizeof T) (componentCount (typeInfo linkedUniform))
          (arrayIndex locationInfo) v layoutInfo (uniformData uniformBlock)
  end.
End MatrixHelpers.

(** ** Entry points *)

Definition setUniform1fv p location count v := setUniformImpl GLfloat p location count v GL_FLOAT.
Definition setUniform2fv p location count v := setUniformImpl GLfloat p location count v GL_FLOAT_VEC2.
Definition setUniform3fv p location count v := setUniformImpl GLfloat p location count v GL_FLOAT_VEC3.
Definition setUniform4fv p location count v := setUniformImpl GLfloat p location count v GL_FLOAT_VEC4.

Definition setUniform1iv (p : ProgramVk) (location count : Z) (v : list Z) : outcome ProgramVk :=
  locationInfo ← at_index (getUniformLocations (mState p)) location;
  linkedUniform ← at_index (getUniforms (mState p)) (index locationInfo);
  if isSampler linkedUniform then
    (* the sampler mapping is handled entirely in ContextVk *)
    Done p
  else setUniformImpl GLint p location count v GL_INT.

Definition setUniform2iv p location count v := setUniformImpl GLint p location count v GL_INT_VEC2.
Definition setUniform3iv p location count v := setUniformImpl GLint p location count v GL_INT_VEC3.
Definition setUniform4iv p location count v := setUniformImpl GLint p location count v GL_INT_VEC4.
Definition setUniform1uiv p location count v := setUniformImpl GLuint p location count v GL_UNSIGNED_INT.
Definition setUniform2uiv p location count v := setUniformImpl GLuint p location count v GL_UNSIGNED_INT_VEC2.
Definition setUniform3uiv p location count v := setUniformImpl GLuint p location count v GL_UNSIGNED_INT_VEC3.
Definition setUniform4uiv p location count v := setUniformImpl GLuint p location count v GL_UNSIGNED_INT_VEC4.

Definition getUniformfv GetMatrixUniform p location params :=
  getUniformImpl GetMatrixUniform GLfloat p location params GL_FLOAT.
Definition getUniformiv GetMatrixUniform p location params :=
  getUniformImpl GetMatrixUniform GLint p location params GL_INT.
Definition getUniformuiv GetMatrixUniform p location params :=
  getUniformImpl GetMatrixUniform GLuint p location params GL_UNSIGNED_INT.

(** ** The layout pass *)

(** [sh::ShaderVariable], the fields the encoder looks at. *)
Record ShaderVariable := mkShaderVariable {
  sv_name : string;
  sv_type : GLenum;
  sv_arraySizes : list Z;
  sv_isRowMajorLayout : bool
}.

(** Modelled from the spec: the default constructor of
    [sh::BlockMemberInfo] (blocklayout.h, not in this file).  Section 4.2:
    a location without a layout gets the all [-1] record. *)
Definition kDefaultBlockMemberInfo : BlockMemberInfo :=
  {| offset := -1; arrayStride := -1; matrixStride := -1; isRowMajorMatrix := false |}.

Section Encoder.
(** [gl::IsOpaqueType] (common/utilities.h) and the two virtual
    functions of the base class [sh::Std140BlockEncoder] (blocklayout.h)
    are defined outside this file.  The encoder object is its cursor.
    [Std140_getBlockLayoutInfo] gives the aligned cursor, the array stride
    and the matrix stride. *)
Variable IsOpaqueType : GLenum → bool.
Variable Std140_getBlockLayoutInfo : Z → GLenum → list Z → bool → Z * Z * Z.
Variable Std140_advanceOffset : Z → GLenum → list Z → bool → Z → Z → Z.

(** [VulkanDefaultBlockEncoder::advanceOffset] *)
Definition advanceOffset (mCurrentOffset : Z) (type : GLenum) (arraySizes : list Z)
    (isRowMajorMatrix : bool) (arrayStride matrixStride : Z) : Z :=
  if IsOpaqueType type then mCurrentOffset
  else Std140_advanceOffset mCurrentOffset type arraySizes isRowMajorMatrix
         arrayStride matrixStride.

(** Modelled from the spec: [sh::BlockLayoutEncoder::encodeType]
    (blocklayout.cpp, not in this file).  Section 4.1: apply the
    alignment, record the variable's offset and strides, advance the
    cursor; the advance is the virtual call that [advanceOffset]
    overrides. *)
Definition encodeType (mCurrentOffset : Z) (type : GLenum) (arraySizes : list Z)
    (isRowMajorMatrix : bool) : BlockMemberInfo * Z :=
  let '(aligned, arrayStride, matrixStride) :=
    Std140_getBlockLayoutInfo mCurrentOffset type arraySizes isRowMajorMatrix in
  ({| offset := aligned; arrayStride := arrayStride; matrixStride := matrixStride;
      isRowMajorMatrix := isRowMajorMatrix |},
   advanceOffset aligned type arraySizes isRowMajorMatrix arrayStride matrixStride).

(** Modelled from the spec: [sh::GetActiveUniformBlockInfo]
    (blocklayout.cpp, not in this file), with the empty prefix.
    Section 4.1: for each variable in order, an opaque one is skipped
    entirely, any other is encoded and recorded under its name. *)
Fixpoint GetActiveUniformBlockInfo (uniforms : list ShaderVariable)
    (blockEncoder : Z) (blockLayoutMapOut : gmap string BlockMemberInfo)
    : gmap string BlockMemberInfo * Z :=
  match uniforms with
  | [] => (blockLayoutMapOut, blockEncoder)
  | uniform :: uniforms' =>
      if IsOpaqueType (sv_type uniform) then
        GetActiveUniformBlockInfo uniforms' blockEncoder blockLayoutMapOut
      else
        let '(info, blockEncoder') :=
          encodeType blockEncoder (sv_type uniform) (sv_arraySizes uniform)
            (sv_isRowMajorLayout uniform) in
        GetActiveUniformBlockInfo uniforms' blockEncoder'
          (<[sv_name uniform := info]> blockLayoutMapOut)
  end.

(** [InitDefaultUniformBlock]: the two out-parameters are the result; the
    map is only ever added to. *)
Definition InitDefaultUniformBlock (uniforms : list ShaderVariable)
    (blockLayoutMapOut : gmap string BlockMemberInfo)
    : gmap string BlockMemberInfo * Z :=
  match uniforms with
  | [] => (blockLayoutMapOut, 0)
  | _ =>
      let '(blockLayoutMapOut', blockEncoder) :=
        GetActiveUniformBlockInfo uniforms 0 blockLayoutMapOut in
      let blockSize := blockEncoder in
      if blockSize =? 0 then (blockLayoutMapOut', 0)
      else (blockLayoutMapOut', blockSize)
  end.

(** [ProgramVk::generateUniformLayoutMapping]; [getAttachedShader] gives
    the uniforms of the shader attached to a stage, if there is one. *)
Fixpoint generateUniformLayoutMapping
    (getAttachedShader : ShaderMap (option (list ShaderVariable)))
    (stages : list ShaderType)
    (layoutMap : ShaderMap (gmap string BlockMemberInfo))
    (requiredBufferSize : ShaderMap Z)
    : ShaderMap (gmap string BlockMemberInfo) * ShaderMap Z :=
  match stages with
  | [] => (layoutMap, requiredBufferSize)
  | shaderType :: stages' =>
      match getAttachedShader shaderType with
      | Some uniforms =>
          let '(m, blockSize) := InitDefaultUniformBlock uniforms (layoutMap shaderType) in
          generateUniformLayoutMapping getAttachedShader stages'
            (<[shaderType := m]> layoutMap) (<[shaderType := blockSize]> requiredBufferSize)
      | None =>
          generateUniformLayoutMapping getAttachedShader stages' layoutMap requiredBufferSize
      end
  end.
End Encoder.

(** Modelled from the spec: [gl::StripLastArrayIndex] (common/utilities.h,
    not in this file).  Section 4.2: the trailing [[0]]-style suffix is
    removed, that is the name is cut at its last opening bracket when it
    ends with a closing one. *)
Fixpoint find_last_of (c : Ascii.ascii) (s : string) (pos : nat) : option nat :=
  match s with
  | EmptyString => None
  | String a s' =>
      match find_last_of c s' (S pos) with
      | Some i => Some i
      | None => if decide (a = c) then Some pos else None
      end
  end.

Definition StripLastArrayIndex (name : string) : string :=
  match find_last_of "["%char name 0, String.get (String.length name - 1) name with
  | Some strippedNameLength, Some back =>
      if decide (back = "]"%char) then String.substring 0 strippedNameLength name
      else name
  | _, _ => name
  end.

(** ** ProgramVk::initDefaultUniformLayoutMapping *)

(** The loop that looks the name up in every linked stage. *)
Fixpoint lookup_in_stages (layoutMap : ShaderMap (gmap string BlockMemberInfo))
    (uniformName : string) (stages : list ShaderType)
    (found : bool) (layoutInfo : ShaderMap BlockMemberInfo)
    : bool * ShaderMap BlockMemberInfo :=
  match stages with
  | [] => (found, layoutInfo)
  | shaderType :: stages' =>
      match layoutMap shaderType !! uniformName with
      | Some info =>
          lookup_in_stages layoutMap uniformName stages' true
            (<[shaderType := info]> layoutInfo)
      | None => lookup_in_stages layoutMap uniformName stages' found layoutInfo
      end
  end.

(** The name that is looked up for a uniform. *)
Definition lookup_name (uniform : LinkedUniform) : outcome string :=
  if isArray uniform then
    (* Gets the uniform name without the [0] at the end. *)
    let uniformName := StripLastArrayIndex (name uniform) in
    _ ← ASSERT (negb (String.length uniformName =? String.length (name uniform))%nat);
    Done uniformName
  else Done (name uniform).

(** The first half of the body of the loop over the locations: the
    per-stage records of one location. *)
Definition location_layoutInfo (state : ProgramState)
    (layoutMap : ShaderMap (gmap string BlockMemberInfo))
    (location : VariableLocation) : outcome (ShaderMap BlockMemberInfo) :=
  let layoutInfo : ShaderMap BlockMemberInfo := λ _, kDefaultBlockMemberInfo in
  if used location && negb (ignored location) then
    uniform ← at_index (getUniforms state) (index location);
    if isInDefaultBlock uniform && negb (isSampler uniform) && negb (isImage uniform)
       && negb (isFragmentInOut uniform) then
      uniformName ← lookup_name uniform;
      let '(found, layoutInfo') :=
        lookup_in_stages layoutMap uniformName
          (ShaderBitSet_iterate (getLinkedShaderStages state)) false layoutInfo in
      _ ← ASSERT found;
      Done layoutInfo'
    else Done layoutInfo
  else Done layoutInfo.

(** The second half: [uniformLayout.push_back(layoutInfo[shaderType])] in
    every linked stage. *)
Fixpoint push_back_layoutInfo (stages : list ShaderType)
    (layoutInfo : ShaderMap BlockMemberInfo) (exe : ProgramExecutableVk)
    : ProgramExecutableVk :=
  match stages with
  | [] => exe
  | shaderType :: stages' =>
      let uniformBlock := mDefaultUniformBlocks exe shaderType in
      push_back_layoutInfo stages' layoutInfo
        {| mDefaultUniformBlocks :=
             <[shaderType := {| uniformData := uniformData uniformBlock;
                                uniformLayout := uniformLayout uniformBlock
                                                   ++ [layoutInfo shaderType] |}]>
               (mDefaultUniformBlocks exe);
           mDefaultUniformBlocksDirty := mDefaultUniformBlocksDirty exe |}
  end.

Fixpoint initDefaultUniformLayoutMapping_loop (state : ProgramState)
    (layoutMap : ShaderMap (gmap string BlockMemberInfo))
    (locations : list VariableLocation) (exe : ProgramExecutableVk)
    : outcome ProgramExecutableVk :=
  match locations with
  | [] => Done exe
  | location :: locations' =>
      layoutInfo ← location_layoutInfo state layoutMap location;
      initDefaultUniformLayoutMapping_loop state layoutMap locations'
        (push_back_layoutInfo (ShaderBitSet_iterate (getLinkedShaderStages state))
           layoutInfo exe)
  end.

Definition initDefaultUniformLayoutMapping (p : ProgramVk)
    (layoutMap : ShaderMap (gmap string BlockMemberInfo)) : outcome ProgramVk :=
  exe' ← initDefaultUniformLayoutMapping_loop (mState p) layoutMap
           (getUniformLocations (mState p)) (mExecutable p);
  Done {| mState := mState p; mExecutable := exe' |}.

(** ** Vocabulary of the statements *)

(** [count] elements of [elementSize] bytes, written from [arrayIndex] on
    with the strides of [layoutInfo], lie inside the block [data] and do not
    overlap; the block is small enough for [int] offsets. *)
Definition fits (layoutInfo : BlockMemberInfo) (data : MemoryBuffer)
    (arrayIndex count elementSize : Z) : Prop :=
  0 <= offset layoutInfo ∧ 0 <= arrayStride layoutInfo
  ∧ (elementSize <= arrayStride layoutInfo ∨ count <= 1)
  ∧ offset layoutInfo + (arrayIndex + count - 1) * arrayStride layoutInfo + elementSize
    <= MemoryBuffer_size data
  ∧ MemoryBuffer_size data < 2 ^ 31.

(** What linking establishes for a location that is written with [count]
    elements: the location and its uniform exist, and every linked stage
    has a layout record for it that is either the sentinel or fits the
    stage's block. *)
Definition write_ready (p : ProgramVk) (location count : Z)
    (locationInfo : VariableLocation) (linkedUniform : LinkedUniform) : Prop :=
  at_index (getUniformLocations (mState p)) location = Done locationInfo
  ∧ at_index (getUniforms (mState p)) (index locationInfo) = Done linkedUniform
  ∧ 0 <= arrayIndex locationInfo ∧ 1 <= count
  ∧ arrayIndex locationInfo + count < 2 ^ 31
  ∧ 0 < componentCount (typeInfo linkedUniform)
  ∧ ∀ s, getLinkedShaderStages (mState p) s = true →
      ∃ layoutInfo,
        at_index (blockLayout (mExecutable p) s) location = Done layoutInfo
        ∧ (offset layoutInfo = -1
           ∨ fits layoutInfo (blockData (mExecutable p) s) (arrayIndex locationInfo) count
               (4 * componentCount (typeInfo linkedUniform))).

(** The stage the getter reads is linked and has the variable in its
    block. *)
Definition read_ready (p : ProgramVk) (location : Z) (linkedUniform : LinkedUniform)
    (shaderType : ShaderType) (layoutInfo : BlockMemberInfo) : Prop :=
  getFirstShaderTypeWhereActive linkedUniform = Some shaderType
  ∧ getLinkedShaderStages (mState p) shaderType = true
  ∧ at_index (blockLayout (mExecutable p) shaderType) location = Done layoutInfo
  ∧ offset layoutInfo ≠ -1.

(** What one turn of a setter's stage loop may change. *)
Definition write_frame (location : Z) (touched : ShaderType → Prop)
    (exe exe' : ProgramExecutableVk) : Prop :=
  (∀ s, blockLayout exe' s = blockLayout exe s)
  ∧ (∀ s, isDirty exe s = true → isDirty exe' s = true)
  ∧ (∀ s, blockData exe' s ≠ blockData exe s → isDirty exe' s = true)
  ∧ (∀ s, ¬ touched s ∨ (∃ layoutInfo, at_index (blockLayout exe s) location = Done layoutInfo
                                       ∧ offset layoutInfo = -1) →
       blockData exe' s = blockData exe s ∧ isDirty exe' s = isDirty exe s).

(** The write that the boolean arm of [setUniformImpl] performs on the block
    of a stage, from the assertion on. *)
Definition bool_write (T : GLtype) (count : Z) (v : list Z) (entryPointType : GLenum)
    (locationInfo : VariableLocation) (linkedUniform : LinkedUniform)
    (layoutInfo : BlockMemberInfo) (data : MemoryBuffer) : outcome MemoryBuffer :=
  _ ← ASSERT (typeInfo_type (typeInfo linkedUniform) =? VariableBoolVectorType entryPointType);
  setUniformImpl_bool_elements T (Z.to_nat count) 0 (componentCount (typeInfo linkedUniform))
    (wrap_int (arrayIndex locationInfo * arrayStride layoutInfo + offset layoutInfo))
    layoutInfo v data.

(** The write that [setUniformImpl] performs on the block of a stage. *)
Definition setUniformImpl_write (T : GLtype) (count : Z) (v : list Z)
    (entryPointType : GLenum) (locationInfo : VariableLocation)
    (linkedUniform : LinkedUniform) : BlockMemberInfo → MemoryBuffer → outcome MemoryBuffer :=
  if typeInfo_type (typeInfo linkedUniform) =? entryPointType then
    UpdateDefaultUniformBlock (sizeof T) count (arrayIndex locationInfo)
      (componentCount (typeInfo linkedUniform)) (encode_array v)
  else bool_write T count v entryPointType locationInfo linkedUniform.

(** The value that [setUniformImpl] stores for a source component. *)
Definition written_value (T : GLtype) (linkedUniform : LinkedUniform)
    (entryPointType : GLenum) (x : Z) : Z :=
  if typeInfo_type (typeInfo linkedUniform) =? entryPointType then x
  else bool_sentinel T x.

(** A call of one of the setters. *)
Inductive write_call :=
  | SetUniform (T : GLtype) (location count : Z) (v : list Z) (entryPointType : GLenum)
  | SetUniformMatrix (cols rows : Z) (location count : Z) (transpose : bool) (value : list Z).

Definition write_location (c : write_call) : Z :=
  match c with
  | SetUniform _ location _ _ _ => location
  | SetUniformMatrix _ _ location _ _ _ => location
  end.

Definition run_write
    (Run : Z → Z → Z → Z → Z → bool → list Z → MemoryBuffer → Z → outcome MemoryBuffer)
    (p : ProgramVk) (c : write_call) : outcome ProgramVk :=
  match c with
  | SetUniform T location count v entryPointType =>
      setUniformImpl T p location count v entryPointType
  | SetUniformMatrix cols rows location count transpose value =>
      setUniformMatrixfv Run cols rows p location count transpose value
  end.

(** Modelled from the spec: [clearDirty(stage)] of section 4.4, which the
    upload code outside this file performs after it has sent a block to the
    GPU; it resets the bit of that stage. *)
Definition clearDirty (p : ProgramVk) (s : ShaderType) : ProgramVk :=
  {| mState := mState p;
     mExecutable :=
       {| mDefaultUniformBlocks := mDefaultUniformBlocks (mExecutable p);
          mDefaultUniformBlocksDirty :=
            <[s := false]> (mDefaultUniformBlocksDirty (mExecutable p)) |} |}.

(** What happens to a program between two draws: setters and uploads. *)
Inductive call :=
  | Write (c : write_call)
  | ClearDirty (s : ShaderType).

Definition run_call
    (Run : Z → Z → Z → Z → Z → bool → list Z → MemoryBuffer → Z → outcome MemoryBuffer)
    (p : ProgramVk) (c : call) : outcome ProgramVk :=
  match c with
  | Write c => run_write Run p c
  | ClearDirty s => Done (clearDirty p s)
  end.

Fixpoint run_calls
    (Run : Z → Z → Z → Z → Z → bool → list Z → MemoryBuffer → Z → outcome MemoryBuffer)
    (p : ProgramVk) (cs : list call) : outcome ProgramVk :=
  match cs with
  | [] => Done p
  | c :: cs' => p' ← run_call Run p c; run_calls Run p' cs'
  end.

(** The stage has the written location in its block: it is linked and its
    layout record is not the sentinel. *)
Definition touches (p : ProgramVk) (location : Z) (s : ShaderType) : Prop :=
  getLinkedShaderStages (mState p) s = true
  ∧ ∃ layoutInfo, at_index (blockLayout (mExecutable p) s) location = Done layoutInfo
                  ∧ offset layoutInfo ≠ -1.

(** ** Examples *)

(** The example of the specification: three [vec4]-sized elements at index 1,
    stride 32, into a block of 160 canary bytes. *)
Definition example_layoutInfo : BlockMemberInfo :=
  {| offset := 0; arrayStride := 32; matrixStride := 0; isRowMajorMatrix := false |}.

Definition example_uniformData : MemoryBuffer := replicate 160 Init.Byte.xaa.

Definition example_source : list byte := byte.of_Z <$> seqZ 1 48.

(** ** A linked program for the examples

    Five uniforms, one location each: a [vec4] used by both stages, a
    [bvec4] used by the fragment stage only, a sampler, an image and a
    [mat2] used by the vertex stage only.  The blocks start out filled with
    [0xaa]. *)
Definition example_uniform (name : string) (type componentType : GLenum)
    (componentCount : Z) (isSampler isImage : bool) (first : option ShaderType)
    : LinkedUniform :=
  {| name := name; type := type;
     typeInfo := {| typeInfo_type := type; componentType := componentType;
                    componentCount := componentCount |};
     isSampler := isSampler; isImage := isImage; isInDefaultBlock := true;
     isFragmentInOut := false; isArray := false; getArraySizeProduct := 1;
     getFirstShaderTypeWhereActive := first |}.

Definition example_state : ProgramState :=
  {| getUniformLocations :=
       (λ i, {| arrayIndex := 0; index := i; ignored := false; used := true |})
         <$> seqZ 0 5;
     getUniforms :=
       [ example_uniform "color" GL_FLOAT_VEC4 GL_FLOAT 4 false false (Some Vertex);
         example_uniform "flags" GL_BOOL_VEC4 GL_BOOL 4 false false (Some Fragment);
         example_uniform "tex" GL_SAMPLER_2D GL_INT 1 true false (Some Fragment);
         example_uniform "img" GL_IMAGE_2D GL_INT 1 false true (Some Fragment);
         example_uniform "m" GL_FLOAT_MAT2 GL_FLOAT 4 false false (Some Vertex) ];
     getLinkedShaderStages :=
       λ s, match s with Vertex | Fragment => true | _ => false end |}.

Definition example_blocks : ShaderMap DefaultUniformBlock :=
  λ s, match s with
       | Vertex =>
           {| uniformData := replicate 64 Init.Byte.xaa;
              uniformLayout :=
                [ mkBlockMemberInfo 0 0 0 false; kDefaultBlockMemberInfo;
                  kDefaultBlockMemberInfo; kDefaultBlockMemberInfo;
                  mkBlockMemberInfo 16 32 16 false ] |}
       | Fragment =>
           {| uniformData := replicate 32 Init.Byte.xaa;
              uniformLayout :=
                [ mkBlockMemberInfo 16 0 0 false; mkBlockMemberInfo 0 0 0 false;
                  kDefaultBlockMemberInfo; kDefaultBlockMemberInfo;
                  kDefaultBlockMemberInfo ] |}
       | _ => {| uniformData := []; uniformLayout := [] |}
       end.

Definition example_program : ProgramVk :=
  {| mState := example_state;
     mExecutable := {| mDefaultUniformBlocks := example_blocks;
                       mDefaultUniformBlocksDirty := λ _, false |} |}.

(** Stand-ins for the two matrix helpers in the examples: a matrix is
    stored column by column, 16 bytes apart (section 4.1), from a source in
    the same order; the examples do not transpose. *)
Definition matrix_columns (type : GLenum) : Z :=
  if bool_decide (type ∈ [GL_FLOAT_MAT2; GL_FLOAT_MAT2x3; GL_FLOAT_MAT2x4]) then 2
  else if bool_decide (type ∈ [GL_FLOAT_MAT3; GL_FLOAT_MAT3x2; GL_FLOAT_MAT3x4]) then 3
  else 4.

Definition matrix_rows (type : GLenum) : Z :=
  if bool_decide (type ∈ [GL_FLOAT_MAT2; GL_FLOAT_MAT3x2; GL_FLOAT_MAT4x2]) then 2
  else if bool_decide (type ∈ [GL_FLOAT_MAT3; GL_FLOAT_MAT2x3; GL_FLOAT_MAT4x3]) then 3
  else 4.

Definition example_Run (cols rows arrayElementOffset elementCount countIn : Z)
    (transpose : bool) (value : list Z) (data : MemoryBuffer) (target : Z)
    : outcome MemoryBuffer :=
  if transpose then AssertionFailure
  else UpdateDefaultUniformBlock 4 (countIn * cols) (arrayElementOffset * cols) rows
         (encode_array value) (mkBlockMemberInfo target 16 16 false) data.

Fixpoint example_GetMatrixUniform_columns (fuel : nat) (col rows : Z)
    (dataOut : list byte) (data : MemoryBuffer) (source : Z) : outcome (list byte) :=
  match fuel with
  | O => Done dataOut
  | S fuel' =>
      dataOut' ← memcpy dataOut (4 * rows * col) data (source + 16 * col) (4 * rows);
      example_GetMatrixUniform_columns fuel' (col + 1) rows dataOut' data source
  end.

Definition example_GetMatrixUniform (T : GLtype) (type : GLenum) (dataOut : list byte)
    (data : MemoryBuffer) (source : Z) (transpose : bool) : outcome (list byte) :=
  if transpose then AssertionFailure
  else example_GetMatrixUniform_columns (Z.to_nat (matrix_columns type)) 0
         (matrix_rows type) dataOut data source.

(** 1.0, 2.0, 3.0 and 4.0 as [GLfloat] bit patterns. *)
Definition example_floats : list Z := [0x3F800000; 0x40000000; 0x40400000; 0x40800000].

Ltac example_stages :=
  let s := fresh "s" in let Hs := fresh "Hs" in
  intros s Hs; destruct s; try discriminate Hs.

Ltac example_fits :=
  first [ left; reflexivity
        | right; unfold fits, MemoryBuffer_size, blockData; simpl; lia ].

(** A program with two arrays of two elements, [ivec4 a[2]] and
    [bvec4 b[2]], each alone in the 32-byte block of its stage; the
    locations 0 and 1 are [a[1]] and [b[1]]. *)
Definition overrun_program : ProgramVk :=
  {| mState :=
       {| getUniformLocations := [ mkVariableLocation 1 0 false true; mkVariableLocation 1 1 false true ];
          getUniforms :=
            [ {| name := "a[0]"; type := GL_INT_VEC4;
                 typeInfo := mkUniformTypeInfo GL_INT_VEC4 GL_INT 4;
                 isSampler := false; isImage := false; isInDefaultBlock := true;
                 isFragmentInOut := false; isArray := true; getArraySizeProduct := 2;
                 getFirstShaderTypeWhereActive := Some Vertex |};
              {| name := "b[0]"; type := GL_BOOL_VEC4;
                 typeInfo := mkUniformTypeInfo GL_BOOL_VEC4 GL_BOOL 4;
                 isSampler := false; isImage := false; isInDefaultBlock := true;
                 isFragmentInOut := false; isArray := true; getArraySizeProduct := 2;
                 getFirstShaderTypeWhereActive := Some Fragment |} ];
          getLinkedShaderStages :=
            λ s, match s with Vertex | Fragment => true | _ => false end |};
     mExecutable :=
       {| mDefaultUniformBlocks :=
            λ s, match s with
                 | Vertex =>
                     {| uniformData := replicate 32 Init.Byte.xaa;
                        uniformLayout := [ mkBlockMemberInfo 0 16 0 false;
                                           kDefaultBlockMemberInfo ] |}
                 | Fragment =>
                     {| uniformData := replicate 32 Init.Byte.xaa;
                        uniformLayout := [ kDefaultBlockMemberInfo;
                                           mkBlockMemberInfo 0 16 0 false ] |}
                 | _ => {| uniformData := []; uniformLayout := [] |}
                 end;
          mDefaultUniformBlocksDirty := λ _, false |} |}.

(** A program state with an array [lights] that only the fragment stage has
    in its block, and a fragment in/out variable [fetch]. *)
Definition layout_example_state : ProgramState :=
  {| getUniformLocations := [ mkVariableLocation 0 0 false true; mkVariableLocation 0 1 false true ];
     getUniforms :=
       [ {| name := "lights[0]"; type := GL_FLOAT_VEC4;
            typeInfo := mkUniformTypeInfo GL_FLOAT_VEC4 GL_FLOAT 4;
            isSampler := false; isImage := false; isInDefaultBlock := true;
            isFragmentInOut := false; isArray := true; getArraySizeProduct := 2;
            getFirstShaderTypeWhereActive := Some Fragment |};
         {| name := "fetch"; type := GL_FLOAT_VEC4;
            typeInfo := mkUniformTypeInfo GL_FLOAT_VEC4 GL_FLOAT 4;
            isSampler := false; isImage := false; isInDefaultBlock := true;
            isFragmentInOut := true; isArray := false; getArraySizeProduct := 1;
            getFirstShaderTypeWhereActive := Some Fragment |} ];
     getLinkedShaderStages := λ s, match s with Vertex | Fragment => true | _ => false end |}.

Definition layout_example_map : ShaderMap (gmap string BlockMemberInfo) :=
  λ s, match s with
       | Fragment => {[ "lights" := mkBlockMemberInfo 0 16 0 false ]}
       | _ => ∅
       end.

(** Stand-ins for the functions of other files in the example: the opaque
    types are a sampler and an image type, and every other member takes one
    16-byte slot. *)
Definition example_IsOpaqueType (type : GLenum) : bool :=
  bool_decide (type ∈ [GL_SAMPLER_2D; GL_IMAGE_2D]).

Definition example_getBlockLayoutInfo (mCurrentOffset : Z) (type : GLenum)
    (arraySizes : list Z) (isRowMajorMatrix : bool) : Z * Z * Z :=
  ((mCurrentOffset + 15) / 16 * 16, 0, 0).

Definition example_advanceOffset (mCurrentOffset : Z) (type : GLenum)
    (arraySizes : list Z) (isRowMajorMatrix : bool) (arrayStride matrixStride : Z) : Z :=
  mCurrentOffset + 16.

(** A program with an array [ivec2 a[3]] that only the vertex stage has in
    its block, 16 bytes from one element to the next; the locations 0, 1
    and 2 are its elements. *)
Definition array_uniform : LinkedUniform :=
  {| name := "a[0]"; type := GL_INT_VEC2;
     typeInfo := mkUniformTypeInfo GL_INT_VEC2 GL_INT 2;
     isSampler := false; isImage := false; isInDefaultBlock := true;
     isFragmentInOut := false; isArray := true; getArraySizeProduct := 3;
     getFirstShaderTypeWhereActive := Some Vertex |}.

Definition array_program : ProgramVk :=
  {| mState :=
       {| getUniformLocations :=
            (λ i, {| arrayIndex := i; index := 0; ignored := false; used := true |})
              <$> seqZ 0 3;
          getUniforms := [ array_uniform ];
          getLinkedShaderStages :=
            λ s, match s with Vertex | Fragment => true | _ => false end |};
     mExecutable :=
       {| mDefaultUniformBlocks :=
            λ s, match s with
                 | Vertex =>
                     {| uniformData := replicate 48 Init.Byte.xaa;
                        uniformLayout := replicate 3 (mkBlockMemberInfo 0 16 0 false) |}
                 | Fragment =>
                     {| uniformData := [];
                        uniformLayout := replicate 3 kDefaultBlockMemberInfo |}
                 | _ => {| uniformData := []; uniformLayout := [] |}
                 end;
          mDefaultUniformBlocksDirty := λ _, false |} |}.

(** The program of [layout_example_state] before the layout pass: no stage
    has a layout table yet. *)
Definition layout_example_program : ProgramVk :=
  {| mState := layout_example_state;
     mExecutable :=
       {| mDefaultUniformBlocks := λ _, {| uniformData := []; uniformLayout := [] |};
          mDefaultUniformBlocksDirty := λ _, false |} |}.

(** ** The matrix helpers, after the specification

    [SetFloatUniformMatrixGLSL<cols, rows>::Run] and [GetMatrixUniform] are
    declared in renderer_utils.h and defined outside this file.  The numbers
    of columns and rows of a matrix type are [matrix_columns] and
    [matrix_rows] above. *)

(** A matrix given line by line, [inner] lines of [outer] entries, read
    the other way round: [outer] lines of [inner] entries. *)
Definition transposed {A} (outer inner : nat) (l : list A) : list A :=
  c ← seq 0 outer; r ← seq 0 inner; option_list (l !! (r * outer + c)%nat).

(** Modelled from the spec: [SetFloatUniformMatrixGLSL<cols, rows>::Run].
    Sections 4.1 and 4.3: a matrix is stored column by column and every
    column is padded to 16 bytes, so that an element of an array of matrices
    takes [cols] columns of 16 bytes; the write copies the columns of
    [countIn] matrices, from array element [arrayElementOffset] on, each to
    its place, and a write past the end of the block is a fatal bounds
    violation, never truncated.  The source is column by column unless
    [transpose] is set. *)
Definition SetFloatUniformMatrixGLSL_Run
    (cols rows arrayElementOffset elementCount countIn : Z)
    (transpose : bool) (value : list Z) (targetData : MemoryBuffer) (target : Z)
    : outcome MemoryBuffer :=
  let columns :=
    if transpose then
      m ← seq 0 (Z.to_nat countIn);
      transposed (Z.to_nat cols) (Z.to_nat rows)
        (take (Z.to_nat (cols * rows)) (drop (m * Z.to_nat (cols * rows)) value))
    else value in
  UpdateDefaultUniformBlock 4 (countIn * cols) (arrayElementOffset * cols) rows
    (encode_array columns) (mkBlockMemberInfo target 16 16 false) targetData.

(** The columns from [col] on, each copied from its 16-byte slot to its
    place in the destination. *)
Fixpoint GetMatrixUniform_columns (fuel : nat) (col rows : Z)
    (dataOut : list byte) (data : MemoryBuffer) (source : Z) : outcome (list byte) :=
  match fuel with
  | O => Done dataOut
  | S fuel' =>
      dataOut' ← memcpy dataOut (4 * rows * col) data (source + 16 * col) (4 * rows);
      GetMatrixUniform_columns fuel' (col + 1) rows dataOut' data source
  end.

(** Modelled from the spec: [GetMatrixUniform].  Sections 4.1 and 4.3: the
    dedicated un-pack routine reads the columns from their 16-byte slots and
    gives the matrix back in the element order of the API, column by column
    unless [transpose] is set. *)
Definition GetMatrixUniform (T : GLtype) (type : GLenum) (dataOut : list byte)
    (data : MemoryBuffer) (source : Z) (transpose : bool) : outcome (list byte) :=
  let columns := matrix_columns type in
  let rows := matrix_rows type in
  if transpose then
    unpacked ← GetMatrixUniform_columns (Z.to_nat columns) 0 rows
                 (replicate (Z.to_nat (4 * columns * rows)) Init.Byte.x00) data source;
    mem_write dataOut 0
      (mjoin (transposed (Z.to_nat rows) (Z.to_nat columns)
                (reshape (replicate (Z.to_nat (columns * rows)) 4%nat) unpacked)))
  else GetMatrixUniform_columns (Z.to_nat columns) 0 rows dataOut data source.

(** * Properties *)

(** ** Machine integers *)

Lemma wrap_int_small z : - 2 ^ 31 <= z < 2 ^ 31 → wrap_int z = z.
Proof. intros H. unfold wrap_int. rewrite Z.mod_small; lia. Qed.

Lemma wrap_uint_small z : 0 <= z < 2 ^ 32 → wrap_uint z = z.
Proof. intros H. unfold wrap_uint. rewrite Z.mod_small; lia. Qed.

(** ** The outcome monad *)

Lemma bind_Done {A B} (f : A → outcome B) (m : outcome A) (b : B) :
  m ≫= f = Done b ↔ ∃ a, m = Done a ∧ f a = Done b.
Proof.
  destruct m as [a| |]; simpl; split; try (intros [a' [? ?]]); try discriminate; eauto.
  by simplify_eq.
Qed.

Lemma ASSERT_Done (c : bool) (u : unit) : ASSERT c = Done u ↔ c = true.
Proof. destruct c, u; simpl; split; intros; congruence. Qed.

Lemma ASSERT_true (c : bool) : c = true → ASSERT c = Done tt.
Proof. by intros ->. Qed.

(** ** Raw memory *)

Lemma byte_at_Some_range (m : MemoryBuffer) q b :
  byte_at m q = Some b → 0 <= q < MemoryBuffer_size m.
Proof.
  unfold byte_at, MemoryBuffer_size. destruct (Z.leb_spec 0 q) as [Hq|Hq]; [|done].
  intros Hb%lookup_lt_Some. lia.
Qed.

Lemma byte_at_is_Some (m : MemoryBuffer) q :
  0 <= q < MemoryBuffer_size m → is_Some (byte_at m q).
Proof.
  unfold byte_at, MemoryBuffer_size. intros H.
  destruct (Z.leb_spec 0 q); [|lia]. apply lookup_lt_is_Some. lia.
Qed.

Lemma byte_at_outside (m : MemoryBuffer) q :
  q < 0 ∨ MemoryBuffer_size m <= q → byte_at m q = None.
Proof.
  unfold byte_at, MemoryBuffer_size. intros H.
  destruct (Z.leb_spec 0 q); [|done]. apply lookup_ge_None. lia.
Qed.

Lemma byte_at_ext (a b : MemoryBuffer) :
  (∀ q, byte_at a q = byte_at b q) → a = b.
Proof.
  intros H. apply list_eq. intros i. specialize (H (Z.of_nat i)).
  unfold byte_at in H. destruct (Z.leb_spec 0 (Z.of_nat i)); [|lia].
  by rewrite Nat2Z.id in H.
Qed.

Lemma mem_read_Done (m : MemoryBuffer) p n :
  0 <= p → 0 <= n → p + n <= MemoryBuffer_size m →
  mem_read m p n = Done (take (Z.to_nat n) (drop (Z.to_nat p) m)).
Proof.
  intros. unfold mem_read.
  destruct (Z.leb_spec 0 p), (Z.leb_spec 0 n), (Z.leb_spec (p + n) (MemoryBuffer_size m));
    simpl; done || lia.
Qed.

Lemma mem_read_inv (m : MemoryBuffer) p n bs :
  mem_read m p n = Done bs →
  0 <= p ∧ 0 <= n ∧ p + n <= MemoryBuffer_size m
  ∧ bs = take (Z.to_nat n) (drop (Z.to_nat p) m).
Proof.
  unfold mem_read.
  destruct (Z.leb_spec 0 p), (Z.leb_spec 0 n), (Z.leb_spec (p + n) (MemoryBuffer_size m));
    simpl; intros; simplify_eq; auto.
Qed.

Lemma mem_read_size (m : MemoryBuffer) p n bs :
  mem_read m p n = Done bs → MemoryBuffer_size bs = n.
Proof.
  intros (? & ? & ? & ->)%mem_read_inv. unfold MemoryBuffer_size in *.
  rewrite length_take, length_drop. lia.
Qed.

Lemma mem_read_byte_at (m : MemoryBuffer) p n bs t :
  mem_read m p n = Done bs → 0 <= t < n → byte_at bs t = byte_at m (p + t).
Proof.
  intros (? & ? & ? & ->)%mem_read_inv Ht. unfold byte_at.
  destruct (Z.leb_spec 0 t), (Z.leb_spec 0 (p + t)); try lia.
  rewrite lookup_take_lt by lia. rewrite lookup_drop. f_equal. lia.
Qed.

Lemma mem_write_Done (m : MemoryBuffer) p bs :
  0 <= p → p + MemoryBuffer_size bs <= MemoryBuffer_size m →
  mem_write m p bs = Done (take (Z.to_nat p) m ++ bs ++ drop (Z.to_nat p + length bs) m).
Proof.
  intros. unfold mem_write.
  destruct (Z.leb_spec 0 p), (Z.leb_spec (p + MemoryBuffer_size bs) (MemoryBuffer_size m));
    simpl; done || lia.
Qed.

Lemma mem_write_inv (m : MemoryBuffer) p bs m' :
  mem_write m p bs = Done m' →
  0 <= p ∧ p + MemoryBuffer_size bs <= MemoryBuffer_size m
  ∧ m' = take (Z.to_nat p) m ++ bs ++ drop (Z.to_nat p + length bs) m.
Proof.
  unfold mem_write.
  destruct (Z.leb_spec 0 p), (Z.leb_spec (p + MemoryBuffer_size bs) (MemoryBuffer_size m));
    simpl; intros; simplify_eq; auto.
Qed.

Lemma mem_write_size (m : MemoryBuffer) p bs m' :
  mem_write m p bs = Done m' → MemoryBuffer_size m' = MemoryBuffer_size m.
Proof.
  intros (? & ? & ->)%mem_write_inv. unfold MemoryBuffer_size in *.
  rewrite !length_app, length_take, length_drop. lia.
Qed.

Lemma mem_write_byte_at_in (m : MemoryBuffer) p bs m' t :
  mem_write m p bs = Done m' → 0 <= t < MemoryBuffer_size bs →
  byte_at m' (p + t) = byte_at bs t.
Proof.
  intros (? & ? & ->)%mem_write_inv Ht. unfold byte_at, MemoryBuffer_size in *.
  destruct (Z.leb_spec 0 t), (Z.leb_spec 0 (p + t)); try lia.
  rewrite lookup_app_r by (rewrite length_take; lia).
  rewrite length_take, lookup_app_l by lia. f_equal. lia.
Qed.

Lemma mem_write_byte_at_out (m : MemoryBuffer) p bs m' q :
  mem_write m p bs = Done m' → q < p ∨ p + MemoryBuffer_size bs <= q →
  byte_at m' q = byte_at m q.
Proof.
  intros (? & ? & ->)%mem_write_inv Hq. unfold byte_at, MemoryBuffer_size in *.
  destruct (Z.leb_spec 0 q); [|done].
  destruct (Z.lt_ge_cases q p).
  - rewrite lookup_app_l by (rewrite length_take; lia).
    by rewrite lookup_take_lt by lia.
  - rewrite lookup_app_r by (rewrite length_take; lia).
    rewrite length_take, lookup_app_r by lia.
    rewrite lookup_drop. f_equal. lia.
Qed.

Lemma mem_write_read_back (m : MemoryBuffer) p bs m' :
  mem_write m p bs = Done m' → mem_read m' p (MemoryBuffer_size bs) = Done bs.
Proof.
  intros Hw. pose proof (mem_write_size _ _ _ _ Hw) as Hsz.
  destruct (mem_write_inv _ _ _ _ Hw) as (? & ? & ->).
  unfold MemoryBuffer_size in *.
  rewrite mem_read_Done by (unfold MemoryBuffer_size; lia). f_equal.
  rewrite drop_app_length' by (rewrite length_take; lia).
  rewrite Nat2Z.id. by rewrite take_app_length.
Qed.

(** Reading is determined by the bytes it covers. *)
Lemma mem_read_eq (a b : MemoryBuffer) p q n :
  0 <= p → 0 <= q → 0 <= n →
  p + n <= MemoryBuffer_size a → q + n <= MemoryBuffer_size b →
  (∀ t, 0 <= t < n → byte_at a (p + t) = byte_at b (q + t)) →
  mem_read a p n = mem_read b q n.
Proof.
  intros ????? H. rewrite !mem_read_Done by done. f_equal.
  apply byte_at_ext. intros t.
  destruct (decide (0 <= t < n)) as [Ht|Ht].
  - rewrite (mem_read_byte_at a p n _ t), (mem_read_byte_at b q n _ t);
      auto using mem_read_Done.
  - rewrite !byte_at_outside; [done| |]; unfold MemoryBuffer_size in *;
      rewrite length_take, length_drop; lia.
Qed.

Lemma memcpy_inv (dst : MemoryBuffer) dstp (src : MemoryBuffer) srcp n dst' :
  memcpy dst dstp src srcp n = Done dst' →
  0 <= dstp ∧ 0 <= srcp ∧ 0 <= n
  ∧ srcp + n <= MemoryBuffer_size src ∧ dstp + n <= MemoryBuffer_size dst
  ∧ MemoryBuffer_size dst' = MemoryBuffer_size dst
  ∧ (∀ t, 0 <= t < n → byte_at dst' (dstp + t) = byte_at src (srcp + t))
  ∧ (∀ q, q < dstp ∨ dstp + n <= q → byte_at dst' q = byte_at dst q).
Proof.
  unfold memcpy. intros (bs & Hr & Hw)%bind_Done.
  pose proof (mem_read_size _ _ _ _ Hr) as Hn.
  destruct (mem_read_inv _ _ _ _ Hr) as (? & ? & ? & _).
  destruct (mem_write_inv _ _ _ _ Hw) as (? & ? & _).
  repeat split; try lia.
  - eauto using mem_write_size.
  - intros t Ht. rewrite (mem_write_byte_at_in _ _ _ _ _ Hw) by lia.
    eauto using mem_read_byte_at.
  - intros q Hq. apply (mem_write_byte_at_out _ _ _ _ _ Hw). lia.
Qed.

Lemma memcpy_Done (dst : MemoryBuffer) dstp (src : MemoryBuffer) srcp n :
  0 <= dstp → 0 <= srcp → 0 <= n →
  srcp + n <= MemoryBuffer_size src → dstp + n <= MemoryBuffer_size dst →
  ∃ dst', memcpy dst dstp src srcp n = Done dst'.
Proof.
  intros. unfold memcpy. rewrite mem_read_Done by done. simpl.
  rewrite mem_write_Done; [eauto|done|].
  unfold MemoryBuffer_size in *. rewrite length_take, length_drop. lia.
Qed.

(** A copy into the front of the destination leaves its tail. *)
Lemma memcpy_front (dst : MemoryBuffer) (src : MemoryBuffer) srcp n bs :
  mem_read src srcp n = Done bs → n <= MemoryBuffer_size dst →
  memcpy dst 0 src srcp n = Done (bs ++ drop (Z.to_nat n) dst).
Proof.
  intros Hr Hn. unfold memcpy. rewrite Hr. simpl.
  pose proof (mem_read_size _ _ _ _ Hr) as Hsz.
  rewrite mem_write_Done by lia. unfold MemoryBuffer_size in Hsz.
  change (Z.to_nat 0) with 0%nat. simpl. repeat f_equal. lia.
Qed.

(** ** UpdateDefaultUniformBlock *)

Section UpdateDefaultUniformBlock_spec.
Variable sizeofT : Z.
Variables (componentCount : Z) (v : list byte) (layoutInfo : BlockMemberInfo).

Let elementSize := sizeofT * componentCount.

Hypothesis sizeofT_pos : 0 < sizeofT.
Hypothesis componentCount_pos : 0 < componentCount.
Hypothesis offset_nonneg : 0 <= offset layoutInfo.
Hypothesis arrayStride_nonneg : 0 <= arrayStride layoutInfo.

(** What [fuel] turns of the strided loop do, when the elements do not
    overlap (or there is at most one) and all of them fit. *)
Lemma UpdateDefaultUniformBlock_loop_spec (fuel : nat) :
  ∀ (writeIndex readIndex : Z) (uniformData : MemoryBuffer),
  0 <= writeIndex → 0 <= readIndex →
  elementSize <= arrayStride layoutInfo ∨ (fuel ≤ 1)%nat →
  (fuel ≠ 0)%nat →
  offset layoutInfo + (writeIndex + Z.of_nat fuel - 1) * arrayStride layoutInfo
    + elementSize <= MemoryBuffer_size uniformData →
  MemoryBuffer_size uniformData < 2 ^ 31 →
  (readIndex + Z.of_nat fuel) * elementSize <= MemoryBuffer_size v →
  MemoryBuffer_size v < 2 ^ 31 →
  ∃ uniformData',
    UpdateDefaultUniformBlock_loop sizeofT fuel writeIndex readIndex componentCount
      elementSize v layoutInfo uniformData = Done uniformData'
    ∧ MemoryBuffer_size uniformData' = MemoryBuffer_size uniformData
    ∧ (∀ j t, 0 <= j < Z.of_nat fuel → 0 <= t < elementSize →
         byte_at uniformData'
           (offset layoutInfo + (writeIndex + j) * arrayStride layoutInfo + t)
         = byte_at v ((readIndex + j) * elementSize + t))
    ∧ (∀ q, (∀ j, 0 <= j < Z.of_nat fuel →
               q < offset layoutInfo + (writeIndex + j) * arrayStride layoutInfo
               ∨ offset layoutInfo + (writeIndex + j) * arrayStride layoutInfo
                 + elementSize <= q) →
         byte_at uniformData' q = byte_at uniformData q).
Proof.
  assert (He : 0 < elementSize) by (unfold elementSize; nia).
  induction fuel as [|fuel IH]; [done|].
  intros writeIndex readIndex uniformData Hw Hr Hshape _ Hfit Hsz Hsrc Hvsz.
  set (s := arrayStride layoutInfo) in *. set (o := offset layoutInfo) in *.
  assert (Hws : 0 <= writeIndex * s <= (writeIndex + Z.of_nat (S fuel) - 1) * s) by nia.
  assert (Hrc : 0 <= readIndex * componentCount
                ∧ sizeofT * (readIndex * componentCount) = readIndex * elementSize
                ∧ readIndex * componentCount <= readIndex * elementSize
                ∧ readIndex * elementSize <= (readIndex + Z.of_nat (S fuel)) * elementSize - elementSize)
    by (unfold elementSize in *; nia).
  destruct Hrc as (Hrc0 & Hrc1 & Hrc2 & Hrc3).
  simpl. fold s o.
  rewrite (wrap_int_small (writeIndex * s)) by lia.
  rewrite (wrap_int_small (readIndex * componentCount)) by lia.
  rewrite Hrc1.
  rewrite ASSERT_true by (apply Z.leb_le; lia). simpl.
  destruct (memcpy_Done uniformData (o + writeIndex * s) v (readIndex * elementSize)
              elementSize) as [data1 Hcpy]; try lia.
  rewrite Hcpy. simpl.
  destruct (memcpy_inv _ _ _ _ _ _ Hcpy) as (_ & _ & _ & _ & _ & Hsz1 & Hin1 & Hout1).
  destruct fuel as [|fuel'].
  { simpl. exists data1. repeat split; [done|..].
    - intros j t Hj Ht. assert (j = 0) as -> by lia.
      rewrite !Z.add_0_r. rewrite <- Hin1 by lia. f_equal; lia.
    - intros q Hq. apply Hout1. specialize (Hq 0). rewrite Z.add_0_r in Hq. lia. }
  destruct Hshape as [Hshape|Hshape]; [|lia].
  destruct (IH (writeIndex + 1) (readIndex + 1) data1) as (data2 & Hloop & Hsz2 & Hin2 & Hout2).
  all: try lia.
  all: try (by left).
  exists data2. rewrite Hloop. repeat split; [lia|..].
  - intros j t Hj Ht. destruct (decide (j = 0)) as [->|Hj0].
    + rewrite Hout2.
      * rewrite !Z.add_0_r. rewrite <- Hin1 by lia. f_equal; lia.
      * intros j' Hj'. left.
        assert (s <= (1 + j') * s) by nia. lia.
    + replace (writeIndex + j) with (writeIndex + 1 + (j - 1)) by lia.
      replace (readIndex + j) with (readIndex + 1 + (j - 1)) by lia.
      apply Hin2; lia.
  - intros q Hq. rewrite Hout2.
    + apply Hout1. specialize (Hq 0). rewrite Z.add_0_r in Hq. lia.
    + intros j Hj. specialize (Hq (j + 1)).
      replace (writeIndex + (j + 1)) with (writeIndex + 1 + j) in Hq by lia.
      apply Hq. lia.
Qed.
End UpdateDefaultUniformBlock_spec.

(** What a whole call does: [count] elements, the [i]-th one at
    [offset + (arrayIndex + i) * arrayStride], and nothing else. *)
Lemma UpdateDefaultUniformBlock_spec (sizeofT count arrayIndex componentCount : Z)
    (v : list byte) (layoutInfo : BlockMemberInfo) (uniformData : MemoryBuffer) :
  let elementSize := sizeofT * componentCount in
  0 < sizeofT → 0 < componentCount →
  0 <= offset layoutInfo → 0 <= arrayStride layoutInfo →
  0 <= arrayIndex → 1 <= count → arrayIndex + count < 2 ^ 31 →
  elementSize <= arrayStride layoutInfo ∨ count <= 1 →
  offset layoutInfo + (arrayIndex + count - 1) * arrayStride layoutInfo + elementSize
    <= MemoryBuffer_size uniformData →
  MemoryBuffer_size uniformData < 2 ^ 31 →
  count * elementSize <= MemoryBuffer_size v →
  MemoryBuffer_size v < 2 ^ 31 →
  ∃ uniformData',
    UpdateDefaultUniformBlock sizeofT count arrayIndex componentCount v layoutInfo uniformData
      = Done uniformData'
    ∧ MemoryBuffer_size uniformData' = MemoryBuffer_size uniformData
    ∧ (∀ i t, 0 <= i < count → 0 <= t < elementSize →
         byte_at uniformData'
           (offset layoutInfo + (arrayIndex + i) * arrayStride layoutInfo + t)
         = byte_at v (i * elementSize + t))
    ∧ (∀ q, (∀ i, 0 <= i < count →
               q < offset layoutInfo + (arrayIndex + i) * arrayStride layoutInfo
               ∨ offset layoutInfo + (arrayIndex + i) * arrayStride layoutInfo
                 + elementSize <= q) →
         byte_at uniformData' q = byte_at uniformData q).
Proof.
  intros e HT Hcc Ho Hs Hidx Hcount Hmax Hshape Hfit Hsz Hsrc Hvsz.
  set (s := arrayStride layoutInfo) in *. set (o := offset layoutInfo) in *.
  assert (He : 0 < e) by (unfold e; nia).
  assert (He' : e <= count * e) by nia.
  assert (Hlast : 0 <= arrayIndex * s <= (arrayIndex + count - 1) * s) by nia.
  unfold UpdateDefaultUniformBlock. fold s o e.
  rewrite (wrap_int_small e) by lia.
  destruct (Z.eqb_spec s 0) as [Hs0|Hs0]; [|destruct (Z.eqb_spec s e) as [Hse|Hse]]; simpl.
  - (* a variable that is not an array *)
    assert (count = 1) as -> by lia.
    rewrite Hs0, !Z.mul_0_r in *. rewrite Z.mul_1_r, (wrap_int_small e) by lia.
    change (wrap_uint 0) with 0. rewrite Z.add_0_r in *.
    rewrite ASSERT_true by (apply Z.leb_le; lia). simpl.
    destruct (memcpy_Done uniformData o v 0 e) as [data' Hcpy]; try lia.
    destruct (memcpy_inv _ _ _ _ _ _ Hcpy) as (_ & _ & _ & _ & _ & Hsz1 & Hin1 & Hout1).
    exists data'. repeat split; [done|done|..].
    + intros i t Hi Ht. assert (i = 0) as -> by lia.
      trans (byte_at data' (o + t)); [f_equal; lia|].
      rewrite Hin1 by lia. f_equal; lia.
    + intros q Hq. apply Hout1. specialize (Hq 0). lia.
  - (* tightly packed elements: one copy *)
    rewrite <- Hse in *.
    rewrite (wrap_uint_small (arrayIndex * s)), (wrap_int_small (s * count)) by lia.
    rewrite ASSERT_true by (apply Z.leb_le; lia). simpl.
    destruct (memcpy_Done uniformData (o + arrayIndex * s) v 0 (s * count))
      as [data' Hcpy]; try lia.
    destruct (memcpy_inv _ _ _ _ _ _ Hcpy) as (_ & _ & _ & _ & _ & Hsz1 & Hin1 & Hout1).
    exists data'. repeat split; [done|done|..].
    + intros i t Hi Ht. specialize (Hin1 (i * s + t)).
      replace (o + (arrayIndex + i) * s + t) with (o + arrayIndex * s + (i * s + t)) by lia.
      rewrite Hin1 by nia. f_equal; lia.
    + intros q Hq. apply Hout1.
      destruct (Z.lt_ge_cases q (o + arrayIndex * s)) as [|Hlo]; [by left|right].
      destruct (Z.lt_ge_cases q (o + arrayIndex * s + s * count)) as [Hhi|]; [|lia].
      exfalso. set (d := q - (o + arrayIndex * s)) in *.
      pose proof (Z.div_mod d s ltac:(lia)) as Hdm.
      pose proof (Z.mod_pos_bound d s ltac:(lia)) as Hmod.
      assert (0 <= d / s < count) as Hi by (split; [apply Z.div_pos; lia|apply Z.div_lt_upper_bound; lia]).
      specialize (Hq (d / s) Hi). lia.
  - (* padded elements: the loop *)
    rewrite (wrap_int_small arrayIndex), (wrap_int_small (arrayIndex + count)) by lia.
    replace (arrayIndex + count - arrayIndex) with count by lia.
    destruct (UpdateDefaultUniformBlock_loop_spec sizeofT componentCount v layoutInfo
                HT Hcc Ho Hs (Z.to_nat count) arrayIndex 0 uniformData)
      as (data' & Hloop & Hsz1 & Hin1 & Hout1); fold e s o; try lia.
    exists data'. rewrite Z2Nat.id in * by lia. repeat split; [done|done|..].
    + intros i t Hi Ht. etrans; [apply (Hin1 i t); lia|f_equal; lia].
    + intros q Hq. by apply Hout1.
Qed.

(** C3.  A type-matching write of [count] elements at [arrayIndex] into a
    variable with array stride [s] and tight element size [e] succeeds when
    it fits, puts source element [i] exactly at the bytes
    [offset + (arrayIndex + i) * s, offset + (arrayIndex + i) * s + e), and,
    when [s > e], leaves every padding byte
    [offset + k * s + e, offset + (k + 1) * s) of a written index [k] as it
    was.  The stride is at least the element size, or a single element is
    written (a variable that is not an array has stride 0). *)
Theorem UpdateDefaultUniformBlock_places_elements_keeps_padding
    (sizeofT count arrayIndex componentCount : Z)
    (v : list byte) (layoutInfo : BlockMemberInfo) (uniformData : MemoryBuffer) :
  0 < sizeofT → 0 < componentCount →
  0 <= offset layoutInfo → 0 <= arrayStride layoutInfo →
  0 <= arrayIndex → 1 <= count → arrayIndex + count < 2 ^ 31 →
  sizeofT * componentCount <= arrayStride layoutInfo ∨ count <= 1 →
  offset layoutInfo + (arrayIndex + count - 1) * arrayStride layoutInfo
    + sizeofT * componentCount <= MemoryBuffer_size uniformData →
  MemoryBuffer_size uniformData < 2 ^ 31 →
  count * (sizeofT * componentCount) <= MemoryBuffer_size v →
  MemoryBuffer_size v < 2 ^ 31 →
  ∃ uniformData',
    UpdateDefaultUniformBlock sizeofT count arrayIndex componentCount v layoutInfo uniformData
      = Done uniformData'
    ∧ (∀ i, 0 <= i < count →
         mem_read uniformData'
           (offset layoutInfo + (arrayIndex + i) * arrayStride layoutInfo)
           (sizeofT * componentCount)
         = Done (take (Z.to_nat (sizeofT * componentCount))
                   (drop (Z.to_nat (i * (sizeofT * componentCount))) v)))
    ∧ (sizeofT * componentCount < arrayStride layoutInfo →
       ∀ k q, arrayIndex <= k < arrayIndex + count →
         offset layoutInfo + k * arrayStride layoutInfo + sizeofT * componentCount <= q
           < offset layoutInfo + (k + 1) * arrayStride layoutInfo →
         byte_at uniformData' q = byte_at uniformData q).
Proof.
  intros HT Hcc Ho Hs Hidx Hcount Hmax Hshape Hfit Hsz Hsrc Hvsz.
  destruct (UpdateDefaultUniformBlock_spec sizeofT count arrayIndex componentCount v
              layoutInfo uniformData) as (data' & Hrun & Hsz' & Hin & Hout); try done.
  set (e := sizeofT * componentCount) in *.
  set (s := arrayStride layoutInfo) in *. set (o := offset layoutInfo) in *.
  assert (He : 0 < e) by (unfold e; nia).
  exists data'. split; [done|]. split.
  - intros i Hi.
    assert (0 <= i * e ∧ i * e + e <= count * e) as [??] by nia.
    assert (0 <= (arrayIndex + i) * s <= (arrayIndex + count - 1) * s) by nia.
    rewrite <- (mem_read_Done v (i * e) e) by lia.
    apply mem_read_eq; try lia. intros t Ht. by apply Hin.
  - intros Hpad k q Hk Hq. apply Hout. intros i Hi.
    destruct (Z.le_gt_cases (arrayIndex + i) k) as [Hle|Hgt].
    + right. assert ((arrayIndex + i) * s <= k * s) by nia. lia.
    + left. assert ((k + 1) * s <= (arrayIndex + i) * s) by nia. lia.
Qed.

Lemma UpdateDefaultUniformBlock_places_elements_keeps_padding_witness :
  ∃ uniformData',
    UpdateDefaultUniformBlock 4 3 1 4 example_source example_layoutInfo example_uniformData
      = Done uniformData'
    ∧ (∀ i, 0 <= i < 3 →
         mem_read uniformData' (0 + (1 + i) * 32) (4 * 4)
         = Done (take (Z.to_nat (4 * 4)) (drop (Z.to_nat (i * (4 * 4))) example_source)))
    ∧ (4 * 4 < 32 →
       ∀ k q, 1 <= k < 1 + 3 → 0 + k * 32 + 4 * 4 <= q < 0 + (k + 1) * 32 →
         byte_at uniformData' q = byte_at example_uniformData q).
Proof.
  apply (UpdateDefaultUniformBlock_places_elements_keeps_padding
           4 3 1 4 example_source example_layoutInfo example_uniformData);
    try (left; vm_compute; congruence); vm_compute; congruence.
Defined.

(** ** The stage loop *)

Lemma at_index_Done {A} (vec : list A) i a :
  at_index vec i = Done a ↔ 0 <= i ∧ vec !! Z.to_nat i = Some a.
Proof.
  unfold at_index. destruct (Z.leb_spec 0 i); [|split; [done|lia]].
  destruct (vec !! Z.to_nat i); split; intros; simplify_eq; intuition congruence.
Qed.

Lemma ShaderBitSet_iterate_elem (bits : ShaderBitSet) shaderType :
  shaderType ∈ ShaderBitSet_iterate bits ↔ bits shaderType = true.
Proof.
  unfold ShaderBitSet_iterate. rewrite list_elem_of_filter, Is_true_true.
  split; [tauto|]. intros ?. split; [done|].
  unfold kAllShaderTypes. destruct shaderType; repeat constructor.
Qed.

Lemma ShaderBitSet_iterate_NoDup (bits : ShaderBitSet) : NoDup (ShaderBitSet_iterate bits).
Proof.
  apply NoDup_filter. by apply (bool_decide_unpack (NoDup kAllShaderTypes)).
Qed.

Lemma blockData_set (exe : ProgramExecutableVk) st d s :
  blockData (set_dirty (set_uniformData exe st d) st) s
  = if decide (s = st) then d else blockData exe s.
Proof.
  unfold blockData, set_dirty, set_uniformData; simpl.
  case_decide as Hs; [subst; by rewrite fn_lookup_insert|by rewrite fn_lookup_insert_ne].
Qed.

Lemma blockLayout_set (exe : ProgramExecutableVk) st d s :
  blockLayout (set_dirty (set_uniformData exe st d) st) s = blockLayout exe s.
Proof.
  unfold blockLayout, set_dirty, set_uniformData; simpl.
  destruct (decide (s = st)) as [->|Hs];
    [by rewrite fn_lookup_insert|by rewrite fn_lookup_insert_ne].
Qed.

Lemma isDirty_set (exe : ProgramExecutableVk) st d s :
  isDirty (set_dirty (set_uniformData exe st d) st) s
  = if decide (s = st) then true else isDirty exe s.
Proof.
  unfold isDirty, set_dirty, set_uniformData; simpl.
  case_decide as Hs; [subst; by rewrite fn_lookup_insert|by rewrite fn_lookup_insert_ne].
Qed.

Lemma stage_write_inv F location st exe exe' :
  stage_write F location st exe = Done exe' →
  ∃ layoutInfo,
    at_index (blockLayout exe st) location = Done layoutInfo
    ∧ ((offset layoutInfo = -1 ∧ exe' = exe)
       ∨ (offset layoutInfo ≠ -1
          ∧ ∃ d', F layoutInfo (blockData exe st) = Done d'
                  ∧ exe' = set_dirty (set_uniformData exe st d') st)).
Proof.
  unfold stage_write. intros (li & Hli & Hrest)%bind_Done. exists li. split; [done|].
  destruct (Z.eqb_spec (offset li) (-1)) as [Ho|Ho].
  - left. by simplify_eq.
  - right. split; [done|]. apply bind_Done in Hrest as (d' & Hd' & ?). exists d'. by simplify_eq.
Qed.

Lemma for_each_stage_ext {S} (body body' : ShaderType → S → outcome S) stages s :
  (∀ st x, body st x = body' st x) →
  for_each_stage body stages s = for_each_stage body' stages s.
Proof.
  intros Heq. revert s. induction stages as [|st stages IH]; intros s; [done|].
  simpl. rewrite Heq. destruct (body' st s); simpl; auto.
Qed.

(** A reflexive and transitive relation that every turn respects holds
    between the state before the loop and the state after it. *)
Lemma for_each_stage_rel {S} (body : ShaderType → S → outcome S) (R : S → S → Prop)
    stages s s' :
  (∀ x, R x x) → (∀ x y z, R x y → R y z → R x z) →
  (∀ st x y, st ∈ stages → body st x = Done y → R x y) →
  for_each_stage body stages s = Done s' → R s s'.
Proof.
  intros Hrefl Htrans. revert s. induction stages as [|st stages IH]; intros s Hstep Hrun.
  - simpl in Hrun. by simplify_eq.
  - simpl in Hrun. apply bind_Done in Hrun as (s1 & H1 & Hrun).
    eapply Htrans; [eapply Hstep; [left|done]|].
    apply IH; [|done]. intros. eapply Hstep; [by right|done].
Qed.

Lemma write_frame_refl location touched exe : write_frame location touched exe exe.
Proof. unfold write_frame. naive_solver. Qed.

Lemma write_frame_trans location touched exe1 exe2 exe3 :
  write_frame location touched exe1 exe2 → write_frame location touched exe2 exe3 →
  write_frame location touched exe1 exe3.
Proof.
  intros (Hl1 & Hd1 & Hc1 & Hf1) (Hl2 & Hd2 & Hc2 & Hf2).
  split; [|split; [|split]].
  - intros s. by rewrite Hl2.
  - auto.
  - intros s Hne. destruct (decide (blockData exe2 s = blockData exe1 s)) as [Heq|Hne'].
    + apply Hc2. by rewrite Heq.
    + auto.
  - intros s Hs. destruct (Hf1 s Hs) as [<- <-]. apply Hf2. by rewrite Hl1.
Qed.

Lemma stage_write_frame F location (touched : ShaderType → Prop) st exe exe' :
  touched st → stage_write F location st exe = Done exe' →
  write_frame location touched exe exe'.
Proof.
  intros Hst (li & Hli & [[Ho ->]|(Ho & d' & Hd' & ->)])%stage_write_inv;
    [apply write_frame_refl|].
  split; [|split; [|split]].
  - intros s. apply blockLayout_set.
  - intros s. rewrite isDirty_set. by case_decide.
  - intros s. rewrite blockData_set, isDirty_set. by case_decide.
  - intros s Hs. rewrite blockData_set, isDirty_set.
    case_decide; [subst|done]. destruct Hs as [?|(li' & Hli' & ?)]; [done|congruence].
Qed.

Lemma for_each_stage_write_frame F location stages exe exe' :
  for_each_stage (stage_write F location) stages exe = Done exe' →
  write_frame location (λ s, s ∈ stages) exe exe'.
Proof.
  apply for_each_stage_rel.
  - apply write_frame_refl.
  - apply write_frame_trans.
  - intros st x y Hst. by apply stage_write_frame.
Qed.

(** A visited stage whose record is not the sentinel ends up dirty. *)
Lemma for_each_stage_write_dirty F location stages exe exe' st layoutInfo :
  for_each_stage (stage_write F location) stages exe = Done exe' →
  st ∈ stages →
  at_index (blockLayout exe st) location = Done layoutInfo → offset layoutInfo ≠ -1 →
  isDirty exe' st = true.
Proof.
  revert exe. induction stages as [|a stages IH]; intros exe Hrun Hst Hli Ho;
    [by apply elem_of_nil in Hst|].
  simpl in Hrun. apply bind_Done in Hrun as (exe1 & H1 & Hrun).
  pose proof (for_each_stage_write_frame _ _ _ _ _ Hrun) as (_ & Hkeep & _).
  destruct (decide (st = a)) as [->|Hne].
  - apply Hkeep. apply stage_write_inv in H1 as (li & Hli' & [[Ho' ->]|(_ & d' & _ & ->)]).
    + congruence.
    + rewrite isDirty_set. by case_decide.
  - apply elem_of_cons in Hst as [?|Hst]; [done|]. apply (IH exe1); [done..| |done].
    pose proof (stage_write_frame F location (λ _, True) a exe exe1 I H1) as (Hl & _).
    by rewrite Hl.
Qed.

(** With every stage visited once, the loop succeeds as soon as each
    turn does on the block it finds, and each visited block is the result
    of its own turn. *)
Lemma for_each_stage_write_Done F location stages exe :
  NoDup stages →
  (∀ s, s ∈ stages →
     ∃ layoutInfo, at_index (blockLayout exe s) location = Done layoutInfo
       ∧ (offset layoutInfo = -1 ∨ ∃ d', F layoutInfo (blockData exe s) = Done d')) →
  ∃ exe',
    for_each_stage (stage_write F location) stages exe = Done exe'
    ∧ (∀ s layoutInfo, s ∈ stages →
         at_index (blockLayout exe s) location = Done layoutInfo →
         offset layoutInfo ≠ -1 →
         F layoutInfo (blockData exe s) = Done (blockData exe' s)).
Proof.
  revert exe. induction stages as [|a stages IH]; intros exe Hnd Hok.
  { exists exe. split; [done|]. intros s li Hs. by apply elem_of_nil in Hs. }
  apply NoDup_cons in Hnd as [Ha Hnd].
  destruct (Hok a) as (lia & Hlia & Hrun_a); [by left|].
  assert (∃ exe1, stage_write F location a exe = Done exe1) as [exe1 H1].
  { unfold stage_write. rewrite Hlia. simpl.
    destruct (Z.eqb_spec (offset lia) (-1)); [eauto|].
    destruct Hrun_a as [?|[d' ->]]; [done|]. simpl. eauto. }
  pose proof (stage_write_frame F location (λ s, s = a) a exe exe1 eq_refl H1)
    as (Hl1 & _ & _ & Hf1).
  destruct (IH exe1 Hnd) as (exe' & Hrun & Hres).
  { intros s Hs. destruct (Hok s) as (li & Hli & Hrun_s); [by right|].
    exists li. rewrite Hl1. split; [done|].
    destruct (Hf1 s) as [-> _]; [left; by intros ->|done]. }
  exists exe'. simpl. rewrite H1. simpl. split; [done|].
  intros s li Hs Hli Ho.
  pose proof (for_each_stage_write_frame _ _ _ _ _ Hrun) as (_ & _ & _ & Hf).
  apply elem_of_cons in Hs as [->|Hs].
  - destruct (Hf a) as [-> _]; [by left|].
    apply stage_write_inv in H1 as (li' & Hli' & [[Ho' ->]|(_ & d' & Hd' & ->)]).
    + congruence.
    + rewrite blockData_set. case_decide; [|done]. congruence.
  - rewrite <- (Hres s li Hs); [|by rewrite Hl1|done].
    destruct (Hf1 s) as [-> _]; [left; by intros ->|done].
Qed.

(** The three stage loops have the shape of [stage_write]. *)
Lemma setUniformImpl_same_type_shape T location count v locationInfo linkedUniform st exe :
  setUniformImpl_same_type T location count v locationInfo linkedUniform st exe
  = stage_write
      (UpdateDefaultUniformBlock (sizeof T) count (arrayIndex locationInfo)
         (componentCount (typeInfo linkedUniform)) (encode_array v))
      location st exe.
Proof. reflexivity. Qed.

Lemma setUniformImpl_bool_shape T location count v entryPointType locationInfo
    linkedUniform st exe :
  setUniformImpl_bool T location count v entryPointType locationInfo linkedUniform st exe
  = stage_write (bool_write T count v entryPointType locationInfo linkedUniform)
      location st exe.
Proof.
  unfold setUniformImpl_bool, stage_write, bool_write, blockLayout, blockData.
  destruct (at_index _ location) as [li| |]; simpl; [|done..].
  destruct (offset li =? -1); [done|].
  by destruct (ASSERT _).
Qed.

Lemma setUniformMatrixfv_stage_shape Run cols rows location count transpose value
    locationInfo linkedUniform st exe :
  setUniformMatrixfv_stage Run cols rows location count transpose value
    locationInfo linkedUniform st exe
  = stage_write
      (λ layoutInfo data,
         Run cols rows (arrayIndex locationInfo) (getArraySizeProduct linkedUniform)
           count transpose value data (offset layoutInfo))
      location st exe.
Proof. reflexivity. Qed.

(** ** Object representations *)

Lemma encode_length x : length (encode x) = 4%nat.
Proof. apply length_le_split. Qed.

Lemma encode_array_length v : length (encode_array v) = (4 * length v)%nat.
Proof.
  unfold encode_array. induction v as [|x v IH]; [done|].
  rewrite bind_cons, length_app, encode_length, IH. cbn [length]. lia.
Qed.

Lemma encode_array_size v :
  MemoryBuffer_size (encode_array v) = 4 * Z.of_nat (length v).
Proof. unfold MemoryBuffer_size. rewrite encode_array_length. lia. Qed.

Lemma decode_encode T x : in_range T x → decode T (encode x) = x.
Proof.
  intros Hx. unfold decode, encode. rewrite le_combine_split.
  change (2 ^ (Z.of_nat 4 * 8)) with (2 ^ 32).
  destruct T; simpl in Hx; try (apply Z.mod_small; lia).
  unfold wrap_int. destruct (Z.lt_ge_cases x 0).
  - rewrite <- (Z.mod_add x 1 (2 ^ 32)) by lia.
    rewrite (Z.mod_small (x + 1 * 2 ^ 32)) by lia.
    rewrite <- (Z.mod_add _ (-1) (2 ^ 32)) by lia. rewrite Z.mod_small; lia.
  - rewrite (Z.mod_small x) by lia. rewrite Z.mod_small; lia.
Qed.

Lemma decode_array_encode_array T v rest :
  Forall (in_range T) v →
  decode_array T (length v) (encode_array v ++ rest) = v.
Proof.
  induction 1 as [|x v Hx Hv IH]; [done|].
  unfold encode_array. rewrite bind_cons. fold (encode_array v).
  cbn [length decode_array]. rewrite <- app_assoc.
  rewrite take_app_length' by (by rewrite encode_length).
  rewrite drop_app_length' by (by rewrite encode_length).
  by rewrite decode_encode, IH.
Qed.

(** A write elsewhere does not change what a read gives. *)
Lemma mem_read_frame (m : MemoryBuffer) q bs m' p n :
  mem_write m q bs = Done m' → p + n <= q ∨ q + MemoryBuffer_size bs <= p →
  mem_read m' p n = mem_read m p n.
Proof.
  intros Hw Hdisj. pose proof (mem_write_size _ _ _ _ Hw) as Hsz.
  unfold mem_read at 1 2. rewrite Hsz.
  destruct ((0 <=? p) && (0 <=? n) && (p + n <=? MemoryBuffer_size m)) eqn:Hok; [|done].
  apply andb_prop in Hok as [[Hp%Z.leb_le Hn%Z.leb_le]%andb_prop Hfit%Z.leb_le].
  rewrite <- !mem_read_Done by lia. apply mem_read_eq; try lia.
  intros t Ht. apply (mem_write_byte_at_out _ _ _ _ _ Hw). lia.
Qed.

(** ** ReadFromDefaultUniformBlock *)

Lemma memcpy_front_inv (dst : MemoryBuffer) (src : MemoryBuffer) srcp n dst' :
  memcpy dst 0 src srcp n = Done dst' →
  ∃ bs, mem_read src srcp n = Done bs
        ∧ dst' = bs ++ drop (Z.to_nat n) dst ∧ n <= MemoryBuffer_size dst.
Proof.
  unfold memcpy. intros (bs & Hr & Hw)%bind_Done. exists bs.
  pose proof (mem_read_size _ _ _ _ Hr) as Hsz.
  apply mem_write_inv in Hw as (_ & Hfit & ->).
  unfold MemoryBuffer_size in *. change (Z.to_nat 0) with 0%nat. simpl.
  repeat split; [done| |lia]. repeat f_equal. lia.
Qed.

Lemma ReadFromDefaultUniformBlock_memcpy
    (sizeofT componentCount arrayIndex : Z) (dst : list byte)
    (layoutInfo : BlockMemberInfo) (uniformData : MemoryBuffer) :
  offset layoutInfo ≠ -1 →
  0 <= arrayIndex * arrayStride layoutInfo < 2 ^ 31 →
  let elementSize := wrap_int (sizeofT * componentCount) in
  let readPtr := offset layoutInfo + arrayIndex * arrayStride layoutInfo in
  ReadFromDefaultUniformBlock_packed elementSize arrayIndex dst layoutInfo uniformData
  = memcpy dst 0 uniformData readPtr elementSize
  ∧ ReadFromDefaultUniformBlock_strided elementSize arrayIndex dst layoutInfo uniformData
    = memcpy dst 0 uniformData readPtr elementSize
  ∧ ReadFromDefaultUniformBlock sizeofT componentCount arrayIndex dst layoutInfo uniformData
    = memcpy dst 0 uniformData readPtr elementSize.
Proof.
  intros Ho Hprod e readPtr.
  assert (Hp : ReadFromDefaultUniformBlock_packed e arrayIndex dst layoutInfo uniformData
               = memcpy dst 0 uniformData readPtr e).
  { unfold ReadFromDefaultUniformBlock_packed. by rewrite wrap_uint_small by lia. }
  assert (Hs : ReadFromDefaultUniformBlock_strided e arrayIndex dst layoutInfo uniformData
               = memcpy dst 0 uniformData readPtr e).
  { unfold ReadFromDefaultUniformBlock_strided. by rewrite wrap_int_small by lia. }
  split; [done|]. split; [done|].
  unfold ReadFromDefaultUniformBlock. fold e.
  rewrite ASSERT_true by (apply negb_true_iff, Z.eqb_neq; done). simpl.
  rewrite Hp, Hs. by destruct (_ || _).
Qed.

(** C10.  With an offset other than [-1] and an element offset
    [arrayIndex * arrayStride] that an [int] holds, both arms of
    [ReadFromDefaultUniformBlock] are the same copy of [elementSize] bytes
    from [offset + arrayIndex * arrayStride] to the front of the
    destination; the call is that copy, it succeeds whenever source range and
    destination are large enough, and the destination keeps everything after
    its first [elementSize] bytes. *)
Theorem ReadFromDefaultUniformBlock_arms_agree
    (sizeofT componentCount arrayIndex : Z) (dst : list byte)
    (layoutInfo : BlockMemberInfo) (uniformData : MemoryBuffer) :
  offset layoutInfo ≠ -1 →
  0 <= arrayIndex * arrayStride layoutInfo < 2 ^ 31 →
  let elementSize := wrap_int (sizeofT * componentCount) in
  let readPtr := offset layoutInfo + arrayIndex * arrayStride layoutInfo in
  ReadFromDefaultUniformBlock_packed elementSize arrayIndex dst layoutInfo uniformData
  = ReadFromDefaultUniformBlock_strided elementSize arrayIndex dst layoutInfo uniformData
  ∧ ReadFromDefaultUniformBlock sizeofT componentCount arrayIndex dst layoutInfo uniformData
    = memcpy dst 0 uniformData readPtr elementSize
  ∧ (0 <= readPtr → 0 <= elementSize <= MemoryBuffer_size dst →
     readPtr + elementSize <= MemoryBuffer_size uniformData →
     ReadFromDefaultUniformBlock sizeofT componentCount arrayIndex dst layoutInfo uniformData
     = Done (take (Z.to_nat elementSize) (drop (Z.to_nat readPtr) uniformData)
             ++ drop (Z.to_nat elementSize) dst))
  ∧ (∀ dst',
       ReadFromDefaultUniformBlock sizeofT componentCount arrayIndex dst layoutInfo uniformData
       = Done dst' →
       mem_read uniformData readPtr elementSize = Done (take (Z.to_nat elementSize) dst')
       ∧ drop (Z.to_nat elementSize) dst' = drop (Z.to_nat elementSize) dst
       ∧ length dst' = length dst).
Proof.
  intros Ho Hprod e readPtr.
  destruct (ReadFromDefaultUniformBlock_memcpy sizeofT componentCount arrayIndex dst
              layoutInfo uniformData Ho Hprod) as (Hp & Hs & Hr).
  fold e readPtr in Hp, Hs, Hr.
  split; [congruence|]. split; [done|]. split.
  - intros ???. rewrite Hr. apply memcpy_front; [|lia]. apply mem_read_Done; lia.
  - intros dst'. rewrite Hr. intros (bs & Hbs & -> & Hfit)%memcpy_front_inv.
    pose proof (mem_read_size _ _ _ _ Hbs) as Hsz.
    destruct (mem_read_inv _ _ _ _ Hbs) as (_ & He & _).
    unfold MemoryBuffer_size in *.
    rewrite take_app_length' by lia. rewrite drop_app_length' by lia.
    split; [done|]. split; [done|]. rewrite length_app, length_drop. lia.
Qed.

Lemma ReadFromDefaultUniformBlock_arms_agree_witness :
  ReadFromDefaultUniformBlock 4 4 2 (replicate 20 Init.Byte.x00) example_layoutInfo
    (byte.of_Z <$> seqZ 0 160)
  = Done ((byte.of_Z <$> seqZ 64 16) ++ replicate 4 Init.Byte.x00).
Proof.
  destruct (ReadFromDefaultUniformBlock_arms_agree 4 4 2 (replicate 20 Init.Byte.x00)
              example_layoutInfo (byte.of_Z <$> seqZ 0 160))
    as (_ & _ & Hdone & _).
  - vm_compute. congruence.
  - vm_compute. split; congruence.
  - rewrite Hdone.
    + reflexivity.
    + vm_compute. congruence.
    + vm_compute. split; congruence.
    + vm_compute. congruence.
Defined.

(** ** The boolean arm of setUniformImpl *)

Lemma mem_read_agree (a b : MemoryBuffer) p n :
  MemoryBuffer_size a = MemoryBuffer_size b →
  (∀ t, 0 <= t < n → byte_at a (p + t) = byte_at b (p + t)) →
  mem_read a p n = mem_read b p n.
Proof.
  intros Hsz Hbytes. unfold mem_read at 1 2. rewrite Hsz.
  destruct ((0 <=? p) && (0 <=? n) && (p + n <=? MemoryBuffer_size b)) eqn:Hok; [|done].
  apply andb_prop in Hok as [[Hp%Z.leb_le Hn%Z.leb_le]%andb_prop Hfit%Z.leb_le].
  rewrite <- !mem_read_Done by lia. apply mem_read_eq; done || lia.
Qed.

Lemma encode_size x : MemoryBuffer_size (encode x) = 4.
Proof. unfold MemoryBuffer_size. by rewrite encode_length. Qed.

Lemma setUniformImpl_bool_components_spec T (fuel : nat) :
  ∀ (c dst source : Z) (v : list Z) (data : MemoryBuffer),
  0 <= c → 0 <= source → source + c + Z.of_nat fuel <= Z.of_nat (length v) →
  0 <= dst → dst + 4 * (c + Z.of_nat fuel) <= MemoryBuffer_size data →
  ∃ data',
    setUniformImpl_bool_components T fuel c dst source v data = Done data'
    ∧ MemoryBuffer_size data' = MemoryBuffer_size data
    ∧ (∀ k x, c <= k < c + Z.of_nat fuel → v !! Z.to_nat (source + k) = Some x →
         mem_read data' (dst + 4 * k) 4 = Done (encode (bool_sentinel T x)))
    ∧ (∀ q, q < dst + 4 * c ∨ dst + 4 * (c + Z.of_nat fuel) <= q →
         byte_at data' q = byte_at data q).
Proof.
  induction fuel as [|fuel IH]; intros c dst source v data Hc Hsrc Hv Hdst Hfit.
  { exists data. repeat split. intros; lia. }
  cbn [setUniformImpl_bool_components].
  destruct (lookup_lt_is_Some_2 v (Z.to_nat (source + c))) as [x Hx]; [lia|].
  assert (at_index v (source + c) = Done x) as -> by (apply at_index_Done; split; [lia|done]).
  simpl.
  pose proof (encode_size (bool_sentinel T x)) as Hesz.
  destruct (mem_write data (dst + 4 * c) (encode (bool_sentinel T x))) as [data1| |] eqn:Hw;
    [|rewrite mem_write_Done in Hw by lia; done..].
  simpl. pose proof (mem_write_size _ _ _ _ Hw) as Hsz1.
  destruct (IH (c + 1) dst source v data1) as (data2 & Hrun & Hsz2 & Hin2 & Hout2); try lia.
  exists data2. split; [done|]. split; [lia|]. split.
  - intros k y Hk Hy. destruct (decide (k = c)) as [->|Hne].
    + rewrite (mem_read_agree data2 data1) by (try lia; intros; apply Hout2; lia).
      rewrite <- Hesz. replace y with x by congruence. by apply (mem_write_read_back _ _ _ _ Hw).
    + apply Hin2; [lia|done].
  - intros q Hq. rewrite Hout2 by lia. apply (mem_write_byte_at_out _ _ _ _ _ Hw). lia.
Qed.

Lemma setUniformImpl_bool_elements_spec T (fuel : nat) :
  ∀ (i componentCount initialArrayOffset : Z) (layoutInfo : BlockMemberInfo)
    (v : list Z) (data : MemoryBuffer),
  0 <= i → 0 < componentCount → 0 <= initialArrayOffset → 0 <= arrayStride layoutInfo →
  4 * componentCount <= arrayStride layoutInfo ∨ (fuel ≤ 1)%nat →
  (fuel ≠ 0)%nat →
  initialArrayOffset + (i + Z.of_nat fuel - 1) * arrayStride layoutInfo + 4 * componentCount
    <= MemoryBuffer_size data →
  MemoryBuffer_size data < 2 ^ 31 →
  (i + Z.of_nat fuel) * componentCount <= Z.of_nat (length v) →
  Z.of_nat (length v) < 2 ^ 31 →
  ∃ data',
    setUniformImpl_bool_elements T fuel i componentCount initialArrayOffset layoutInfo v data
      = Done data'
    ∧ MemoryBuffer_size data' = MemoryBuffer_size data
    ∧ (∀ j k x, 0 <= j < Z.of_nat fuel → 0 <= k < componentCount →
         v !! Z.to_nat ((i + j) * componentCount + k) = Some x →
         mem_read data' (initialArrayOffset + (i + j) * arrayStride layoutInfo + 4 * k) 4
         = Done (encode (bool_sentinel T x)))
    ∧ (∀ q, (∀ j, 0 <= j < Z.of_nat fuel →
               q < initialArrayOffset + (i + j) * arrayStride layoutInfo
               ∨ initialArrayOffset + (i + j) * arrayStride layoutInfo
                 + 4 * componentCount <= q) →
         byte_at data' q = byte_at data q).
Proof.
  induction fuel as [|fuel IH]; [done|].
  intros i cc base li v data Hi Hcc Hbase Hs Hshape _ Hfit Hsz Hsrc Hvsz.
  set (s := arrayStride li) in *.
  assert (His : 0 <= i * s <= (i + Z.of_nat (S fuel) - 1) * s) by nia.
  assert (Hic : 0 <= i * cc ∧ i * cc + cc <= (i + Z.of_nat (S fuel)) * cc) by nia.
  cbn [setUniformImpl_bool_elements]. fold s.
  rewrite (wrap_int_small (i * s + base)), (wrap_int_small (i * cc)) by lia.
  destruct (setUniformImpl_bool_components_spec T (Z.to_nat cc) 0 (i * s + base) (i * cc) v data)
    as (data1 & Hrun1 & Hsz1 & Hin1 & Hout1); try lia.
  rewrite Hrun1. simpl. rewrite Z2Nat.id in * by lia.
  destruct fuel as [|fuel'].
  { exists data1. split; [done|]. split; [done|]. split.
    - intros j k x Hj Hk Hx. assert (j = 0) as -> by lia. rewrite Z.add_0_r in *.
      replace (base + i * s + 4 * k) with (i * s + base + 4 * k) by lia.
      apply Hin1; [lia|done].
    - intros q Hq. apply Hout1. specialize (Hq 0). rewrite Z.add_0_r in Hq. lia. }
  destruct Hshape as [Hshape|Hshape]; [|lia].
  destruct (IH (i + 1) cc base li v data1) as (data2 & Hrun2 & Hsz2 & Hin2 & Hout2).
  all: try lia.
  all: try (by left).
  exists data2. split; [done|]. split; [lia|]. split.
  - intros j k x Hj Hk Hx. destruct (decide (j = 0)) as [->|Hj0].
    + rewrite Z.add_0_r in *.
      rewrite (mem_read_agree data2 data1).
      * replace (base + i * s + 4 * k) with (i * s + base + 4 * k) by lia.
        apply Hin1; [lia|done].
      * lia.
      * intros t Ht. apply Hout2. intros j' Hj'. left.
        assert (s <= (1 + j') * s) by nia. fold s. lia.
    + replace (i + j) with (i + 1 + (j - 1)) in * by lia.
      apply Hin2; [lia|lia|done].
  - intros q Hq. rewrite Hout2.
    + apply Hout1. specialize (Hq 0). rewrite Z.add_0_r in Hq. lia.
    + intros j Hj. specialize (Hq (j + 1)).
      replace (i + (j + 1)) with (i + 1 + j) in Hq by lia. apply Hq. lia.
Qed.

Lemma bool_write_spec T count v entryPointType locationInfo linkedUniform layoutInfo
    (data : MemoryBuffer) :
  let cc := componentCount (typeInfo linkedUniform) in
  typeInfo_type (typeInfo linkedUniform) = VariableBoolVectorType entryPointType →
  0 <= arrayIndex locationInfo → 0 < cc → 1 <= count →
  fits layoutInfo data (arrayIndex locationInfo) count (4 * cc) →
  count * cc <= Z.of_nat (length v) → Z.of_nat (length v) < 2 ^ 31 →
  ∃ data',
    bool_write T count v entryPointType locationInfo linkedUniform layoutInfo data = Done data'
    ∧ MemoryBuffer_size data' = MemoryBuffer_size data
    ∧ (∀ i k x, 0 <= i < count → 0 <= k < cc →
         v !! Z.to_nat (i * cc + k) = Some x →
         mem_read data'
           (offset layoutInfo + (arrayIndex locationInfo + i) * arrayStride layoutInfo + 4 * k) 4
         = Done (encode (bool_sentinel T x)))
    ∧ (∀ q, (∀ i, 0 <= i < count →
               q < offset layoutInfo + (arrayIndex locationInfo + i) * arrayStride layoutInfo
               ∨ offset layoutInfo + (arrayIndex locationInfo + i) * arrayStride layoutInfo
                 + 4 * cc <= q) →
         byte_at data' q = byte_at data q).
Proof.
  intros cc Hty Hidx Hcc Hcount (Ho & Hs & Hshape & Hfit & Hsz) Hsrc Hvsz.
  set (s := arrayStride layoutInfo) in *. set (o := offset layoutInfo) in *.
  set (idx := arrayIndex locationInfo) in *.
  assert (0 <= idx * s <= (idx + count - 1) * s) by nia.
  unfold bool_write. fold cc s o idx.
  rewrite ASSERT_true by (by apply Z.eqb_eq). simpl.
  rewrite (wrap_int_small (idx * s + o)) by lia.
  destruct (setUniformImpl_bool_elements_spec T (Z.to_nat count) 0 cc (idx * s + o)
              layoutInfo v data) as (data' & Hrun & Hsz' & Hin & Hout); fold s; try lia.
  rewrite Z2Nat.id in * by lia.
  exists data'. split; [done|]. split; [done|]. split.
  - intros i k x Hi Hk Hx.
    replace (o + (idx + i) * s + 4 * k) with (idx * s + o + (0 + i) * s + 4 * k) by lia.
    apply Hin; try done; by rewrite Z.add_0_l.
  - intros q Hq. apply Hout. intros j Hj. specialize (Hq j Hj). lia.
Qed.

(** ** The setters and the getter on a linked program *)

Lemma write_ready_stages F p location count locationInfo linkedUniform :
  write_ready p location count locationInfo linkedUniform →
  (∀ s layoutInfo,
     getLinkedShaderStages (mState p) s = true →
     at_index (blockLayout (mExecutable p) s) location = Done layoutInfo →
     fits layoutInfo (blockData (mExecutable p) s) (arrayIndex locationInfo) count
       (4 * componentCount (typeInfo linkedUniform)) →
     ∃ d', F layoutInfo (blockData (mExecutable p) s) = Done d') →
  ∃ exe',
    for_each_stage (stage_write F location)
      (ShaderBitSet_iterate (getLinkedShaderStages (mState p))) (mExecutable p) = Done exe'
    ∧ write_frame location (λ s, getLinkedShaderStages (mState p) s = true)
        (mExecutable p) exe'
    ∧ (∀ s layoutInfo, getLinkedShaderStages (mState p) s = true →
         at_index (blockLayout (mExecutable p) s) location = Done layoutInfo →
         offset layoutInfo ≠ -1 →
         F layoutInfo (blockData (mExecutable p) s) = Done (blockData exe' s)
         ∧ isDirty exe' s = true).
Proof.
  intros (_ & _ & _ & _ & _ & _ & Hstages) HF.
  destruct (for_each_stage_write_Done F location
              (ShaderBitSet_iterate (getLinkedShaderStages (mState p))) (mExecutable p))
    as (exe' & Hrun & Hres).
  { apply ShaderBitSet_iterate_NoDup. }
  { intros s Hs%ShaderBitSet_iterate_elem. destruct (Hstages s Hs) as (li & Hli & [?|Hfits]).
    - exists li. auto.
    - exists li. split; [done|]. right. by eapply HF. }
  exists exe'. split; [done|]. split.
  - pose proof (for_each_stage_write_frame _ _ _ _ _ Hrun) as (H1 & H2 & H3 & H4).
    split; [done|]. split; [done|]. split; [done|].
    intros s Hs. apply H4. destruct Hs as [Hs|Hs]; [left|by right].
    by rewrite ShaderBitSet_iterate_elem.
  - intros s li Hs Hli Ho. split.
    + apply Hres; [by apply ShaderBitSet_iterate_elem|done..].
    + eapply for_each_stage_write_dirty; [exact Hrun|by apply ShaderBitSet_iterate_elem|done..].
Qed.

Lemma setUniformImpl_unfold T p location count v entryPointType locationInfo linkedUniform :
  at_index (getUniformLocations (mState p)) location = Done locationInfo →
  at_index (getUniforms (mState p)) (index locationInfo) = Done linkedUniform →
  isSampler linkedUniform = false →
  setUniformImpl T p location count v entryPointType
  = (exe' ← for_each_stage
             (stage_write
                (setUniformImpl_write T count v entryPointType locationInfo linkedUniform)
                location)
             (ShaderBitSet_iterate (getLinkedShaderStages (mState p))) (mExecutable p);
     Done {| mState := mState p; mExecutable := exe' |}).
Proof.
  intros Hloc Hu Hs. unfold setUniformImpl, setUniformImpl_write.
  rewrite Hloc. simpl. rewrite Hu. simpl. rewrite Hs. simpl.
  destruct (typeInfo_type (typeInfo linkedUniform) =? entryPointType).
  - erewrite for_each_stage_ext; [done|]. intros. apply setUniformImpl_same_type_shape.
  - erewrite for_each_stage_ext; [done|]. intros. apply setUniformImpl_bool_shape.
Qed.

Lemma setUniformMatrixfv_unfold Run cols rows p location count transpose value
    locationInfo linkedUniform :
  at_index (getUniformLocations (mState p)) location = Done locationInfo →
  at_index (getUniforms (mState p)) (index locationInfo) = Done linkedUniform →
  setUniformMatrixfv Run cols rows p location count transpose value
  = (exe' ← for_each_stage
             (stage_write
                (λ layoutInfo data,
                   Run cols rows (arrayIndex locationInfo)
                     (getArraySizeProduct linkedUniform) count transpose value data
                     (offset layoutInfo))
                location)
             (ShaderBitSet_iterate (getLinkedShaderStages (mState p))) (mExecutable p);
     Done {| mState := mState p; mExecutable := exe' |}).
Proof.
  intros Hloc Hu. unfold setUniformMatrixfv. rewrite Hloc. simpl. by rewrite Hu.
Qed.

Lemma getUniformImpl_unfold Get T p location v entryPointType locationInfo linkedUniform
    shaderType layoutInfo :
  at_index (getUniformLocations (mState p)) location = Done locationInfo →
  at_index (getUniforms (mState p)) (index locationInfo) = Done linkedUniform →
  isSampler linkedUniform = false → isImage linkedUniform = false →
  getFirstShaderTypeWhereActive linkedUniform = Some shaderType →
  at_index (blockLayout (mExecutable p) shaderType) location = Done layoutInfo →
  componentType (typeInfo linkedUniform) = entryPointType
  ∨ componentType (typeInfo linkedUniform) = VariableBoolVectorType entryPointType →
  getUniformImpl Get T p location v entryPointType
  = if IsMatrixType (type linkedUniform) then
      Get T (type linkedUniform) v (blockData (mExecutable p) shaderType)
        (offset layoutInfo + wrap_uint (arrayIndex locationInfo * arrayStride layoutInfo))
        false
    else
      ReadFromDefaultUniformBlock (sizeof T) (componentCount (typeInfo linkedUniform))
        (arrayIndex locationInfo) v layoutInfo (blockData (mExecutable p) shaderType).
Proof.
  intros Hloc Hu Hs Hi Hst Hli Hty. unfold getUniformImpl.
  rewrite Hloc. simpl. rewrite Hu. simpl. rewrite Hs, Hi, Hst. simpl.
  unfold blockLayout in Hli. rewrite Hli. simpl.
  rewrite ASSERT_true; [done|].
  apply orb_true_iff. destruct Hty; [left|right]; by apply Z.eqb_eq.
Qed.

Lemma mem_read_app (m : MemoryBuffer) p a b xs ys :
  mem_read m p a = Done xs → mem_read m (p + a) b = Done ys →
  mem_read m p (a + b) = Done (xs ++ ys).
Proof.
  intros (Hp & Ha & Hfa & ->)%mem_read_inv (_ & Hb & Hfb & ->)%mem_read_inv.
  rewrite mem_read_Done by lia. f_equal.
  rewrite Z2Nat.inj_add by lia. rewrite <- take_take_drop.
  f_equal. rewrite drop_drop. do 2 f_equal. lia.
Qed.

(** Consecutive 4-byte values read as one array. *)
Lemma mem_read_chunks (m : MemoryBuffer) (ys : list Z) :
  ∀ p, 0 <= p → p + 4 * Z.of_nat (length ys) <= MemoryBuffer_size m →
  (∀ k y, ys !! k = Some y → mem_read m (p + 4 * Z.of_nat k) 4 = Done (encode y)) →
  mem_read m p (4 * Z.of_nat (length ys)) = Done (encode_array ys).
Proof.
  induction ys as [|y ys IH]; intros p Hp Hfit Hchunks.
  { simpl. by rewrite mem_read_Done by lia. }
  cbn [length] in *. replace (4 * Z.of_nat (S (length ys))) with (4 + 4 * Z.of_nat (length ys)) by lia.
  unfold encode_array. rewrite bind_cons. fold (encode_array ys).
  apply mem_read_app.
  - specialize (Hchunks 0%nat y eq_refl). by rewrite Z.mul_0_r, Z.add_0_r in Hchunks.
  - apply IH; [lia..|]. intros k z Hk. specialize (Hchunks (S k) z Hk).
    rewrite <- Hchunks. f_equal. lia.
Qed.

Lemma encode_array_read (v : list Z) (j : nat) x :
  v !! j = Some x → mem_read (encode_array v) (4 * Z.of_nat j) 4 = Done (encode x).
Proof.
  revert j. induction v as [|y v IH]; intros j Hj; [done|].
  unfold encode_array. rewrite bind_cons. fold (encode_array v).
  pose proof (encode_length y) as Hy. pose proof (encode_array_length v) as Hv.
  pose proof (lookup_lt_Some _ _ _ Hj) as Hlt. cbn [length] in Hlt.
  rewrite mem_read_Done by (unfold MemoryBuffer_size; rewrite ?length_app; lia).
  f_equal. destruct j as [|j].
  - simpl in Hj. simplify_eq. change (Z.to_nat (4 * Z.of_nat 0)) with 0%nat.
    rewrite drop_0. by rewrite take_app_length' by (by rewrite encode_length).
  - simpl in Hj. rewrite drop_app_ge by lia.
    specialize (IH j Hj). rewrite mem_read_Done in IH
      by (unfold MemoryBuffer_size; lia).
    injection IH as <-. do 2 f_equal. lia.
Qed.

Lemma setUniformImpl_write_spec T count v entryPointType locationInfo linkedUniform
    layoutInfo (data : MemoryBuffer) :
  let cc := componentCount (typeInfo linkedUniform) in
  typeInfo_type (typeInfo linkedUniform) = entryPointType
  ∨ typeInfo_type (typeInfo linkedUniform) = VariableBoolVectorType entryPointType →
  0 <= arrayIndex locationInfo → 0 < cc → 1 <= count →
  arrayIndex locationInfo + count < 2 ^ 31 →
  fits layoutInfo data (arrayIndex locationInfo) count (4 * cc) →
  count * cc <= Z.of_nat (length v) → 4 * Z.of_nat (length v) < 2 ^ 31 →
  ∃ data',
    setUniformImpl_write T count v entryPointType locationInfo linkedUniform layoutInfo data
      = Done data'
    ∧ MemoryBuffer_size data' = MemoryBuffer_size data
    ∧ (∀ i k x, 0 <= i < count → 0 <= k < cc →
         v !! Z.to_nat (i * cc + k) = Some x →
         mem_read data'
           (offset layoutInfo + (arrayIndex locationInfo + i) * arrayStride layoutInfo + 4 * k) 4
         = Done (encode (written_value T linkedUniform entryPointType x)))
    ∧ (∀ q, (∀ i, 0 <= i < count →
               q < offset layoutInfo + (arrayIndex locationInfo + i) * arrayStride layoutInfo
               ∨ offset layoutInfo + (arrayIndex locationInfo + i) * arrayStride layoutInfo
                 + 4 * cc <= q) →
         byte_at data' q = byte_at data q).
Proof.
  intros cc Hty Hidx Hcc Hcount Hmax Hfits Hsrc Hvsz.
  unfold setUniformImpl_write, written_value.
  destruct (Z.eqb_spec (typeInfo_type (typeInfo linkedUniform)) entryPointType) as [Heq|Hne].
  - destruct Hfits as (Ho & Hs & Hshape & Hfit & Hsz).
    destruct (UpdateDefaultUniformBlock_spec (sizeof T) count (arrayIndex locationInfo) cc
                (encode_array v) layoutInfo data)
      as (data' & Hrun & Hsz' & Hin & Hout); unfold sizeof; try done;
      try (rewrite encode_array_size; nia).
    exists data'. split; [done|]. split; [done|]. split; [|done].
    intros i k x Hi Hk Hx.
    assert (0 <= i * cc + k < Z.of_nat (length v)) as Hj
      by (apply lookup_lt_Some in Hx; nia).
    assert (0 <= (arrayIndex locationInfo + i) * arrayStride layoutInfo
            <= (arrayIndex locationInfo + count - 1) * arrayStride layoutInfo) by nia.
    rewrite <- (encode_array_read v (Z.to_nat (i * cc + k)) x Hx).
    pose proof (encode_array_size v) as Hvs.
    apply mem_read_eq; try lia.
    intros t Ht. unfold sizeof in Hin.
    replace (offset layoutInfo + (arrayIndex locationInfo + i) * arrayStride layoutInfo
             + 4 * k + t)
      with (offset layoutInfo + (arrayIndex locationInfo + i) * arrayStride layoutInfo
            + (4 * k + t)) by lia.
    rewrite Hin by lia. f_equal. lia.
  - destruct Hty as [?|Hty]; [done|].
    apply bool_write_spec; try done. lia.
Qed.

Lemma setUniformImpl_Done T p location count v entryPointType locationInfo linkedUniform :
  let cc := componentCount (typeInfo linkedUniform) in
  write_ready p location count locationInfo linkedUniform →
  isSampler linkedUniform = false →
  typeInfo_type (typeInfo linkedUniform) = entryPointType
  ∨ typeInfo_type (typeInfo linkedUniform) = VariableBoolVectorType entryPointType →
  count * cc <= Z.of_nat (length v) → 4 * Z.of_nat (length v) < 2 ^ 31 →
  ∃ p',
    setUniformImpl T p location count v entryPointType = Done p'
    ∧ mState p' = mState p
    ∧ write_frame location (λ s, getLinkedShaderStages (mState p) s = true)
        (mExecutable p) (mExecutable p')
    ∧ (∀ s layoutInfo, getLinkedShaderStages (mState p) s = true →
         at_index (blockLayout (mExecutable p) s) location = Done layoutInfo →
         offset layoutInfo ≠ -1 →
         isDirty (mExecutable p') s = true
         ∧ MemoryBuffer_size (blockData (mExecutable p') s)
           = MemoryBuffer_size (blockData (mExecutable p) s)
         ∧ (∀ i k x, 0 <= i < count → 0 <= k < cc →
              v !! Z.to_nat (i * cc + k) = Some x →
              mem_read (blockData (mExecutable p') s)
                (offset layoutInfo
                 + (arrayIndex locationInfo + i) * arrayStride layoutInfo + 4 * k) 4
              = Done (encode (written_value T linkedUniform entryPointType x)))
         ∧ (∀ q, (∀ i, 0 <= i < count →
                    q < offset layoutInfo
                        + (arrayIndex locationInfo + i) * arrayStride layoutInfo
                    ∨ offset layoutInfo
                      + (arrayIndex locationInfo + i) * arrayStride layoutInfo
                      + 4 * cc <= q) →
              byte_at (blockData (mExecutable p') s) q
              = byte_at (blockData (mExecutable p) s) q)).
Proof.
  intros cc Hready Hsampler Hty Hsrc Hvsz.
  pose proof Hready as (Hloc & Hu & Hidx & Hcount & Hmax & Hcc & Hstages).
  rewrite (setUniformImpl_unfold T p location count v entryPointType _ _ Hloc Hu Hsampler).
  destruct (write_ready_stages
              (setUniformImpl_write T count v entryPointType locationInfo linkedUniform)
              p location count locationInfo linkedUniform Hready) as (exe' & Hrun & Hframe & Hres).
  { intros s li Hs Hli Hfits.
    destruct (setUniformImpl_write_spec T count v entryPointType locationInfo linkedUniform
                li (blockData (mExecutable p) s)) as (d' & Hd' & _); eauto. }
  rewrite Hrun. simpl. eexists. split; [done|]. simpl. split; [done|]. split; [done|].
  intros s li Hs Hli Ho. destruct (Hres s li Hs Hli Ho) as [Hw Hd]. split; [done|].
  destruct (Hstages s Hs) as (li' & Hli' & [?|Hfits]); [congruence|].
  replace li' with li in * by congruence.
  destruct (setUniformImpl_write_spec T count v entryPointType locationInfo linkedUniform
              li (blockData (mExecutable p) s)) as (d' & Hd' & Hspec); try done.
  by replace (blockData exe' s) with d' by congruence.
Qed.

Lemma getUniformImpl_elements Get T p location dst entryPointType locationInfo linkedUniform
    shaderType layoutInfo (ys : list Z) :
  let cc := componentCount (typeInfo linkedUniform) in
  let readPtr := offset layoutInfo + arrayIndex locationInfo * arrayStride layoutInfo in
  at_index (getUniformLocations (mState p)) location = Done locationInfo →
  at_index (getUniforms (mState p)) (index locationInfo) = Done linkedUniform →
  isSampler linkedUniform = false → isImage linkedUniform = false →
  getFirstShaderTypeWhereActive linkedUniform = Some shaderType →
  at_index (blockLayout (mExecutable p) shaderType) location = Done layoutInfo →
  componentType (typeInfo linkedUniform) = entryPointType
  ∨ componentType (typeInfo linkedUniform) = VariableBoolVectorType entryPointType →
  IsMatrixType (type linkedUniform) = false →
  offset layoutInfo ≠ -1 → 0 <= offset layoutInfo →
  0 <= arrayIndex locationInfo * arrayStride layoutInfo < 2 ^ 31 →
  Z.of_nat (length ys) = cc → 4 * cc < 2 ^ 31 →
  readPtr + 4 * cc <= MemoryBuffer_size (blockData (mExecutable p) shaderType) →
  (∀ k y, ys !! k = Some y →
     mem_read (blockData (mExecutable p) shaderType) (readPtr + 4 * Z.of_nat k) 4
     = Done (encode y)) →
  4 * cc <= MemoryBuffer_size dst →
  getUniformImpl Get T p location dst entryPointType
  = Done (encode_array ys ++ drop (Z.to_nat (4 * cc)) dst).
Proof.
  intros cc readPtr Hloc Hu Hs Hi Hst Hli Hty Hmat Ho Ho' Hprod Hlen Hcc Hfit Hchunks Hdst.
  rewrite (getUniformImpl_unfold Get T p location dst entryPointType _ _ _ _
             Hloc Hu Hs Hi Hst Hli Hty), Hmat.
  destruct (ReadFromDefaultUniformBlock_memcpy (sizeof T) cc (arrayIndex locationInfo)
              dst layoutInfo (blockData (mExecutable p) shaderType) Ho Hprod)
    as (_ & _ & Hread).
  fold cc. rewrite Hread. unfold sizeof. rewrite wrap_int_small by lia.
  apply memcpy_front; [|done]. rewrite <- Hlen. apply mem_read_chunks; try lia.
  by fold readPtr.
Qed.

Lemma written_value_sentinel T linkedUniform entryPointType x :
  x = GL_FALSE ∨ x = GL_TRUE →
  written_value T linkedUniform entryPointType x = x.
Proof.
  unfold written_value, bool_sentinel. intros [->| ->]; destruct (_ =? _); try done;
    by destruct T.
Qed.

(** What [read_ready] and [write_ready] give for the stage that is read. *)
Lemma read_stage_fits p location count locationInfo linkedUniform shaderType layoutInfo :
  write_ready p location count locationInfo linkedUniform →
  read_ready p location linkedUniform shaderType layoutInfo →
  let cc := componentCount (typeInfo linkedUniform) in
  0 <= offset layoutInfo
  ∧ 0 <= arrayIndex locationInfo * arrayStride layoutInfo < 2 ^ 31
  ∧ 0 < cc ∧ 4 * cc < 2 ^ 31
  ∧ offset layoutInfo + arrayIndex locationInfo * arrayStride layoutInfo + 4 * cc
    <= MemoryBuffer_size (blockData (mExecutable p) shaderType).
Proof.
  intros (_ & _ & Hidx & Hcount & _ & Hcc & Hstages) (_ & Hlinked & Hli & Ho) cc.
  destruct (Hstages _ Hlinked) as (li & Hli' & [?|(Ho' & Hs & _ & Hfit & Hsz)]);
    [congruence|].
  replace li with layoutInfo in * by congruence. fold cc in Hfit, Hcc.
  assert (0 <= arrayIndex locationInfo * arrayStride layoutInfo
          <= (arrayIndex locationInfo + count - 1) * arrayStride layoutInfo) by nia.
  lia.
Qed.

(** Reading back the first element of what [setUniformImpl] wrote. *)
Lemma setUniformImpl_getUniformImpl Get T T' p location count v dst setType getType
    locationInfo linkedUniform shaderType layoutInfo :
  let cc := componentCount (typeInfo linkedUniform) in
  write_ready p location count locationInfo linkedUniform →
  read_ready p location linkedUniform shaderType layoutInfo →
  isSampler linkedUniform = false → isImage linkedUniform = false →
  IsMatrixType (type linkedUniform) = false →
  typeInfo_type (typeInfo linkedUniform) = setType
  ∨ typeInfo_type (typeInfo linkedUniform) = VariableBoolVectorType setType →
  componentType (typeInfo linkedUniform) = getType
  ∨ componentType (typeInfo linkedUniform) = VariableBoolVectorType getType →
  count * cc <= Z.of_nat (length v) → 4 * Z.of_nat (length v) < 2 ^ 31 →
  4 * cc <= MemoryBuffer_size dst →
  ∃ p',
    setUniformImpl T p location count v setType = Done p'
    ∧ getUniformImpl Get T' p' location dst getType
      = Done (encode_array (written_value T linkedUniform setType <$> take (Z.to_nat cc) v)
              ++ drop (Z.to_nat (4 * cc)) dst).
Proof.
  intros cc Hw Hr Hsampler Himage Hmat Hset Hget Hsrc Hvsz Hdst.
  destruct (read_stage_fits _ _ _ _ _ _ _ Hw Hr) as (Ho' & Hprod & Hcc & Hcc' & Hfit).
  fold cc in Hcc, Hcc', Hfit.
  destruct (setUniformImpl_Done T p location count v setType locationInfo linkedUniform)
    as (p' & Hrun & Hstate & (Hlayout & _) & Hres); try done.
  pose proof Hw as (Hloc & Hu & Hidx & Hcount & _).
  pose proof Hr as (Hfirst & Hlinked & Hli & Ho).
  destruct (Hres shaderType layoutInfo Hlinked Hli Ho) as (_ & Hsz & Hchunks & _).
  exists p'. split; [done|].
  apply (getUniformImpl_elements Get T' p' location dst getType locationInfo linkedUniform
           shaderType layoutInfo); try done; try (by rewrite Hstate); try (by rewrite Hlayout).
  - rewrite length_fmap, length_take. fold cc. nia.
  - fold cc. by rewrite Hsz.
  - intros k y Hy. apply list_lookup_fmap_Some in Hy as (x & -> & Hx).
    apply lookup_take_Some in Hx as [Hx Hk].
    specialize (Hchunks 0 (Z.of_nat k) x). rewrite Z.add_0_r in Hchunks.
    apply Hchunks; [lia|fold cc; lia|]. by rewrite Z.mul_0_l, Z.add_0_l, Nat2Z.id.
Qed.

(** *** Matrices, through the helpers as the specification describes them *)

Lemma matrix_dimensions type :
  2 <= matrix_columns type <= 4 ∧ 2 <= matrix_rows type <= 4.
Proof.
  unfold matrix_columns, matrix_rows. repeat case_bool_decide; lia.
Qed.

Lemma byte_at_app_l (a b : MemoryBuffer) q :
  q < MemoryBuffer_size a → byte_at (a ++ b) q = byte_at a q.
Proof.
  unfold byte_at, MemoryBuffer_size. intros Hq.
  destruct (Z.leb_spec 0 q); [|done]. apply lookup_app_l. lia.
Qed.

Lemma byte_at_app_drop (a d : MemoryBuffer) q :
  MemoryBuffer_size a <= q →
  byte_at (a ++ drop (Z.to_nat (MemoryBuffer_size a)) d) q = byte_at d q.
Proof.
  unfold byte_at, MemoryBuffer_size. intros Hq.
  destruct (Z.leb_spec 0 q); [|done].
  rewrite lookup_app_r by lia. rewrite lookup_drop. f_equal. lia.
Qed.

(** What [fuel] turns of the column loop of the un-pack routine do. *)
Lemma GetMatrixUniform_columns_spec (rows : Z) (data : MemoryBuffer) (source : Z)
    (fuel : nat) :
  0 < rows → 0 <= source →
  ∀ (col : Z) (dataOut : list byte),
  0 <= col →
  4 * rows * (col + Z.of_nat fuel) <= MemoryBuffer_size dataOut →
  (∀ c, col <= c < col + Z.of_nat fuel →
     source + 16 * c + 4 * rows <= MemoryBuffer_size data) →
  ∃ out,
    GetMatrixUniform_columns fuel col rows dataOut data source = Done out
    ∧ MemoryBuffer_size out = MemoryBuffer_size dataOut
    ∧ (∀ c t, col <= c < col + Z.of_nat fuel → 0 <= t < 4 * rows →
         byte_at out (4 * rows * c + t) = byte_at data (source + 16 * c + t))
    ∧ (∀ q, q < 4 * rows * col ∨ 4 * rows * (col + Z.of_nat fuel) <= q →
         byte_at out q = byte_at dataOut q).
Proof.
  intros Hrows Hsource. induction fuel as [|fuel IH]; intros col dataOut Hcol Hdst Hsrc.
  { exists dataOut. repeat split; try done. intros c t Hc. lia. }
  cbn [GetMatrixUniform_columns].
  destruct (memcpy_Done dataOut (4 * rows * col) data (source + 16 * col) (4 * rows))
    as [out1 Hcpy]; try nia.
  { specialize (Hsrc col). lia. }
  rewrite Hcpy. simpl.
  destruct (memcpy_inv _ _ _ _ _ _ Hcpy) as (_ & _ & _ & _ & _ & Hsz1 & Hin1 & Hout1).
  destruct (IH (col + 1) out1) as (out & Hrun & Hsz & Hin & Hout); try lia.
  { intros c Hc. apply Hsrc. lia. }
  exists out. split; [done|]. split; [lia|]. split.
  - intros c t Hc Ht. destruct (decide (c = col)) as [->|Hne].
    + rewrite Hout by nia. rewrite Hin1 by lia. done.
    + apply Hin; lia.
  - intros q Hq. rewrite Hout by nia. apply Hout1. nia.
Qed.

(** Un-packing [columns] columns that hold the bytes of [src] gives [src]
    at the front of the destination. *)
Lemma GetMatrixUniform_columns_unpacks (columns rows : Z) (data : MemoryBuffer)
    (source : Z) (src dataOut : list byte) :
  0 < rows → 0 < columns → 0 <= source →
  MemoryBuffer_size src = 4 * rows * columns →
  4 * rows * columns <= MemoryBuffer_size dataOut →
  (∀ c, 0 <= c < columns → source + 16 * c + 4 * rows <= MemoryBuffer_size data) →
  (∀ c t, 0 <= c < columns → 0 <= t < 4 * rows →
     byte_at data (source + 16 * c + t) = byte_at src (c * (4 * rows) + t)) →
  GetMatrixUniform_columns (Z.to_nat columns) 0 rows dataOut data source
  = Done (src ++ drop (Z.to_nat (4 * rows * columns)) dataOut).
Proof.
  intros Hrows Hcolumns Hsource Hsize Hdst Hfit Hdata.
  destruct (GetMatrixUniform_columns_spec rows data source (Z.to_nat columns) Hrows Hsource
              0 dataOut) as (out & Hrun & Hsz & Hin & Hout); try lia.
  { intros c Hc. apply Hfit. lia. }
  rewrite Hrun. f_equal. apply byte_at_ext. intros q.
  destruct (decide (0 <= q < 4 * rows * columns)) as [Hq|Hq].
  - assert (∃ c t, 0 <= c < columns ∧ 0 <= t < 4 * rows ∧ q = 4 * rows * c + t)
      as (c & t & Hc & Ht & ->).
    { exists (q / (4 * rows)), (q mod (4 * rows)).
      pose proof (Z.div_mod q (4 * rows) ltac:(lia)).
      pose proof (Z.mod_pos_bound q (4 * rows) ltac:(lia)).
      assert (0 <= q / (4 * rows)) by (apply Z.div_pos; lia).
      assert (q / (4 * rows) < columns) by (apply Z.div_lt_upper_bound; lia).
      lia. }
    rewrite Hin, Hdata by lia. rewrite byte_at_app_l by lia. f_equal. lia.
  - destruct (decide (q < 0)) as [Hneg|Hpos].
    + rewrite !byte_at_outside; [done|by left..].
    + rewrite Hout by lia. rewrite <- Hsize. by rewrite byte_at_app_drop by lia.
Qed.

(** The write side: the columns of one matrix land in their 16-byte slots. *)
Lemma SetFloatUniformMatrixGLSL_Run_stores_columns (cols rows arrayElementOffset
    elementCount : Z) (value : list Z) (targetData : MemoryBuffer) (target : Z) :
  2 <= cols <= 4 → 2 <= rows <= 4 → 0 <= arrayElementOffset → 0 <= target →
  Z.of_nat (length value) = cols * rows →
  target + 16 * (arrayElementOffset * cols + cols - 1) + 4 * rows
    <= MemoryBuffer_size targetData →
  MemoryBuffer_size targetData < 2 ^ 31 →
  ∃ targetData',
    SetFloatUniformMatrixGLSL_Run cols rows arrayElementOffset elementCount 1 false value
      targetData target = Done targetData'
    ∧ MemoryBuffer_size targetData' = MemoryBuffer_size targetData
    ∧ (∀ c t, 0 <= c < cols → 0 <= t < 4 * rows →
         byte_at targetData' (target + 16 * (arrayElementOffset * cols) + 16 * c + t)
         = byte_at (encode_array value) (c * (4 * rows) + t)).
Proof.
  intros Hcols Hrows Hidx Htarget Hlen Hfit Hsz.
  pose proof (encode_array_size value) as Hsrc.
  unfold SetFloatUniformMatrixGLSL_Run.
  destruct (UpdateDefaultUniformBlock_spec 4 (1 * cols) (arrayElementOffset * cols) rows
              (encode_array value) (mkBlockMemberInfo target 16 16 false) targetData)
    as (data' & Hrun & Hsz' & Hin & _); cbn [offset arrayStride]; try lia; try nia.
  exists data'. split; [done|]. split; [done|].
  intros c t Hc Ht. rewrite <- (Hin c t) by lia. cbn [offset arrayStride]. f_equal. lia.
Qed.

(** C1.  On a linked program, for a location of a scalar, vector or matrix
    uniform that is neither sampler nor image, a write of one element [v]
    followed by a read of the same location returns [v].

    For scalars and vectors the write is [setUniformImpl]; when the declared
    type is a boolean one, the components of [v] are the two boolean values
    [GL_FALSE] and [GL_TRUE].  For matrices the write is [setUniformMatrixfv]
    and the read is [getUniformImpl] at [GLfloat], both with the helpers of
    renderer_utils.h as the specification describes them; the matrix is
    given column by column, its columns fit the block of every stage that
    has it, and an array of matrices has the stride of its [cols] padded
    columns. *)
Theorem setUniform_getUniform_round_trip
    (Get : GLtype → GLenum → list byte → MemoryBuffer → Z → bool → outcome (list byte))
    (T : GLtype) (p : ProgramVk) (location : Z) (v : list Z) (dst : list byte)
    (setType getType : GLenum)
    (locationInfo : VariableLocation) (linkedUniform : LinkedUniform)
    (shaderType : ShaderType) (layoutInfo : BlockMemberInfo) :
  let cc := componentCount (typeInfo linkedUniform) in
  let result := encode_array v ++ drop (Z.to_nat (4 * cc)) dst in
  write_ready p location 1 locationInfo linkedUniform →
  read_ready p location linkedUniform shaderType layoutInfo →
  isSampler linkedUniform = false → isImage linkedUniform = false →
  componentType (typeInfo linkedUniform) = getType
  ∨ componentType (typeInfo linkedUniform) = VariableBoolVectorType getType →
  Z.of_nat (length v) = cc → Forall (in_range T) v →
  4 * cc <= MemoryBuffer_size dst →
  (IsMatrixType (type linkedUniform) = false →
   typeInfo_type (typeInfo linkedUniform) = setType
   ∨ (typeInfo_type (typeInfo linkedUniform) = VariableBoolVectorType setType
      ∧ Forall (λ x, x = GL_FALSE ∨ x = GL_TRUE) v) →
   ∃ p', setUniformImpl T p location 1 v setType = Done p'
         ∧ getUniformImpl Get T p' location dst getType = Done result
         ∧ decode_array T (length v) result = v)
  ∧ (IsMatrixType (type linkedUniform) = true →
     let cols := matrix_columns (type linkedUniform) in
     let rows := matrix_rows (type linkedUniform) in
     T = GLfloat → cc = cols * rows →
     (∀ s li, getLinkedShaderStages (mState p) s = true →
        at_index (blockLayout (mExecutable p) s) location = Done li →
        offset li ≠ -1 →
        (arrayStride li = 16 * cols ∨ arrayIndex locationInfo = 0)
        ∧ offset li + 16 * (arrayIndex locationInfo * cols + cols - 1) + 4 * rows
          <= MemoryBuffer_size (blockData (mExecutable p) s)) →
     ∃ p', setUniformMatrixfv SetFloatUniformMatrixGLSL_Run cols rows p location 1 false v
           = Done p'
           ∧ getUniformImpl GetMatrixUniform T p' location dst getType = Done result
           ∧ decode_array T (length v) result = v).
Proof.
  intros cc result Hw Hr Hsampler Himage Hget Hlen Hrange Hdst.
  assert (Hdec : decode_array T (length v) result = v)
    by (by apply decode_array_encode_array).
  pose proof (read_stage_fits _ _ _ _ _ _ _ Hw Hr) as (_ & _ & Hcc & Hcc' & _).
  fold cc in Hcc, Hcc'. split.
  - intros Hmat Hset.
    assert (Hset' : typeInfo_type (typeInfo linkedUniform) = setType
                    ∨ typeInfo_type (typeInfo linkedUniform) = VariableBoolVectorType setType)
      by (destruct Hset as [?|[? _]]; auto).
    destruct (setUniformImpl_getUniformImpl Get T T p location 1 v dst setType getType
                locationInfo linkedUniform shaderType layoutInfo
                Hw Hr Hsampler Himage Hmat Hset' Hget)
      as (p' & Hrun & Hread); fold cc; [lia..|].
    exists p'. split; [done|]. split; [|done].
    assert (Hys : written_value T linkedUniform setType <$> take (Z.to_nat cc) v = v).
    { rewrite take_ge by lia. destruct Hset as [Hset|[_ Hbool]].
      - unfold written_value. apply Z.eqb_eq in Hset. rewrite Hset. apply list_fmap_id.
      - clear -Hbool. induction Hbool as [|x v Hx _ IH]; [done|].
        by rewrite fmap_cons, written_value_sentinel, IH. }
    rewrite Hread. fold cc. by rewrite Hys.
  - intros Hmat cols rows HT Hdims Hcolumns.
    destruct (matrix_dimensions (type linkedUniform)) as [Hcols Hrows].
    fold cols in Hcols. fold rows in Hrows.
    pose proof Hw as (Hloc & Hu & Hidx & _ & _ & _ & Hstages).
    pose proof Hr as (Hfirst & Hlinked & Hli & Ho).
    set (F := λ (li : BlockMemberInfo) (data : MemoryBuffer),
                SetFloatUniformMatrixGLSL_Run cols rows (arrayIndex locationInfo)
                  (getArraySizeProduct linkedUniform) 1 false v data (offset li)).
    assert (HF : ∀ s li, getLinkedShaderStages (mState p) s = true →
              at_index (blockLayout (mExecutable p) s) location = Done li →
              offset li ≠ -1 →
              ∃ d', F li (blockData (mExecutable p) s) = Done d'
                    ∧ MemoryBuffer_size d' = MemoryBuffer_size (blockData (mExecutable p) s)
                    ∧ (∀ c t, 0 <= c < cols → 0 <= t < 4 * rows →
                         byte_at d' (offset li + 16 * (arrayIndex locationInfo * cols)
                                     + 16 * c + t)
                         = byte_at (encode_array v) (c * (4 * rows) + t))).
    { intros s li Hs Hsli Hne. destruct (Hcolumns s li Hs Hsli Hne) as [_ Hfit].
      destruct (Hstages s Hs) as (li' & Hli' & [?|(Ho' & _ & _ & _ & Hsz)]); [congruence|].
      replace li' with li in * by congruence.
      apply SetFloatUniformMatrixGLSL_Run_stores_columns; try done. lia. }
    rewrite (setUniformMatrixfv_unfold SetFloatUniformMatrixGLSL_Run cols rows p location 1
               false v _ _ Hloc Hu).
    destruct (write_ready_stages F p location 1 locationInfo linkedUniform Hw)
      as (exe' & Hrun & Hframe & Hres).
    { intros s li Hs Hsli (Ho' & _).
      destruct (decide (offset li = -1)) as [?|Hne]; [lia|].
      destruct (HF s li Hs Hsli Hne) as (d' & Hd' & _). by exists d'. }
    fold F. rewrite Hrun. simpl. eexists. split; [done|]. split; [|done].
    destruct Hframe as (Hlayout & _).
    rewrite (getUniformImpl_unfold GetMatrixUniform T _ location dst getType locationInfo
               linkedUniform shaderType layoutInfo); simpl; try done; [|by rewrite Hlayout].
    rewrite Hmat.
    destruct (HF shaderType layoutInfo Hlinked Hli Ho) as (d' & Hd' & Hsz' & Hstored).
    destruct (Hres shaderType layoutInfo Hlinked Hli Ho) as [Hwritten _].
    replace (blockData exe' shaderType) with d' by congruence.
    destruct (Hcolumns shaderType layoutInfo Hlinked Hli Ho) as [Hstride Hfit].
    destruct (Hstages shaderType Hlinked) as (li' & Hli' & [?|(Ho' & _ & _ & _ & Hsz)]);
      [congruence|].
    replace li' with layoutInfo in * by congruence.
    assert (arrayIndex locationInfo * arrayStride layoutInfo
            = 16 * (arrayIndex locationInfo * cols)) as Hprod
      by (destruct Hstride as [-> | ->]; lia).
    rewrite Hprod, wrap_uint_small by lia.
    unfold GetMatrixUniform. fold cols rows. subst result.
    replace (4 * cc) with (4 * rows * cols) by lia.
    apply GetMatrixUniform_columns_unpacks; try lia.
    + rewrite encode_array_size. lia.
    + intros c t Hc Ht. by apply Hstored.
Qed.

(** C4.  A write of integers or floats to a location declared with a boolean
    type stores, for each source component, the sentinel [GL_FALSE] when it
    is zero and [GL_TRUE] otherwise, element by element at the array stride,
    in every linked stage that has the variable; reading the location back
    gives the sentinels of the first element.  Zero is the integer 0 for a
    signed or an unsigned source (a negative integer is not zero) and, for a
    float source, either of the two zeros: the bit patterns [0x00000000] of
    [+0.0] and [0x80000000] of [-0.0]; every other pattern, a NaN included,
    compares unequal to zero. *)
Theorem setUniformImpl_coerces_to_bool
    (Get : GLtype → GLenum → list byte → MemoryBuffer → Z → bool → outcome (list byte))
    (T T' : GLtype) (p : ProgramVk) (location count : Z) (v : list Z) (dst : list byte)
    (setType getType : GLenum)
    (locationInfo : VariableLocation) (linkedUniform : LinkedUniform)
    (shaderType : ShaderType) (layoutInfo : BlockMemberInfo) :
  let cc := componentCount (typeInfo linkedUniform) in
  let stored (x : Z) : Z :=
    match T with
    | GLint | GLuint => if decide (x = 0) then GL_FALSE else GL_TRUE
    | GLfloat => if decide (x = 0x00000000 ∨ x = 0x80000000) then GL_FALSE else GL_TRUE
    end in
  write_ready p location count locationInfo linkedUniform →
  read_ready p location linkedUniform shaderType layoutInfo →
  isSampler linkedUniform = false → isImage linkedUniform = false →
  IsMatrixType (type linkedUniform) = false →
  typeInfo_type (typeInfo linkedUniform) ≠ setType →
  typeInfo_type (typeInfo linkedUniform) = VariableBoolVectorType setType →
  componentType (typeInfo linkedUniform) = getType
  ∨ componentType (typeInfo linkedUniform) = VariableBoolVectorType getType →
  count * cc <= Z.of_nat (length v) → 4 * Z.of_nat (length v) < 2 ^ 31 →
  4 * cc <= MemoryBuffer_size dst →
  ∃ p',
    setUniformImpl T p location count v setType = Done p'
    ∧ (∀ s li, getLinkedShaderStages (mState p) s = true →
         at_index (blockLayout (mExecutable p) s) location = Done li →
         offset li ≠ -1 →
         ∀ i k x, 0 <= i < count → 0 <= k < cc →
           v !! Z.to_nat (i * cc + k) = Some x →
           mem_read (blockData (mExecutable p') s)
             (offset li + (arrayIndex locationInfo + i) * arrayStride li + 4 * k) 4
           = Done (encode (stored x)))
    ∧ getUniformImpl Get T' p' location dst getType
      = Done (encode_array (stored <$> take (Z.to_nat cc) v)
              ++ drop (Z.to_nat (4 * cc)) dst).
Proof.
  intros cc stored Hw Hr Hsampler Himage Hmat Hne Hset Hget Hsrc Hvsz Hdst.
  assert (Hwv : ∀ x, written_value T linkedUniform setType x = stored x).
  { intros x. unfold written_value, bool_sentinel, is_zero, stored.
    destruct (Z.eqb_spec (typeInfo_type (typeInfo linkedUniform)) setType); [done|].
    destruct T.
    - destruct (Z.eqb_spec x 0), (Z.eqb_spec x 0x80000000); simpl;
        case_decide; try done; lia.
    - destruct (Z.eqb_spec x 0); by case_decide.
    - destruct (Z.eqb_spec x 0); by case_decide. }
  destruct (setUniformImpl_getUniformImpl Get T T' p location count v dst setType getType
              locationInfo linkedUniform shaderType layoutInfo)
    as (p' & Hrun & Hread); try done; [by right|].
  destruct (setUniformImpl_Done T p location count v setType locationInfo linkedUniform)
    as (p'' & Hrun' & _ & _ & Hres); try done; [by right|].
  replace p'' with p' in * by congruence.
  exists p'. split; [done|]. split.
  - intros s li Hs Hli Ho i k x Hi Hk Hx.
    destruct (Hres s li Hs Hli Ho) as (_ & _ & Hchunks & _).
    rewrite (Hchunks i k x Hi Hk Hx), Hwv. done.
  - rewrite Hread. fold cc.
    replace (written_value T linkedUniform setType <$> take (Z.to_nat cc) v)
      with (stored <$> take (Z.to_nat cc) v); [done|].
    apply list_fmap_ext. intros _ x _. by rewrite Hwv.
Qed.

Lemma example_write_ready (location count : Z) locationInfo linkedUniform layoutV layoutF :
  at_index (getUniformLocations example_state) location = Done locationInfo →
  at_index (getUniforms example_state) (index locationInfo) = Done linkedUniform →
  0 <= arrayIndex locationInfo → 1 <= count → arrayIndex locationInfo + count < 2 ^ 31 →
  0 < componentCount (typeInfo linkedUniform) →
  at_index (blockLayout (mExecutable example_program) Vertex) location = Done layoutV →
  at_index (blockLayout (mExecutable example_program) Fragment) location = Done layoutF →
  offset layoutV = -1
  ∨ fits layoutV (blockData (mExecutable example_program) Vertex)
      (arrayIndex locationInfo) count (4 * componentCount (typeInfo linkedUniform)) →
  offset layoutF = -1
  ∨ fits layoutF (blockData (mExecutable example_program) Fragment)
      (arrayIndex locationInfo) count (4 * componentCount (typeInfo linkedUniform)) →
  write_ready example_program location count locationInfo linkedUniform.
Proof.
  intros. repeat split; try done. example_stages; eauto.
Qed.

Lemma setUniform_getUniform_round_trip_witness :
  (∃ p', setUniformImpl GLfloat example_program 0 1 example_floats GL_FLOAT_VEC4 = Done p'
         ∧ getUniformImpl example_GetMatrixUniform GLfloat p' 0
             (replicate 16 Init.Byte.x00) GL_FLOAT
           = Done (encode_array example_floats
                   ++ drop (Z.to_nat (4 * 4)) (replicate 16 Init.Byte.x00))
         ∧ decode_array GLfloat 4
             (encode_array example_floats
              ++ drop (Z.to_nat (4 * 4)) (replicate 16 Init.Byte.x00))
           = example_floats)
  ∧ (∃ p', setUniformMatrixfv SetFloatUniformMatrixGLSL_Run 2 2 example_program 4 1 false
             example_floats = Done p'
           ∧ getUniformImpl GetMatrixUniform GLfloat p' 4
               (replicate 16 Init.Byte.x00) GL_FLOAT
             = Done (encode_array example_floats
                     ++ drop (Z.to_nat (4 * 4)) (replicate 16 Init.Byte.x00))
           ∧ decode_array GLfloat 4
               (encode_array example_floats
                ++ drop (Z.to_nat (4 * 4)) (replicate 16 Init.Byte.x00))
             = example_floats).
Proof.
  split.
  - refine (proj1 (setUniform_getUniform_round_trip example_GetMatrixUniform
                     GLfloat example_program 0 example_floats (replicate 16 Init.Byte.x00)
                     GL_FLOAT_VEC4 GL_FLOAT (mkVariableLocation 0 0 false true)
                     (example_uniform "color" GL_FLOAT_VEC4 GL_FLOAT 4 false false (Some Vertex))
                     Vertex (mkBlockMemberInfo 0 0 0 false) _ _ _ _ _ _ _ _) _ _).
    + eapply example_write_ready; try reflexivity; try done; example_fits.
    + repeat split; done.
    + reflexivity.
    + reflexivity.
    + by left.
    + reflexivity.
    + repeat constructor; simpl; lia.
    + vm_compute. congruence.
    + reflexivity.
    + by left.
  - refine (proj2 (setUniform_getUniform_round_trip example_GetMatrixUniform
                     GLfloat example_program 4 example_floats (replicate 16 Init.Byte.x00)
                     GL_FLOAT_MAT2 GL_FLOAT (mkVariableLocation 0 4 false true)
                     (example_uniform "m" GL_FLOAT_MAT2 GL_FLOAT 4 false false (Some Vertex))
                     Vertex (mkBlockMemberInfo 16 32 16 false) _ _ _ _ _ _ _ _) _ _ _ _).
    + eapply example_write_ready; try reflexivity; try done; example_fits.
    + repeat split; done.
    + reflexivity.
    + reflexivity.
    + by left.
    + reflexivity.
    + repeat constructor; simpl; lia.
    + vm_compute. congruence.
    + reflexivity.
    + reflexivity.
    + reflexivity.
    + example_stages; intros li Hli Ho; vm_compute in Hli; simplify_eq; try done.
      split; [by left|]. vm_compute. congruence.
Defined.

(** The example of the specification: the integers 0, 5, -3, 0 written to
    the [bvec4] read back as false, true, true, false; so do the unsigned
    integers 0, 5, 4294967295, 0, and the floats +0.0, -0.0, a NaN and 1.0
    read back as false, false, true, true. *)
Lemma setUniformImpl_coerces_to_bool_witness :
  (∃ p', setUniform4iv example_program 1 1 [0; 5; -3; 0] = Done p'
         ∧ getUniformiv example_GetMatrixUniform p' 1 (replicate 16 Init.Byte.x00)
           = Done (encode_array [GL_FALSE; GL_TRUE; GL_TRUE; GL_FALSE]))
  ∧ (∃ p', setUniform4uiv example_program 1 1 [0; 5; 4294967295; 0] = Done p'
           ∧ getUniformiv example_GetMatrixUniform p' 1 (replicate 16 Init.Byte.x00)
             = Done (encode_array [GL_FALSE; GL_TRUE; GL_TRUE; GL_FALSE]))
  ∧ (∃ p', setUniform4fv example_program 1 1 [0; 0x80000000; 0x7FC00000; 0x3F800000]
           = Done p'
           ∧ getUniformiv example_GetMatrixUniform p' 1 (replicate 16 Init.Byte.x00)
             = Done (encode_array [GL_FALSE; GL_FALSE; GL_TRUE; GL_TRUE])).
Proof.
  split; [|split].
  - destruct (setUniformImpl_coerces_to_bool example_GetMatrixUniform GLint GLint
                example_program 1 1 [0; 5; -3; 0] (replicate 16 Init.Byte.x00)
                GL_INT_VEC4 GL_INT (mkVariableLocation 0 1 false true)
                (example_uniform "flags" GL_BOOL_VEC4 GL_BOOL 4 false false (Some Fragment))
                Fragment (mkBlockMemberInfo 0 0 0 false))
      as (p' & Hrun & _ & Hread).
    + eapply example_write_ready; try reflexivity; try done; example_fits.
    + repeat split; done.
    + reflexivity.
    + reflexivity.
    + reflexivity.
    + vm_compute. congruence.
    + reflexivity.
    + by right.
    + vm_compute. congruence.
    + vm_compute. congruence.
    + vm_compute. congruence.
    + exists p'. split; [exact Hrun|]. unfold getUniformiv. rewrite Hread. reflexivity.
  - destruct (setUniformImpl_coerces_to_bool example_GetMatrixUniform GLuint GLint
                example_program 1 1 [0; 5; 4294967295; 0] (replicate 16 Init.Byte.x00)
                GL_UNSIGNED_INT_VEC4 GL_INT (mkVariableLocation 0 1 false true)
                (example_uniform "flags" GL_BOOL_VEC4 GL_BOOL 4 false false (Some Fragment))
                Fragment (mkBlockMemberInfo 0 0 0 false))
      as (p' & Hrun & _ & Hread).
    + eapply example_write_ready; try reflexivity; try done; example_fits.
    + repeat split; done.
    + reflexivity.
    + reflexivity.
    + reflexivity.
    + vm_compute. congruence.
    + reflexivity.
    + by right.
    + vm_compute. congruence.
    + vm_compute. congruence.
    + vm_compute. congruence.
    + exists p'. split; [exact Hrun|]. unfold getUniformiv. rewrite Hread. reflexivity.
  - destruct (setUniformImpl_coerces_to_bool example_GetMatrixUniform GLfloat GLint
                example_program 1 1 [0; 0x80000000; 0x7FC00000; 0x3F800000]
                (replicate 16 Init.Byte.x00)
                GL_FLOAT_VEC4 GL_INT (mkVariableLocation 0 1 false true)
                (example_uniform "flags" GL_BOOL_VEC4 GL_BOOL 4 false false (Some Fragment))
                Fragment (mkBlockMemberInfo 0 0 0 false))
      as (p' & Hrun & _ & Hread).
    + eapply example_write_ready; try reflexivity; try done; example_fits.
    + repeat split; done.
    + reflexivity.
    + reflexivity.
    + reflexivity.
    + vm_compute. congruence.
    + reflexivity.
    + by right.
    + vm_compute. congruence.
    + vm_compute. congruence.
    + vm_compute. congruence.
    + exists p'. split; [exact Hrun|]. unfold getUniformiv. rewrite Hread. reflexivity.
Defined.

(** ** Dirty bits *)

Lemma for_each_stage_write_visited F location stages exe exe' s :
  for_each_stage (stage_write F location) stages exe = Done exe' → s ∈ stages →
  ∃ layoutInfo, at_index (blockLayout exe s) location = Done layoutInfo.
Proof.
  revert exe. induction stages as [|a stages IH]; intros exe Hrun Hs;
    [by apply elem_of_nil in Hs|].
  simpl in Hrun. apply bind_Done in Hrun as (exe1 & H1 & Hrun).
  apply elem_of_cons in Hs as [->|Hs].
  - apply stage_write_inv in H1 as (li & Hli & _). eauto.
  - destruct (IH exe1 Hrun Hs) as (li & Hli). exists li.
    pose proof (stage_write_frame F location (λ _, True) a exe exe1 I H1) as (Hl & _).
    by rewrite <- Hl.
Qed.

Lemma run_write_inv Run p c p' :
  run_write Run p c = Done p' →
  ∃ F exe',
    for_each_stage (stage_write F (write_location c))
      (ShaderBitSet_iterate (getLinkedShaderStages (mState p))) (mExecutable p) = Done exe'
    ∧ p' = {| mState := mState p; mExecutable := exe' |}.
Proof.
  destruct c as [T location count v entryPointType|cols rows location count transpose value];
    simpl.
  - intros Hrun. pose proof Hrun as Hrun0. unfold setUniformImpl in Hrun0.
    apply bind_Done in Hrun0 as (locationInfo & Hloc & Hrun0).
    apply bind_Done in Hrun0 as (linkedUniform & Hu & Hrun0).
    apply bind_Done in Hrun0 as (_ & Hs%ASSERT_Done%negb_true_iff & _).
    rewrite (setUniformImpl_unfold T p location count v entryPointType _ _ Hloc Hu Hs)
      in Hrun.
    apply bind_Done in Hrun as (exe' & Hrun & ?). simplify_eq. eauto.
  - intros Hrun. unfold setUniformMatrixfv in Hrun.
    apply bind_Done in Hrun as (locationInfo & Hloc & Hrun).
    apply bind_Done in Hrun as (linkedUniform & Hu & Hrun).
    apply bind_Done in Hrun as (exe' & Hrun & ?). simplify_eq.
    erewrite for_each_stage_ext in Hrun
      by (intros; apply setUniformMatrixfv_stage_shape). eauto.
Qed.

Lemma run_write_dirty_kept Run p c p' s :
  run_write Run p c = Done p' →
  isDirty (mExecutable p) s = true → isDirty (mExecutable p') s = true.
Proof.
  intros (F & exe' & Hrun & ->)%run_write_inv. simpl.
  by apply (for_each_stage_write_frame _ _ _ _ _ Hrun).
Qed.

Lemma run_calls_dirty_kept Run cs : ∀ p p' s,
  run_calls Run p cs = Done p' → ClearDirty s ∉ cs →
  isDirty (mExecutable p) s = true → isDirty (mExecutable p') s = true.
Proof.
  induction cs as [|c cs IH]; intros p p' s Hrun Hclear Hd; simpl in Hrun;
    [by simplify_eq|].
  apply bind_Done in Hrun as (p1 & H1 & Hrun).
  apply not_elem_of_cons in Hclear as [Hc Hclear].
  eapply IH; [done..|]. destruct c as [c|s']; simpl in H1.
  - by eapply run_write_dirty_kept.
  - simplify_eq. unfold isDirty, clearDirty in *. simpl.
    rewrite fn_lookup_insert_ne; [done|congruence].
Qed.

(** C6.  After a successful write, every stage whose block bytes changed,
    and more generally every linked stage that has the location in its block,
    is dirty, and stays dirty through any further writes and through
    [clearDirty] of other stages, that is until the next [clearDirty] of the
    stage itself: no setter ever clears a bit.  A stage that is not linked,
    or whose layout record for the location is the [-1] sentinel, keeps its
    dirty bit and its bytes. *)
Theorem write_marks_exactly_the_touched_stages_dirty
    (Run : Z → Z → Z → Z → Z → bool → list Z → MemoryBuffer → Z → outcome MemoryBuffer)
    (p p' : ProgramVk) (c : write_call) :
  run_write Run p c = Done p' →
  (∀ s, blockData (mExecutable p') s ≠ blockData (mExecutable p) s →
     isDirty (mExecutable p') s = true)
  ∧ (∀ s, touches p (write_location c) s → isDirty (mExecutable p') s = true)
  ∧ (∀ s cs p'', isDirty (mExecutable p') s = true →
       run_calls Run p' cs = Done p'' → ClearDirty s ∉ cs →
       isDirty (mExecutable p'') s = true)
  ∧ (∀ s, ¬ touches p (write_location c) s →
       isDirty (mExecutable p') s = isDirty (mExecutable p) s
       ∧ blockData (mExecutable p') s = blockData (mExecutable p) s)
  ∧ (∀ s layoutInfo,
       at_index (blockLayout (mExecutable p) s) (write_location c) = Done layoutInfo →
       offset layoutInfo = -1 →
       isDirty (mExecutable p') s = isDirty (mExecutable p) s).
Proof.
  intros Hrun. destruct (run_write_inv _ _ _ _ Hrun) as (F & exe' & Hloop & ->). simpl.
  pose proof (for_each_stage_write_frame _ _ _ _ _ Hloop) as (Hlayout & Hkeep & Hchanged & Hframe).
  split; [done|]. split; [|split; [|split]].
  - intros s (Hs & li & Hli & Ho).
    eapply for_each_stage_write_dirty; [exact Hloop| |exact Hli|exact Ho].
    by apply ShaderBitSet_iterate_elem.
  - intros s cs p'' Hd Hcs Hclear. by eapply (run_calls_dirty_kept Run cs _ p'' s Hcs).
  - intros s Hs. destruct (decide (getLinkedShaderStages (mState p) s = true)) as [Hl|Hl].
    + destruct (for_each_stage_write_visited _ _ _ _ _ s Hloop) as (li & Hli);
        [by apply ShaderBitSet_iterate_elem|].
      destruct (decide (offset li = -1)) as [Ho|Ho].
      * destruct (Hframe s) as [-> ->]; [right; eauto|done].
      * destruct Hs. split; [done|]. eauto.
    + destruct (Hframe s) as [-> ->]; [|done]. left. by rewrite ShaderBitSet_iterate_elem.
  - intros s li Hli Ho. destruct (Hframe s) as [_ ->]; [right; eauto|done].
Qed.

Lemma write_marks_exactly_the_touched_stages_dirty_witness :
  ∃ p', run_write example_Run example_program (SetUniform GLint 1 1 [0; 5; -3; 0] GL_INT_VEC4)
        = Done p'
        ∧ isDirty (mExecutable p') Fragment = true
        ∧ isDirty (mExecutable p') Vertex = isDirty (mExecutable example_program) Vertex
        ∧ blockData (mExecutable p') Vertex = blockData (mExecutable example_program) Vertex.
Proof.
  assert (∃ p', run_write example_Run example_program
                  (SetUniform GLint 1 1 [0; 5; -3; 0] GL_INT_VEC4) = Done p') as [p' Hrun]
    by (eexists; vm_compute; reflexivity).
  destruct (write_marks_exactly_the_touched_stages_dirty example_Run example_program p'
              (SetUniform GLint 1 1 [0; 5; -3; 0] GL_INT_VEC4) Hrun)
    as (_ & Htouched & _ & _ & Hsentinel).
  exists p'. split; [exact Hrun|]. split; [|split].
  - apply Htouched. split; [reflexivity|]. eexists. split; [reflexivity|]. simpl. lia.
  - apply (Hsentinel Vertex kDefaultBlockMemberInfo); reflexivity.
  - vm_compute in Hrun. by simplify_eq.
Defined.

(** ** The sentinel offset *)

(** C2, as the code has it.  For every setter ([setUniformImpl] in both
    arms, [setUniformMatrixfv]) a layout record with offset [-1] makes the
    turn of that stage a no-op: it succeeds and changes nothing, and after
    the whole call the stage has the bytes and the dirty bit it had.  The
    reader [ReadFromDefaultUniformBlock] requires an offset other than [-1]:
    on the sentinel it fails its assertion. *)
Theorem sentinel_offset_skips_writes_and_fails_reads (layoutInfo : BlockMemberInfo) :
  offset layoutInfo = -1 →
  (∀ T location count v entryPointType locationInfo linkedUniform st exe,
     at_index (blockLayout exe st) location = Done layoutInfo →
     setUniformImpl_same_type T location count v locationInfo linkedUniform st exe = Done exe
     ∧ setUniformImpl_bool T location count v entryPointType locationInfo linkedUniform
         st exe = Done exe
     ∧ ∀ Run cols rows transpose,
         setUniformMatrixfv_stage Run cols rows location count transpose v
           locationInfo linkedUniform st exe = Done exe)
  ∧ (∀ Run p c p' s,
       run_write Run p c = Done p' →
       at_index (blockLayout (mExecutable p) s) (write_location c) = Done layoutInfo →
       blockData (mExecutable p') s = blockData (mExecutable p) s
       ∧ isDirty (mExecutable p') s = isDirty (mExecutable p) s)
  ∧ (∀ sizeofT componentCount arrayIndex dst uniformData,
       ReadFromDefaultUniformBlock sizeofT componentCount arrayIndex dst layoutInfo uniformData
       = AssertionFailure).
Proof.
  intros Ho. split; [|split].
  - intros T location count v entryPointType locationInfo linkedUniform st exe Hli.
    assert (∀ F, stage_write F location st exe = Done exe) as Hskip.
    { intros F. unfold stage_write. rewrite Hli. simpl. by rewrite Ho. }
    split; [|split].
    + by rewrite setUniformImpl_same_type_shape.
    + by rewrite setUniformImpl_bool_shape.
    + intros. by rewrite setUniformMatrixfv_stage_shape.
  - intros Run p c p' s (F & exe' & Hloop & ->)%run_write_inv Hli. simpl.
    apply (for_each_stage_write_frame _ _ _ _ _ Hloop). right. eauto.
  - intros. unfold ReadFromDefaultUniformBlock. by rewrite Ho.
Qed.

Lemma sentinel_offset_skips_writes_and_fails_reads_witness :
  setUniformImpl_same_type GLfloat 1 1 example_floats (mkVariableLocation 0 1 false true)
    (example_uniform "flags" GL_BOOL_VEC4 GL_BOOL 4 false false (Some Fragment))
    Vertex (mExecutable example_program) = Done (mExecutable example_program)
  ∧ ReadFromDefaultUniformBlock 4 4 0 (replicate 16 Init.Byte.x00) kDefaultBlockMemberInfo
      (replicate 64 Init.Byte.xaa) = AssertionFailure.
Proof.
  destruct (sentinel_offset_skips_writes_and_fails_reads kDefaultBlockMemberInfo eq_refl)
    as (Hwrite & _ & Hread).
  split.
  - apply (Hwrite GLfloat 1 1 example_floats GL_FLOAT_VEC4). reflexivity.
  - apply Hread.
Defined.

(** C2 as it is worded fails for reads: with the sentinel record of the
    vertex stage for the location of [flags], the reader does not return,
    it fails its assertion. *)
Lemma read_of_sentinel_offset_fails_assertion :
  at_index (blockLayout (mExecutable example_program) Vertex) 1 = Done kDefaultBlockMemberInfo
  ∧ offset kDefaultBlockMemberInfo = -1
  ∧ ReadFromDefaultUniformBlock (sizeof GLint) 4 0 (replicate 16 Init.Byte.x00)
      kDefaultBlockMemberInfo (blockData (mExecutable example_program) Vertex)
    = AssertionFailure.
Proof. by vm_compute. Qed.

(** ** Samplers and images *)

Lemma for_each_stage_all_skipped F location stages exe :
  (∀ s, s ∈ stages →
     ∃ layoutInfo, at_index (blockLayout exe s) location = Done layoutInfo
                   ∧ offset layoutInfo = -1) →
  for_each_stage (stage_write F location) stages exe = Done exe.
Proof.
  induction stages as [|a stages IH]; intros Hall; [done|].
  destruct (Hall a) as (li & Hli & Ho); [by left|].
  cbn [for_each_stage].
  assert (stage_write F location a exe = Done exe) as ->
    by (unfold stage_write; rewrite Hli; simpl; by rewrite Ho).
  simpl. apply IH. intros s Hs. apply Hall. by right.
Qed.

(** Linking gives the location of a sampler or of an image the default
    record in every stage. *)
Lemma location_layoutInfo_of_sampler_or_image state layoutMap location uniform :
  at_index (getUniforms state) (index location) = Done uniform →
  isSampler uniform = true ∨ isImage uniform = true →
  location_layoutInfo state layoutMap location = Done (λ _, kDefaultBlockMemberInfo).
Proof.
  intros Hu Hopaque. unfold location_layoutInfo.
  destruct (used location && negb (ignored location)); [|done].
  rewrite Hu. simpl.
  destruct Hopaque as [-> | ->]; by rewrite ?andb_false_r.
Qed.

(** C9, what the code does.  [getUniformImpl] asserts that the uniform is
    neither a sampler nor an image, and [setUniformImpl] asserts that it is
    not a sampler; but [setUniformImpl] has no assertion for images: on
    a linked program, where every stage has the sentinel record for an image
    location, the write returns normally with the program unchanged. *)
Theorem setUniformImpl_accepts_image_location
    (Get : GLtype → GLenum → list byte → MemoryBuffer → Z → bool → outcome (list byte))
    (T : GLtype) (p : ProgramVk) (location count : Z) (v : list Z) (dst : list byte)
    (entryPointType : GLenum)
    (locationInfo : VariableLocation) (linkedUniform : LinkedUniform) :
  at_index (getUniformLocations (mState p)) location = Done locationInfo →
  at_index (getUniforms (mState p)) (index locationInfo) = Done linkedUniform →
  (isSampler linkedUniform = true →
     setUniformImpl T p location count v entryPointType = AssertionFailure
     ∧ getUniformImpl Get T p location dst entryPointType = AssertionFailure)
  ∧ (isImage linkedUniform = true →
     getUniformImpl Get T p location dst entryPointType = AssertionFailure)
  ∧ (isImage linkedUniform = true → isSampler linkedUniform = false →
     (∀ s, getLinkedShaderStages (mState p) s = true →
        ∃ layoutInfo, at_index (blockLayout (mExecutable p) s) location = Done layoutInfo
                      ∧ offset layoutInfo = -1) →
     setUniformImpl T p location count v entryPointType = Done p).
Proof.
  intros Hloc Hu. split; [|split].
  - intros Hs. unfold setUniformImpl, getUniformImpl.
    rewrite Hloc. simpl. rewrite Hu. simpl. by rewrite Hs.
  - intros Hi. unfold getUniformImpl. rewrite Hloc. simpl. rewrite Hu. simpl. rewrite Hi.
    by destruct (isSampler linkedUniform).
  - intros Hi Hs Hall.
    rewrite (setUniformImpl_unfold T p location count v entryPointType _ _ Hloc Hu Hs).
    rewrite for_each_stage_all_skipped.
    + by destruct p.
    + intros s Hs'%ShaderBitSet_iterate_elem. by apply Hall.
Qed.

Lemma setUniformImpl_accepts_image_location_witness :
  setUniformImpl GLint example_program 2 1 [7] GL_INT = AssertionFailure
  ∧ getUniformImpl example_GetMatrixUniform GLint example_program 3
      (replicate 4 Init.Byte.x00) GL_INT = AssertionFailure
  ∧ setUniformImpl GLint example_program 3 1 [7] GL_INT = Done example_program.
Proof.
  split; [|split].
  - apply (setUniformImpl_accepts_image_location example_GetMatrixUniform GLint
             example_program 2 1 [7] [] GL_INT (mkVariableLocation 0 2 false true)
             (example_uniform "tex" GL_SAMPLER_2D GL_INT 1 true false (Some Fragment)));
      reflexivity.
  - apply (setUniformImpl_accepts_image_location example_GetMatrixUniform GLint
             example_program 3 1 [7] (replicate 4 Init.Byte.x00) GL_INT
             (mkVariableLocation 0 3 false true)
             (example_uniform "img" GL_IMAGE_2D GL_INT 1 false true (Some Fragment)));
      reflexivity.
  - apply (setUniformImpl_accepts_image_location example_GetMatrixUniform GLint
             example_program 3 1 [7] [] GL_INT (mkVariableLocation 0 3 false true)
             (example_uniform "img" GL_IMAGE_2D GL_INT 1 false true (Some Fragment)));
      try reflexivity.
    example_stages; eexists; (split; [reflexivity|reflexivity]).
Defined.

(** ** Writes past the end of the block *)

(** The bounds check of [UpdateDefaultUniformBlock]: a write whose last element
    ends past the block fails the assertion, in the loop at the first element
    that does not fit. *)
Lemma UpdateDefaultUniformBlock_loop_asserts_overrun (sizeofT componentCount : Z)
    (v : list byte) (layoutInfo : BlockMemberInfo) (fuel : nat) :
  let elementSize := sizeofT * componentCount in
  0 < sizeofT → 0 < componentCount →
  0 <= offset layoutInfo → 0 <= arrayStride layoutInfo →
  ∀ (writeIndex readIndex : Z) (uniformData : MemoryBuffer),
  (fuel ≠ 0)%nat → 0 <= writeIndex → 0 <= readIndex →
  MemoryBuffer_size uniformData
    < offset layoutInfo + (writeIndex + Z.of_nat fuel - 1) * arrayStride layoutInfo
      + elementSize →
  offset layoutInfo + (writeIndex + Z.of_nat fuel - 1) * arrayStride layoutInfo + elementSize
    < 2 ^ 31 →
  (readIndex + Z.of_nat fuel) * elementSize <= MemoryBuffer_size v →
  MemoryBuffer_size v < 2 ^ 31 →
  UpdateDefaultUniformBlock_loop sizeofT fuel writeIndex readIndex componentCount
    elementSize v layoutInfo uniformData = AssertionFailure.
Proof.
  intros e HT Hcc Ho Hs.
  assert (He : 0 < e) by (unfold e; nia).
  set (s := arrayStride layoutInfo) in *. set (o := offset layoutInfo) in *.
  induction fuel as [|fuel IH]; [done|].
  intros writeIndex readIndex data _ Hw Hr Hover Hmax Hsrc Hvsz.
  assert (Hws : 0 <= writeIndex * s <= (writeIndex + Z.of_nat (S fuel) - 1) * s) by nia.
  assert (Hrc : 0 <= readIndex * componentCount
                ∧ sizeofT * (readIndex * componentCount) = readIndex * e
                ∧ readIndex * componentCount <= readIndex * e
                ∧ readIndex * e <= (readIndex + Z.of_nat (S fuel)) * e - e)
    by (unfold e in *; nia).
  destruct Hrc as (Hrc0 & Hrc1 & Hrc2 & Hrc3).
  cbn [UpdateDefaultUniformBlock_loop]. fold s o.
  rewrite (wrap_int_small (writeIndex * s)) by lia.
  rewrite (wrap_int_small (readIndex * componentCount)) by lia.
  rewrite Hrc1.
  destruct (Z.leb_spec (o + writeIndex * s + e) (MemoryBuffer_size data)) as [Hfit|Hfit];
    [|done].
  simpl.
  destruct (memcpy_Done data (o + writeIndex * s) v (readIndex * e) e) as [data1 Hcpy];
    try lia.
  rewrite Hcpy. simpl.
  destruct (memcpy_inv _ _ _ _ _ _ Hcpy) as (_ & _ & _ & _ & _ & Hsz1 & _).
  destruct fuel as [|fuel'].
  { exfalso. rewrite Z.add_simpl_r in Hover. lia. }
  apply IH; try lia.
Qed.

Lemma UpdateDefaultUniformBlock_asserts_overrun (sizeofT count arrayIndex componentCount : Z)
    (v : list byte) (layoutInfo : BlockMemberInfo) (uniformData : MemoryBuffer) :
  let elementSize := sizeofT * componentCount in
  let last := offset layoutInfo + (arrayIndex + count - 1) * arrayStride layoutInfo
              + elementSize in
  0 < sizeofT → 0 < componentCount →
  0 <= offset layoutInfo → 0 <= arrayStride layoutInfo →
  0 <= arrayIndex → 1 <= count →
  arrayIndex + count < 2 ^ 31 →
  elementSize <= arrayStride layoutInfo ∨ count <= 1 →
  MemoryBuffer_size uniformData < last → last < 2 ^ 31 →
  count * elementSize <= MemoryBuffer_size v → MemoryBuffer_size v < 2 ^ 31 →
  UpdateDefaultUniformBlock sizeofT count arrayIndex componentCount v layoutInfo uniformData
  = AssertionFailure.
Proof.
  intros e last HT Hcc Ho Hs Hidx Hcount Hmax Hshape Hover Hlast Hsrc Hvsz.
  unfold last in *. clear last.
  set (s := arrayStride layoutInfo) in *. set (o := offset layoutInfo) in *.
  assert (He : 0 < e) by (unfold e; nia).
  assert (He' : e <= count * e) by nia.
  assert (Hprod : 0 <= arrayIndex * s <= (arrayIndex + count - 1) * s) by nia.
  unfold UpdateDefaultUniformBlock. fold s o e.
  rewrite (wrap_int_small e) by lia.
  destruct (Z.eqb_spec s 0) as [Hs0|Hs0]; [|destruct (Z.eqb_spec s e) as [Hse|Hse]]; simpl.
  - assert (count = 1) as -> by lia.
    rewrite Hs0, !Z.mul_0_r in *. rewrite Z.mul_1_r, (wrap_int_small e) by lia.
    change (wrap_uint 0) with 0. rewrite Z.add_0_r in *.
    by destruct (Z.leb_spec (o + e) (MemoryBuffer_size uniformData)); [lia|].
  - rewrite <- Hse in *.
    rewrite (wrap_uint_small (arrayIndex * s)), (wrap_int_small (s * count)) by lia.
    by destruct (Z.leb_spec (o + arrayIndex * s + s * count) (MemoryBuffer_size uniformData));
      [lia|].
  - rewrite (wrap_int_small arrayIndex), (wrap_int_small (arrayIndex + count)) by lia.
    replace (arrayIndex + count - arrayIndex) with count by lia.
    apply UpdateDefaultUniformBlock_loop_asserts_overrun; fold e s o;
      rewrite ?Z2Nat.id by lia; lia.
Qed.

Lemma at_index_never_asserts {A} (vec : list A) i : at_index vec i ≠ AssertionFailure.
Proof. unfold at_index. by destruct (0 <=? i), (vec !! Z.to_nat i). Qed.

Lemma mem_write_never_asserts (m : MemoryBuffer) p bs : mem_write m p bs ≠ AssertionFailure.
Proof. unfold mem_write. by destruct (_ && _). Qed.

Lemma setUniformImpl_bool_components_never_asserts T (fuel : nat) :
  ∀ c dst source v data,
  setUniformImpl_bool_components T fuel c dst source v data ≠ AssertionFailure.
Proof.
  induction fuel as [|fuel IH]; intros c dst source v data; [done|].
  cbn [setUniformImpl_bool_components].
  pose proof (at_index_never_asserts v (source + c)) as Hx.
  destruct (at_index v (source + c)) as [x| |]; simpl; [|done..].
  pose proof (mem_write_never_asserts data (dst + 4 * c) (encode (bool_sentinel T x))) as Hw.
  destruct (mem_write _ _ _) as [data'| |]; simpl; [apply IH|done..].
Qed.

Lemma setUniformImpl_bool_elements_never_asserts T (fuel : nat) :
  ∀ i componentCount initialArrayOffset layoutInfo v data,
  setUniformImpl_bool_elements T fuel i componentCount initialArrayOffset layoutInfo v data
  ≠ AssertionFailure.
Proof.
  induction fuel as [|fuel IH]; intros i cc base li v data; [done|].
  cbn [setUniformImpl_bool_elements].
  pose proof (setUniformImpl_bool_components_never_asserts T (Z.to_nat cc) 0
                (wrap_int (i * arrayStride li + base)) (wrap_int (i * cc)) v data) as Hc.
  destruct (setUniformImpl_bool_components _ _ _ _ _ _ _) as [data'| |]; simpl;
    [apply IH|done..].
Qed.

(** C5, what the code does.  Two [ivec4]-sized elements written from index
    1 need the bytes 16 to 48 of a 32-byte block.  On the array of the
    declared type the write goes through [UpdateDefaultUniformBlock], whose
    assertion stops it (as [UpdateDefaultUniformBlock_asserts_overrun] shows in
    general).  On the boolean array the same call runs the coercion loop,
    which has no assertion at all: it stores the second element past the end
    of the block. *)
Theorem setUniformImpl_bool_overrun_is_not_asserted :
  (∀ T fuel i componentCount initialArrayOffset layoutInfo v data,
     setUniformImpl_bool_elements T fuel i componentCount initialArrayOffset layoutInfo v data
     ≠ AssertionFailure)
  ∧ setUniformImpl GLint overrun_program 0 2 [1; 2; 3; 4; 5; 6; 7; 8] GL_INT_VEC4
    = AssertionFailure
  ∧ setUniformImpl GLint overrun_program 1 2 [1; 2; 3; 4; 5; 6; 7; 8] GL_INT_VEC4
    = OutOfBounds
  ∧ setUniformImpl_bool_elements GLint 1 1 4 16 (mkBlockMemberInfo 0 16 0 false)
      [1; 2; 3; 4; 5; 6; 7; 8] (replicate 32 Init.Byte.xaa)
    = OutOfBounds.
Proof.
  split; [intros; apply setUniformImpl_bool_elements_never_asserts|]. by vm_compute.
Qed.

(** ** The layout pass *)

Lemma lookup_in_stages_spec layoutMap uniformName stages :
  ∀ found layoutInfo,
  let '(found', layoutInfo') :=
    lookup_in_stages layoutMap uniformName stages found layoutInfo in
  (found' = true ↔ found = true ∨ ∃ s, s ∈ stages ∧ is_Some (layoutMap s !! uniformName))
  ∧ ∀ s, layoutInfo' s
         = if decide (s ∈ stages) then default (layoutInfo s) (layoutMap s !! uniformName)
           else layoutInfo s.
Proof.
  induction stages as [|a stages IH]; intros found layoutInfo.
  { cbn [lookup_in_stages]. split.
    - split; [by left|]. intros [?|(s & Hs & _)]; [done|]. by apply elem_of_nil in Hs.
    - intros s. by destruct (decide (s ∈ [])) as [Hs%elem_of_nil|]. }
  cbn [lookup_in_stages]. destruct (layoutMap a !! uniformName) as [info|] eqn:Ha.
  - specialize (IH true (<[a := info]> layoutInfo)).
    destruct (lookup_in_stages _ _ stages true _) as [found' layoutInfo'].
    destruct IH as [Hf Hl]. split.
    + split; [|intros _; apply Hf; by left].
      intros _. right. exists a. split; [by left|]. by rewrite Ha.
    + intros s. rewrite Hl. destruct (decide (s = a)) as [->|Hne].
      * rewrite fn_lookup_insert, Ha. simpl.
        rewrite (decide_True (P := a ∈ a :: stages)) by (by left).
        by case_decide.
      * rewrite fn_lookup_insert_ne by done.
        case_decide as Hs.
        -- by rewrite (decide_True (P := s ∈ a :: stages)) by (by right).
        -- rewrite (decide_False (P := s ∈ a :: stages)); [done|].
           intros [?|?]%elem_of_cons; done.
  - specialize (IH found layoutInfo).
    destruct (lookup_in_stages _ _ stages found _) as [found' layoutInfo'].
    destruct IH as [Hf Hl]. split.
    + rewrite Hf. split; intros [?|(s & Hs & Hsome)]; auto.
      * right. exists s. split; [by right|done].
      * apply elem_of_cons in Hs as [->|Hs]; [|by eauto].
        rewrite Ha in Hsome. by destruct Hsome.
    + intros s. rewrite Hl. destruct (decide (s = a)) as [->|Hne].
      * rewrite (decide_True (P := a ∈ a :: stages)) by (by left).
        rewrite Ha. simpl. by case_decide.
      * case_decide as Hs.
        -- by rewrite (decide_True (P := s ∈ a :: stages)) by (by right).
        -- rewrite (decide_False (P := s ∈ a :: stages)); [done|].
           intros [?|?]%elem_of_cons; done.
Qed.

(** C7, as the code has it.  For a used location that is not ignored, whose
    uniform is in the default block and is neither a sampler, nor an image,
    nor a fragment in/out variable, the name looked up is the uniform's name,
    with the trailing array index stripped when it is an array.  When some
    linked stage has that name, the result holds for each linked stage the
    record of its map, or the all [-1] record where the map has none; when no
    linked stage has it, the call fails its assertion. *)
Theorem location_layoutInfo_looks_up_stripped_name
    (state : ProgramState) (layoutMap : ShaderMap (gmap string BlockMemberInfo))
    (location : VariableLocation) (uniform : LinkedUniform) :
  let uniformName :=
    if isArray uniform then StripLastArrayIndex (name uniform) else name uniform in
  used location = true → ignored location = false →
  at_index (getUniforms state) (index location) = Done uniform →
  isInDefaultBlock uniform = true → isSampler uniform = false →
  isImage uniform = false → isFragmentInOut uniform = false →
  (isArray uniform = true → String.length uniformName ≠ String.length (name uniform)) →
  ((∃ s, getLinkedShaderStages state s = true ∧ is_Some (layoutMap s !! uniformName)) →
   ∃ layoutInfo,
     location_layoutInfo state layoutMap location = Done layoutInfo
     ∧ ∀ s, layoutInfo s
            = if getLinkedShaderStages state s
              then default kDefaultBlockMemberInfo (layoutMap s !! uniformName)
              else kDefaultBlockMemberInfo)
  ∧ ((∀ s, getLinkedShaderStages state s = true → layoutMap s !! uniformName = None) →
     location_layoutInfo state layoutMap location = AssertionFailure).
Proof.
  intros uniformName Hused Hign Hu Hdef Hsamp Himg Hfio Hstrip.
  assert (lookup_name uniform = Done uniformName) as Hname.
  { unfold lookup_name, uniformName in *. destruct (isArray uniform); [|done]. simpl.
    rewrite ASSERT_true; [done|]. apply negb_true_iff, Nat.eqb_neq. by apply Hstrip. }
  unfold location_layoutInfo. rewrite Hused, Hign, Hu. simpl.
  rewrite Hdef, Hsamp, Himg, Hfio, Hname. simpl.
  pose proof (lookup_in_stages_spec layoutMap uniformName
                (ShaderBitSet_iterate (getLinkedShaderStages state)) false
                (λ _, kDefaultBlockMemberInfo)) as Hspec.
  destruct (lookup_in_stages _ _ _ _ _) as [found layoutInfo'].
  destruct Hspec as [Hfound Hlayout]. split.
  - intros (s & Hs & Hsome).
    assert (found = true) as ->.
    { apply Hfound. right. exists s. by rewrite ShaderBitSet_iterate_elem. }
    simpl. exists layoutInfo'. split; [done|].
    intros s'. rewrite Hlayout.
    destruct (getLinkedShaderStages state s') eqn:Hs'.
    + rewrite decide_True; [done|]. by apply ShaderBitSet_iterate_elem.
    + rewrite decide_False; [done|]. rewrite ShaderBitSet_iterate_elem. congruence.
  - intros Hnone. destruct found; [|done].
    destruct Hfound as [Hfound _]. destruct (Hfound eq_refl) as [?|(s & Hs & Hsome)]; [done|].
    apply ShaderBitSet_iterate_elem in Hs. rewrite (Hnone s Hs) in Hsome. by destruct Hsome.
Qed.

Lemma location_layoutInfo_looks_up_stripped_name_witness :
  StripLastArrayIndex "lights[0]" = "lights"
  ∧ ∃ layoutInfo,
      location_layoutInfo layout_example_state layout_example_map (mkVariableLocation 0 0 false true)
      = Done layoutInfo
      ∧ layoutInfo Fragment = mkBlockMemberInfo 0 16 0 false
      ∧ layoutInfo Vertex = kDefaultBlockMemberInfo.
Proof.
  split; [reflexivity|].
  destruct (location_layoutInfo_looks_up_stripped_name layout_example_state
              layout_example_map (mkVariableLocation 0 0 false true)
              (mkLinkedUniform "lights[0]" GL_FLOAT_VEC4
                 (mkUniformTypeInfo GL_FLOAT_VEC4 GL_FLOAT 4)
                 false false true false true 2 (Some Fragment)))
    as [Hfound _]; try reflexivity.
  - intros _. vm_compute. lia.
  - destruct Hfound as (layoutInfo & Hrun & Hl).
    + exists Fragment. split; [reflexivity|]. by eexists.
    + exists layoutInfo. split; [exact Hrun|]. by rewrite !Hl.
Defined.

(** C7 as it is worded fails for a fragment in/out variable: the location
    is used and not ignored, the variable is in the default block and is
    neither a sampler nor an image, no stage has its name, and the result is
    the all [-1] record without any assertion. *)
Lemma fragment_inout_location_gets_sentinel_silently :
  let location := mkVariableLocation 0 1 false true in
  used location = true ∧ ignored location = false
  ∧ (∃ uniform,
       at_index (getUniforms layout_example_state) (index location) = Done uniform
       ∧ isInDefaultBlock uniform = true ∧ isSampler uniform = false
       ∧ isImage uniform = false
       ∧ ∀ s, layout_example_map s !! name uniform = None)
  ∧ location_layoutInfo layout_example_state layout_example_map location
    = Done (λ _, kDefaultBlockMemberInfo).
Proof.
  repeat split. eexists. repeat split. by intros [].
Qed.

(** ** The layout encoder *)

Section Encoder_properties.
Variable IsOpaqueType : GLenum → bool.
Variable Std140_getBlockLayoutInfo : Z → GLenum → list Z → bool → Z * Z * Z.
Variable Std140_advanceOffset : Z → GLenum → list Z → bool → Z → Z → Z.

Lemma GetActiveUniformBlockInfo_skips_opaque (skipped : list ShaderVariable) :
  Forall (λ u, IsOpaqueType (sv_type u) = true) skipped →
  ∀ before after blockEncoder blockLayoutMapOut,
  GetActiveUniformBlockInfo IsOpaqueType Std140_getBlockLayoutInfo Std140_advanceOffset
    (before ++ skipped ++ after) blockEncoder blockLayoutMapOut
  = GetActiveUniformBlockInfo IsOpaqueType Std140_getBlockLayoutInfo Std140_advanceOffset
      (before ++ after) blockEncoder blockLayoutMapOut.
Proof.
  intros Hop before. induction before as [|u before IH]; intros after cursor m.
  - simpl. induction Hop as [|u skipped Hu _ IH]; [done|]. simpl. by rewrite Hu.
  - simpl. destruct (IsOpaqueType (sv_type u)); [apply IH|].
    destruct (encodeType _ _ _ _ _ _ _) as [info cursor']. apply IH.
Qed.
End Encoder_properties.

(** C8.  For a list of uniforms that is empty or has only opaque-typed
    members, [InitDefaultUniformBlock] gives the size 0 and leaves the (empty)
    map empty; an opaque-typed member never advances the cursor, neither in
    [advanceOffset] nor in the traversal, wherever it stands in the list. *)
Theorem InitDefaultUniformBlock_of_opaque_uniforms
    (IsOpaqueType : GLenum → bool)
    (Std140_getBlockLayoutInfo : Z → GLenum → list Z → bool → Z * Z * Z)
    (Std140_advanceOffset : Z → GLenum → list Z → bool → Z → Z → Z)
    (uniforms : list ShaderVariable) :
  Forall (λ u, IsOpaqueType (sv_type u) = true) uniforms →
  InitDefaultUniformBlock IsOpaqueType Std140_getBlockLayoutInfo Std140_advanceOffset
    uniforms ∅ = (∅, 0)
  ∧ InitDefaultUniformBlock IsOpaqueType Std140_getBlockLayoutInfo Std140_advanceOffset
      [] ∅ = (∅, 0)
  ∧ (∀ mCurrentOffset type arraySizes isRowMajorMatrix arrayStride matrixStride,
       IsOpaqueType type = true →
       advanceOffset IsOpaqueType Std140_advanceOffset mCurrentOffset type arraySizes
         isRowMajorMatrix arrayStride matrixStride = mCurrentOffset)
  ∧ (∀ before after blockEncoder blockLayoutMapOut,
       GetActiveUniformBlockInfo IsOpaqueType Std140_getBlockLayoutInfo Std140_advanceOffset
         (before ++ uniforms ++ after) blockEncoder blockLayoutMapOut
       = GetActiveUniformBlockInfo IsOpaqueType Std140_getBlockLayoutInfo
           Std140_advanceOffset (before ++ after) blockEncoder blockLayoutMapOut).
Proof.
  intros Hop.
  pose proof (GetActiveUniformBlockInfo_skips_opaque IsOpaqueType Std140_getBlockLayoutInfo
                Std140_advanceOffset uniforms Hop) as Hskip.
  split; [|split; [done|split; [|done]]].
  - unfold InitDefaultUniformBlock. destruct uniforms as [|u uniforms]; [done|].
    specialize (Hskip [] [] 0 ∅). rewrite app_nil_r in Hskip. simpl app in Hskip.
    by rewrite Hskip.
  - intros. unfold advanceOffset. by rewrite H.
Qed.

Lemma InitDefaultUniformBlock_of_opaque_uniforms_witness :
  InitDefaultUniformBlock example_IsOpaqueType example_getBlockLayoutInfo
    example_advanceOffset
    [ mkShaderVariable "tex" GL_SAMPLER_2D [] false;
      mkShaderVariable "img" GL_IMAGE_2D [] false ] ∅
  = (∅, 0).
Proof.
  apply (InitDefaultUniformBlock_of_opaque_uniforms example_IsOpaqueType
           example_getBlockLayoutInfo example_advanceOffset).
  repeat constructor.
Defined.


(** * Further properties of the accessors and of the layout pass *)

(** ** What the setters keep *)

Lemma UpdateDefaultUniformBlock_loop_size sizeofT (fuel : nat) :
  ∀ writeIndex readIndex componentCount elementSize v layoutInfo
    (uniformData uniformData' : MemoryBuffer),
  UpdateDefaultUniformBlock_loop sizeofT fuel writeIndex readIndex componentCount
    elementSize v layoutInfo uniformData = Done uniformData' →
  MemoryBuffer_size uniformData' = MemoryBuffer_size uniformData.
Proof.
  induction fuel as [|fuel IH]; intros w r cc e v li data data' Hrun.
  { simpl in Hrun. by simplify_eq. }
  cbn [UpdateDefaultUniformBlock_loop] in Hrun.
  apply bind_Done in Hrun as (_ & _ & Hrun).
  apply bind_Done in Hrun as (data1 & Hcpy & Hrun).
  apply memcpy_inv in Hcpy as (_ & _ & _ & _ & _ & Hsz & _).
  rewrite (IH _ _ _ _ _ _ _ _ Hrun). exact Hsz.
Qed.

Lemma UpdateDefaultUniformBlock_size sizeofT count arrayIndex componentCount v layoutInfo
    (uniformData uniformData' : MemoryBuffer) :
  UpdateDefaultUniformBlock sizeofT count arrayIndex componentCount v layoutInfo uniformData
    = Done uniformData' →
  MemoryBuffer_size uniformData' = MemoryBuffer_size uniformData.
Proof.
  unfold UpdateDefaultUniformBlock. destruct (_ || _).
  - intros (_ & _ & Hcpy)%bind_Done. by apply memcpy_inv in Hcpy as (_ & _ & _ & _ & _ & Hsz & _).
  - apply UpdateDefaultUniformBlock_loop_size.
Qed.

Lemma setUniformImpl_bool_components_size T (fuel : nat) :
  ∀ c dst source v (data data' : MemoryBuffer),
  setUniformImpl_bool_components T fuel c dst source v data = Done data' →
  MemoryBuffer_size data' = MemoryBuffer_size data.
Proof.
  induction fuel as [|fuel IH]; intros c dst source v data data' Hrun.
  { simpl in Hrun. by simplify_eq. }
  cbn [setUniformImpl_bool_components] in Hrun.
  apply bind_Done in Hrun as (x & _ & Hrun).
  apply bind_Done in Hrun as (data1 & Hw%mem_write_size & Hrun).
  rewrite (IH _ _ _ _ _ _ Hrun). exact Hw.
Qed.

Lemma setUniformImpl_bool_elements_size T (fuel : nat) :
  ∀ i componentCount initialArrayOffset layoutInfo v (data data' : MemoryBuffer),
  setUniformImpl_bool_elements T fuel i componentCount initialArrayOffset layoutInfo v data
    = Done data' →
  MemoryBuffer_size data' = MemoryBuffer_size data.
Proof.
  induction fuel as [|fuel IH]; intros i cc base li v data data' Hrun.
  { simpl in Hrun. by simplify_eq. }
  cbn [setUniformImpl_bool_elements] in Hrun.
  apply bind_Done in Hrun as (data1 & H1%setUniformImpl_bool_components_size & Hrun).
  rewrite (IH _ _ _ _ _ _ _ Hrun). exact H1.
Qed.

Lemma setUniformImpl_write_size T count v entryPointType locationInfo linkedUniform
    layoutInfo (data data' : MemoryBuffer) :
  setUniformImpl_write T count v entryPointType locationInfo linkedUniform layoutInfo data
    = Done data' →
  MemoryBuffer_size data' = MemoryBuffer_size data.
Proof.
  unfold setUniformImpl_write, bool_write. destruct (_ =? _).
  - apply UpdateDefaultUniformBlock_size.
  - intros (_ & _ & Hrun)%bind_Done. by apply setUniformImpl_bool_elements_size in Hrun.
Qed.

Lemma for_each_stage_write_sizes F location stages exe exe' :
  (∀ layoutInfo (data data' : MemoryBuffer),
     F layoutInfo data = Done data' → MemoryBuffer_size data' = MemoryBuffer_size data) →
  for_each_stage (stage_write F location) stages exe = Done exe' →
  ∀ s, MemoryBuffer_size (blockData exe' s) = MemoryBuffer_size (blockData exe s).
Proof.
  intros HF.
  apply (for_each_stage_rel _
           (λ x y, ∀ s, MemoryBuffer_size (blockData y s) = MemoryBuffer_size (blockData x s))).
  - done.
  - intros x y z Hxy Hyz s. by rewrite Hyz.
  - intros st x y _ (li & _ & [[_ ->]|(_ & d' & Hd' & ->)])%stage_write_inv s; [done|].
    rewrite blockData_set. case_decide; [subst; by eapply HF|done].
Qed.

(** X1.  No setter changes the program state, the layout tables or the size of a
    block: a successful [setUniformImpl] or [setUniformMatrixfv] leaves
    [mState] and every [uniformLayout] as they were, and [setUniformImpl]
    leaves every block with the number of bytes it had. *)
Theorem setters_keep_layout_and_block_sizes
    (Run : Z → Z → Z → Z → Z → bool → list Z → MemoryBuffer → Z → outcome MemoryBuffer)
    (p p' : ProgramVk) (c : write_call) :
  run_write Run p c = Done p' →
  mState p' = mState p
  ∧ (∀ s, blockLayout (mExecutable p') s = blockLayout (mExecutable p) s)
  ∧ (∀ T location count v entryPointType,
       c = SetUniform T location count v entryPointType →
       ∀ s, MemoryBuffer_size (blockData (mExecutable p') s)
            = MemoryBuffer_size (blockData (mExecutable p) s)).
Proof.
  intros Hrun. destruct (run_write_inv _ _ _ _ Hrun) as (F & exe' & Hloop & ->). simpl.
  split; [done|]. split.
  { by apply (for_each_stage_write_frame _ _ _ _ _ Hloop). }
  intros T location count v entryPointType -> s. simpl in Hrun.
  pose proof Hrun as Hrun0. unfold setUniformImpl in Hrun0.
  apply bind_Done in Hrun0 as (locationInfo & Hloc & Hrun0).
  apply bind_Done in Hrun0 as (linkedUniform & Hu & Hrun0).
  apply bind_Done in Hrun0 as (_ & Hs%ASSERT_Done%negb_true_iff & _).
  rewrite (setUniformImpl_unfold T p location count v entryPointType _ _ Hloc Hu Hs) in Hrun.
  apply bind_Done in Hrun as (exe'' & Hrun & Heq). simplify_eq.
  eapply for_each_stage_write_sizes; [|exact Hrun].
  intros li data data'. apply setUniformImpl_write_size.
Qed.

Lemma setters_keep_layout_and_block_sizes_witness :
  ∃ p', setUniform4fv example_program 0 1 example_floats = Done p'
        ∧ mState p' = mState example_program
        ∧ blockLayout (mExecutable p') Fragment
          = blockLayout (mExecutable example_program) Fragment
        ∧ MemoryBuffer_size (blockData (mExecutable p') Fragment) = 32.
Proof.
  assert (∃ p', run_write example_Run example_program
                  (SetUniform GLfloat 0 1 example_floats GL_FLOAT_VEC4) = Done p') as [p' Hrun]
    by (eexists; vm_compute; reflexivity).
  destruct (setters_keep_layout_and_block_sizes example_Run example_program p' _ Hrun)
    as (Hstate & Hlayout & Hsize).
  exists p'. split; [exact Hrun|]. split; [exact Hstate|]. split; [apply Hlayout|].
  by rewrite (Hsize GLfloat 0 1 example_floats GL_FLOAT_VEC4 eq_refl Fragment).
Defined.

Lemma setUniformImpl_keeps T p location count v entryPointType p' :
  setUniformImpl T p location count v entryPointType = Done p' →
  mState p' = mState p
  ∧ (∀ s, blockLayout (mExecutable p') s = blockLayout (mExecutable p) s)
  ∧ (∀ s, MemoryBuffer_size (blockData (mExecutable p') s)
          = MemoryBuffer_size (blockData (mExecutable p) s)).
Proof.
  intros Hrun. pose proof Hrun as Hrun0. unfold setUniformImpl in Hrun0.
  apply bind_Done in Hrun0 as (locationInfo & Hloc & Hrun0).
  apply bind_Done in Hrun0 as (linkedUniform & Hu & Hrun0).
  apply bind_Done in Hrun0 as (_ & Hs%ASSERT_Done%negb_true_iff & _).
  rewrite (setUniformImpl_unfold T p location count v entryPointType _ _ Hloc Hu Hs) in Hrun.
  apply bind_Done in Hrun as (exe' & Hrun & Heq). simplify_eq. simpl.
  split; [done|]. split.
  - by apply (for_each_stage_write_frame _ _ _ _ _ Hrun).
  - eapply for_each_stage_write_sizes; [|exact Hrun].
    intros li data data'. apply setUniformImpl_write_size.
Qed.

Lemma write_ready_kept p p' location count locationInfo linkedUniform :
  mState p' = mState p →
  (∀ s, blockLayout (mExecutable p') s = blockLayout (mExecutable p) s) →
  (∀ s, MemoryBuffer_size (blockData (mExecutable p') s)
        = MemoryBuffer_size (blockData (mExecutable p) s)) →
  write_ready p location count locationInfo linkedUniform →
  write_ready p' location count locationInfo linkedUniform.
Proof.
  intros Hstate Hlayout Hsize (Hloc & Hu & Hidx & Hcount & Hmax & Hcc & Hstages).
  unfold write_ready. rewrite Hstate. repeat (split; [done|]).
  intros s Hs. destruct (Hstages s Hs) as (li & Hli & Hfits).
  exists li. rewrite Hlayout. split; [done|].
  destruct Hfits as [?|Hfits]; [by left|right].
  unfold fits in *. by rewrite Hsize.
Qed.

Lemma read_ready_kept p p' location linkedUniform shaderType layoutInfo :
  mState p' = mState p →
  (∀ s, blockLayout (mExecutable p') s = blockLayout (mExecutable p) s) →
  read_ready p location linkedUniform shaderType layoutInfo →
  read_ready p' location linkedUniform shaderType layoutInfo.
Proof.
  intros Hstate Hlayout (Hfirst & Hlinked & Hli & Ho).
  unfold read_ready. by rewrite Hstate, Hlayout.
Qed.

(** X2.  The last write wins: of two successive writes to a location, a read
    returns the first element of the second one, whatever the first one
    stored and however many elements either had. *)
Theorem setUniformImpl_last_write_wins
    (Get : GLtype → GLenum → list byte → MemoryBuffer → Z → bool → outcome (list byte))
    (T1 T2 T' : GLtype) (p : ProgramVk) (location count1 count2 : Z) (v1 v2 : list Z)
    (dst : list byte) (setType1 setType2 getType : GLenum)
    (locationInfo : VariableLocation) (linkedUniform : LinkedUniform)
    (shaderType : ShaderType) (layoutInfo : BlockMemberInfo) :
  let cc := componentCount (typeInfo linkedUniform) in
  write_ready p location count1 locationInfo linkedUniform →
  write_ready p location count2 locationInfo linkedUniform →
  read_ready p location linkedUniform shaderType layoutInfo →
  isSampler linkedUniform = false → isImage linkedUniform = false →
  IsMatrixType (type linkedUniform) = false →
  typeInfo_type (typeInfo linkedUniform) = setType1
  ∨ typeInfo_type (typeInfo linkedUniform) = VariableBoolVectorType setType1 →
  typeInfo_type (typeInfo linkedUniform) = setType2
  ∨ typeInfo_type (typeInfo linkedUniform) = VariableBoolVectorType setType2 →
  componentType (typeInfo linkedUniform) = getType
  ∨ componentType (typeInfo linkedUniform) = VariableBoolVectorType getType →
  count1 * cc <= Z.of_nat (length v1) → 4 * Z.of_nat (length v1) < 2 ^ 31 →
  count2 * cc <= Z.of_nat (length v2) → 4 * Z.of_nat (length v2) < 2 ^ 31 →
  4 * cc <= MemoryBuffer_size dst →
  ∃ p1 p2,
    setUniformImpl T1 p location count1 v1 setType1 = Done p1
    ∧ setUniformImpl T2 p1 location count2 v2 setType2 = Done p2
    ∧ getUniformImpl Get T' p2 location dst getType
      = Done (encode_array (written_value T2 linkedUniform setType2 <$> take (Z.to_nat cc) v2)
              ++ drop (Z.to_nat (4 * cc)) dst).
Proof.
  intros cc Hw1 Hw2 Hr Hsampler Himage Hmat Hset1 Hset2 Hget Hv1 Hv1' Hv2 Hv2' Hdst.
  destruct (setUniformImpl_Done T1 p location count1 v1 setType1 locationInfo linkedUniform)
    as (p1 & Hrun1 & _); try done.
  destruct (setUniformImpl_keeps _ _ _ _ _ _ _ Hrun1) as (Hstate & Hlayout & Hsize).
  destruct (setUniformImpl_getUniformImpl Get T2 T' p1 location count2 v2 dst setType2 getType
              locationInfo linkedUniform shaderType layoutInfo)
    as (p2 & Hrun2 & Hread); try done.
  - by apply (write_ready_kept p).
  - by apply (read_ready_kept p).
  - by exists p1, p2.
Qed.

Lemma setUniformImpl_last_write_wins_witness :
  ∃ p1 p2,
    setUniform4iv example_program 1 1 [0; 5; -3; 0] = Done p1
    ∧ setUniform4fv p1 1 1 [0x3F800000; 0; 0x80000000; 0x40000000] = Done p2
    ∧ getUniformiv example_GetMatrixUniform p2 1 (replicate 16 Init.Byte.x00)
      = Done (encode_array [GL_TRUE; GL_FALSE; GL_FALSE; GL_TRUE]).
Proof.
  destruct (setUniformImpl_last_write_wins example_GetMatrixUniform GLint GLfloat GLint
              example_program 1 1 1 [0; 5; -3; 0] [0x3F800000; 0; 0x80000000; 0x40000000]
              (replicate 16 Init.Byte.x00) GL_INT_VEC4 GL_FLOAT_VEC4 GL_INT
              (mkVariableLocation 0 1 false true)
              (example_uniform "flags" GL_BOOL_VEC4 GL_BOOL 4 false false (Some Fragment))
              Fragment (mkBlockMemberInfo 0 0 0 false))
    as (p1 & p2 & Hrun1 & Hrun2 & Hread).
  - eapply example_write_ready; try reflexivity; try done; example_fits.
  - eapply example_write_ready; try reflexivity; try done; example_fits.
  - repeat split; done.
  - reflexivity.
  - reflexivity.
  - reflexivity.
  - by right.
  - by right.
  - by right.
  - vm_compute. congruence.
  - vm_compute. congruence.
  - vm_compute. congruence.
  - vm_compute. congruence.
  - vm_compute. congruence.
  - exists p1, p2. split; [exact Hrun1|]. split; [exact Hrun2|].
    unfold getUniformiv. rewrite Hread. reflexivity.
Defined.

(** ** Arrays: every element, every stage *)

Lemma fits_element layoutInfo (data : MemoryBuffer) arrayIndex count elementSize i :
  fits layoutInfo data arrayIndex count elementSize → 0 <= arrayIndex → 0 <= i < count →
  0 <= elementSize →
  0 <= offset layoutInfo
  ∧ 0 <= (arrayIndex + i) * arrayStride layoutInfo < 2 ^ 31
  ∧ offset layoutInfo + (arrayIndex + i) * arrayStride layoutInfo + elementSize
    <= MemoryBuffer_size data.
Proof.
  intros (Ho & Hs & _ & Hfit & Hsz) Hidx Hi He.
  assert (0 <= (arrayIndex + i) * arrayStride layoutInfo
          <= (arrayIndex + count - 1) * arrayStride layoutInfo) by nia.
  lia.
Qed.

(** The bytes of element [i] of a write, in a stage that has the variable. *)
Lemma setUniformImpl_element_bytes T p location count v entryPointType
    locationInfo linkedUniform :
  let cc := componentCount (typeInfo linkedUniform) in
  write_ready p location count locationInfo linkedUniform →
  isSampler linkedUniform = false →
  typeInfo_type (typeInfo linkedUniform) = entryPointType
  ∨ typeInfo_type (typeInfo linkedUniform) = VariableBoolVectorType entryPointType →
  count * cc <= Z.of_nat (length v) → 4 * Z.of_nat (length v) < 2 ^ 31 →
  ∃ p',
    setUniformImpl T p location count v entryPointType = Done p'
    ∧ mState p' = mState p
    ∧ (∀ s, blockLayout (mExecutable p') s = blockLayout (mExecutable p) s)
    ∧ (∀ s layoutInfo i,
         getLinkedShaderStages (mState p) s = true →
         at_index (blockLayout (mExecutable p) s) location = Done layoutInfo →
         offset layoutInfo ≠ -1 → 0 <= i < count →
         MemoryBuffer_size (blockData (mExecutable p') s)
         = MemoryBuffer_size (blockData (mExecutable p) s)
         ∧ (∀ k y,
              (written_value T linkedUniform entryPointType
               <$> take (Z.to_nat cc) (drop (Z.to_nat (i * cc)) v)) !! k = Some y →
              mem_read (blockData (mExecutable p') s)
                (offset layoutInfo + (arrayIndex locationInfo + i) * arrayStride layoutInfo
                 + 4 * Z.of_nat k) 4 = Done (encode y))
         ∧ mem_read (blockData (mExecutable p') s)
             (offset layoutInfo + (arrayIndex locationInfo + i) * arrayStride layoutInfo)
             (4 * cc)
           = Done (encode_array
                     (written_value T linkedUniform entryPointType
                      <$> take (Z.to_nat cc) (drop (Z.to_nat (i * cc)) v)))).
Proof.
  intros cc Hw Hsampler Hty Hsrc Hvsz.
  destruct (setUniformImpl_Done T p location count v entryPointType locationInfo linkedUniform)
    as (p' & Hrun & Hstate & (Hlayout & _) & Hres); try done.
  pose proof Hw as (_ & _ & Hidx & Hcount & _ & Hcc & Hstages). fold cc in Hcc.
  exists p'. split; [done|]. split; [done|]. split; [done|].
  intros s li i Hs Hli Ho Hi.
  destruct (Hres s li Hs Hli Ho) as (_ & Hsz & Hchunks & _).
  destruct (Hstages s Hs) as (li' & Hli' & [?|Hfits]); [congruence|].
  replace li' with li in * by congruence.
  destruct (fits_element _ _ _ _ _ i Hfits Hidx Hi) as (Ho' & Hprod & Hhi); [lia|].
  fold cc in Hhi.
  assert (Hlen : Z.of_nat (length (written_value T linkedUniform entryPointType
                   <$> take (Z.to_nat cc) (drop (Z.to_nat (i * cc)) v))) = cc).
  { rewrite length_fmap, length_take, length_drop. nia. }
  assert (Hk : ∀ k y,
            (written_value T linkedUniform entryPointType
             <$> take (Z.to_nat cc) (drop (Z.to_nat (i * cc)) v)) !! k = Some y →
            mem_read (blockData (mExecutable p') s)
              (offset li + (arrayIndex locationInfo + i) * arrayStride li
               + 4 * Z.of_nat k) 4 = Done (encode y)).
  { intros k y Hy. apply list_lookup_fmap_Some in Hy as (x & -> & Hx).
    apply lookup_take_Some in Hx as [Hx Hk]. rewrite lookup_drop in Hx.
    apply (Hchunks i (Z.of_nat k) x); [lia|lia|].
    rewrite <- Hx. f_equal. nia. }
  split; [done|]. split; [exact Hk|].
  rewrite <- Hlen at 1. apply mem_read_chunks; [lia|rewrite Hlen, Hsz; lia|exact Hk].
Qed.

(** X3.  Every stage gets the same bytes: after a write of [count] elements, each
    linked stage that has the variable holds, at the place of element
    [arrayIndex + i] in its own layout, the stored form of source element
    [i]; so two such stages agree on every written element, whatever their
    offsets and strides. *)
Theorem setUniformImpl_stages_agree
    (T : GLtype) (p : ProgramVk) (location count : Z) (v : list Z) (entryPointType : GLenum)
    (locationInfo : VariableLocation) (linkedUniform : LinkedUniform) :
  let cc := componentCount (typeInfo linkedUniform) in
  write_ready p location count locationInfo linkedUniform →
  isSampler linkedUniform = false →
  typeInfo_type (typeInfo linkedUniform) = entryPointType
  ∨ typeInfo_type (typeInfo linkedUniform) = VariableBoolVectorType entryPointType →
  count * cc <= Z.of_nat (length v) → 4 * Z.of_nat (length v) < 2 ^ 31 →
  ∃ p',
    setUniformImpl T p location count v entryPointType = Done p'
    ∧ (∀ s layoutInfo i,
         getLinkedShaderStages (mState p) s = true →
         at_index (blockLayout (mExecutable p) s) location = Done layoutInfo →
         offset layoutInfo ≠ -1 → 0 <= i < count →
         mem_read (blockData (mExecutable p') s)
           (offset layoutInfo + (arrayIndex locationInfo + i) * arrayStride layoutInfo)
           (4 * cc)
         = Done (encode_array
                   (written_value T linkedUniform entryPointType
                    <$> take (Z.to_nat cc) (drop (Z.to_nat (i * cc)) v))))
    ∧ (∀ s1 s2 layoutInfo1 layoutInfo2 i,
         getLinkedShaderStages (mState p) s1 = true →
         getLinkedShaderStages (mState p) s2 = true →
         at_index (blockLayout (mExecutable p) s1) location = Done layoutInfo1 →
         at_index (blockLayout (mExecutable p) s2) location = Done layoutInfo2 →
         offset layoutInfo1 ≠ -1 → offset layoutInfo2 ≠ -1 → 0 <= i < count →
         mem_read (blockData (mExecutable p') s1)
           (offset layoutInfo1 + (arrayIndex locationInfo + i) * arrayStride layoutInfo1)
           (4 * cc)
         = mem_read (blockData (mExecutable p') s2)
             (offset layoutInfo2 + (arrayIndex locationInfo + i) * arrayStride layoutInfo2)
             (4 * cc)).
Proof.
  intros cc Hw Hsampler Hty Hsrc Hvsz.
  destruct (setUniformImpl_element_bytes T p location count v entryPointType
              locationInfo linkedUniform) as (p' & Hrun & _ & _ & Hone); try done.
  exists p'. split; [done|]. split.
  - intros s li i Hs Hli Ho Hi. by apply Hone.
  - intros s1 s2 li1 li2 i Hs1 Hs2 Hli1 Hli2 Ho1 Ho2 Hi.
    destruct (Hone s1 li1 i) as (_ & _ & H1); try done.
    destruct (Hone s2 li2 i) as (_ & _ & H2); try done.
    exact (eq_trans H1 (eq_sym H2)).
Qed.

Lemma setUniformImpl_stages_agree_witness :
  ∃ p', setUniform4fv example_program 0 1 example_floats = Done p'
        ∧ mem_read (blockData (mExecutable p') Vertex) (0 + (0 + 0) * 0) (4 * 4)
          = mem_read (blockData (mExecutable p') Fragment) (16 + (0 + 0) * 0) (4 * 4).
Proof.
  destruct (setUniformImpl_stages_agree GLfloat example_program 0 1 example_floats
              GL_FLOAT_VEC4 (mkVariableLocation 0 0 false true)
              (example_uniform "color" GL_FLOAT_VEC4 GL_FLOAT 4 false false (Some Vertex)))
    as (p' & Hrun & _ & Hagree).
  - eapply example_write_ready; try reflexivity; try done; example_fits.
  - reflexivity.
  - by left.
  - vm_compute. congruence.
  - vm_compute. congruence.
  - exists p'. split; [exact Hrun|].
    apply (Hagree Vertex Fragment (mkBlockMemberInfo 0 0 0 false)
             (mkBlockMemberInfo 16 0 0 false) 0); try reflexivity; simpl; lia.
Defined.

(** X4.  A write of [count] elements through the location of one array element
    is seen through the locations of the following elements: reading the
    location of element [arrayIndex + i] of the same uniform, for [i] below
    [count], returns source element [i] in its stored form. *)
Theorem setUniformImpl_then_getUniformImpl_of_later_element
    (Get : GLtype → GLenum → list byte → MemoryBuffer → Z → bool → outcome (list byte))
    (T T' : GLtype) (p : ProgramVk) (location location' count i : Z) (v : list Z)
    (dst : list byte) (setType getType : GLenum)
    (locationInfo locationInfo' : VariableLocation) (linkedUniform : LinkedUniform)
    (shaderType : ShaderType) (layoutInfo : BlockMemberInfo) :
  let cc := componentCount (typeInfo linkedUniform) in
  write_ready p location count locationInfo linkedUniform →
  read_ready p location linkedUniform shaderType layoutInfo →
  at_index (getUniformLocations (mState p)) location' = Done locationInfo' →
  index locationInfo' = index locationInfo →
  arrayIndex locationInfo' = arrayIndex locationInfo + i → 0 <= i < count →
  at_index (blockLayout (mExecutable p) shaderType) location' = Done layoutInfo →
  isSampler linkedUniform = false → isImage linkedUniform = false →
  IsMatrixType (type linkedUniform) = false →
  typeInfo_type (typeInfo linkedUniform) = setType
  ∨ typeInfo_type (typeInfo linkedUniform) = VariableBoolVectorType setType →
  componentType (typeInfo linkedUniform) = getType
  ∨ componentType (typeInfo linkedUniform) = VariableBoolVectorType getType →
  count * cc <= Z.of_nat (length v) → 4 * Z.of_nat (length v) < 2 ^ 31 →
  4 * cc <= MemoryBuffer_size dst →
  ∃ p',
    setUniformImpl T p location count v setType = Done p'
    ∧ getUniformImpl Get T' p' location' dst getType
      = Done (encode_array
                (written_value T linkedUniform setType
                 <$> take (Z.to_nat cc) (drop (Z.to_nat (i * cc)) v))
              ++ drop (Z.to_nat (4 * cc)) dst).
Proof.
  intros cc Hw Hr Hloc' Hindex Harr Hi Hli' Hsampler Himage Hmat Hset Hget Hsrc Hvsz Hdst.
  destruct (setUniformImpl_element_bytes T p location count v setType
              locationInfo linkedUniform) as (p' & Hrun & Hstate & Hlayout & Hone); try done.
  pose proof Hw as (Hloc & Hu & Hidx & Hcount & _ & Hcc & Hstages). fold cc in Hcc.
  pose proof Hr as (Hfirst & Hlinked & Hli & Ho).
  destruct (Hone shaderType layoutInfo i Hlinked Hli Ho Hi) as (Hsz & Hchunks & _).
  destruct (Hstages _ Hlinked) as (li & Hli2 & [?|Hfits]); [congruence|].
  replace li with layoutInfo in * by congruence.
  destruct (fits_element _ _ _ _ _ i Hfits Hidx Hi) as (Ho' & Hprod & Hhi); [lia|].
  fold cc in Hhi. destruct Hfits as (_ & _ & _ & _ & Hdata).
  exists p'. split; [done|].
  apply (getUniformImpl_elements Get T' p' location' dst getType locationInfo' linkedUniform
           shaderType layoutInfo); try done.
  - by rewrite Hstate.
  - by rewrite Hstate, Hindex.
  - by rewrite Hlayout.
  - by rewrite Harr.
  - rewrite length_fmap, length_take, length_drop. fold cc. nia.
  - fold cc. lia.
  - fold cc. rewrite Harr, Hsz. lia.
  - intros k y Hy. rewrite Harr. by apply Hchunks.
Qed.

Lemma setUniformImpl_then_getUniformImpl_of_later_element_witness :
  ∃ p', setUniform2iv array_program 0 3 [1; 2; 3; 4; 5; 6] = Done p'
        ∧ getUniformiv example_GetMatrixUniform p' 2 (replicate 8 Init.Byte.x00)
          = Done (encode_array [5; 6]).
Proof.
  apply (setUniformImpl_then_getUniformImpl_of_later_element example_GetMatrixUniform
           GLint GLint array_program 0 2 3 2 [1; 2; 3; 4; 5; 6] (replicate 8 Init.Byte.x00)
           GL_INT_VEC2 GL_INT (mkVariableLocation 0 0 false true)
           (mkVariableLocation 2 0 false true) array_uniform Vertex
           (mkBlockMemberInfo 0 16 0 false)); try reflexivity; try (simpl; lia).
  - repeat split; try done. example_stages; eexists; (split; [reflexivity|]); example_fits.
  - repeat split; done.
Defined.

(** ** What a write leaves alone *)

(** X5.  A write does not disturb the other uniforms: a read of a location whose
    bytes, in the stage it is read from, lie apart from every element the
    write stores there returns after the write what it returned before. *)
Theorem setUniformImpl_keeps_reads_of_other_locations
    (Get : GLtype → GLenum → list byte → MemoryBuffer → Z → bool → outcome (list byte))
    (T T' : GLtype) (p : ProgramVk) (location count : Z) (v : list Z) (setType : GLenum)
    (locationInfo : VariableLocation) (linkedUniform : LinkedUniform)
    (location2 : Z) (dst : list byte) (getType : GLenum)
    (locationInfo2 : VariableLocation) (linkedUniform2 : LinkedUniform)
    (shaderType2 : ShaderType) (layoutInfo2 : BlockMemberInfo) :
  let cc := componentCount (typeInfo linkedUniform) in
  let cc2 := componentCount (typeInfo linkedUniform2) in
  let readPtr := offset layoutInfo2 + arrayIndex locationInfo2 * arrayStride layoutInfo2 in
  write_ready p location count locationInfo linkedUniform →
  isSampler linkedUniform = false →
  typeInfo_type (typeInfo linkedUniform) = setType
  ∨ typeInfo_type (typeInfo linkedUniform) = VariableBoolVectorType setType →
  count * cc <= Z.of_nat (length v) → 4 * Z.of_nat (length v) < 2 ^ 31 →
  at_index (getUniformLocations (mState p)) location2 = Done locationInfo2 →
  at_index (getUniforms (mState p)) (index locationInfo2) = Done linkedUniform2 →
  isSampler linkedUniform2 = false → isImage linkedUniform2 = false →
  getFirstShaderTypeWhereActive linkedUniform2 = Some shaderType2 →
  at_index (blockLayout (mExecutable p) shaderType2) location2 = Done layoutInfo2 →
  componentType (typeInfo linkedUniform2) = getType
  ∨ componentType (typeInfo linkedUniform2) = VariableBoolVectorType getType →
  IsMatrixType (type linkedUniform2) = false →
  offset layoutInfo2 ≠ -1 →
  0 <= arrayIndex locationInfo2 * arrayStride layoutInfo2 < 2 ^ 31 →
  0 <= 4 * cc2 < 2 ^ 31 →
  (∀ layoutInfo i,
     getLinkedShaderStages (mState p) shaderType2 = true →
     at_index (blockLayout (mExecutable p) shaderType2) location = Done layoutInfo →
     offset layoutInfo ≠ -1 → 0 <= i < count →
     readPtr + 4 * cc2
     <= offset layoutInfo + (arrayIndex locationInfo + i) * arrayStride layoutInfo
     ∨ offset layoutInfo + (arrayIndex locationInfo + i) * arrayStride layoutInfo + 4 * cc
       <= readPtr) →
  ∃ p',
    setUniformImpl T p location count v setType = Done p'
    ∧ getUniformImpl Get T' p' location2 dst getType
      = getUniformImpl Get T' p location2 dst getType.
Proof.
  intros cc cc2 readPtr Hw Hsampler Hset Hsrc Hvsz Hloc2 Hu2 Hs2 Hi2 Hfirst Hli2 Hget Hmat
         Ho2 Hprod Hcc2 Hapart.
  destruct (setUniformImpl_Done T p location count v setType locationInfo linkedUniform)
    as (p' & Hrun & Hstate & (Hlayout & _ & _ & Hskip) & Hres); try done.
  pose proof Hw as (_ & _ & _ & _ & _ & _ & Hstages).
  exists p'. split; [done|].
  rewrite (getUniformImpl_unfold Get T' p' location2 dst getType locationInfo2 linkedUniform2
             shaderType2 layoutInfo2), Hmat; try done; try (by rewrite Hstate);
    [|by rewrite Hlayout].
  rewrite (getUniformImpl_unfold Get T' p location2 dst getType locationInfo2 linkedUniform2
             shaderType2 layoutInfo2), Hmat; try done.
  fold cc2.
  destruct (ReadFromDefaultUniformBlock_memcpy (sizeof T') cc2 (arrayIndex locationInfo2)
              dst layoutInfo2 (blockData (mExecutable p') shaderType2) Ho2 Hprod)
    as (_ & _ & ->).
  destruct (ReadFromDefaultUniformBlock_memcpy (sizeof T') cc2 (arrayIndex locationInfo2)
              dst layoutInfo2 (blockData (mExecutable p) shaderType2) Ho2 Hprod)
    as (_ & _ & ->).
  fold readPtr. unfold sizeof. rewrite wrap_int_small by lia. unfold memcpy.
  assert (mem_read (blockData (mExecutable p') shaderType2) readPtr (4 * cc2)
          = mem_read (blockData (mExecutable p) shaderType2) readPtr (4 * cc2)) as ->;
    [|done].
  destruct (getLinkedShaderStages (mState p) shaderType2) eqn:Hlinked.
  - destruct (Hstages _ Hlinked) as (li & Hli & Hcase).
    destruct (decide (offset li = -1)) as [Hminus|Hminus].
    + destruct (Hskip shaderType2) as [-> _]; [right; eauto|done].
    + destruct (Hres shaderType2 li Hlinked Hli Hminus) as (_ & Hsz & _ & Hout).
      apply mem_read_agree; [done|].
      intros t Ht. apply Hout. intros i Hi.
      destruct (Hapart li i eq_refl Hli Hminus Hi); fold cc; lia.
  - destruct (Hskip shaderType2) as [-> _]; [left; congruence|done].
Qed.

Lemma setUniformImpl_keeps_reads_of_other_locations_witness :
  ∃ p', setUniform4fv example_program 0 1 example_floats = Done p'
        ∧ getUniformiv example_GetMatrixUniform p' 1 (replicate 16 Init.Byte.x00)
          = getUniformiv example_GetMatrixUniform example_program 1
              (replicate 16 Init.Byte.x00).
Proof.
  apply (setUniformImpl_keeps_reads_of_other_locations example_GetMatrixUniform
           GLfloat GLint example_program 0 1 example_floats GL_FLOAT_VEC4
           (mkVariableLocation 0 0 false true)
           (example_uniform "color" GL_FLOAT_VEC4 GL_FLOAT 4 false false (Some Vertex))
           1 (replicate 16 Init.Byte.x00) GL_INT
           (mkVariableLocation 0 1 false true)
           (example_uniform "flags" GL_BOOL_VEC4 GL_BOOL 4 false false (Some Fragment))
           Fragment (mkBlockMemberInfo 0 0 0 false));
    try reflexivity; try (simpl; lia).
  - eapply example_write_ready; try reflexivity; try done; example_fits.
  - by right.
  - intros layoutInfo i _ Hli _ Hi. vm_compute in Hli. injection Hli as <-. simpl. lia.
Defined.

(** ** The layout pass, location by location *)

Lemma push_back_layoutInfo_spec stages :
  NoDup stages → ∀ layoutInfo exe,
  (∀ s, blockLayout (push_back_layoutInfo stages layoutInfo exe) s
        = if decide (s ∈ stages) then blockLayout exe s ++ [layoutInfo s]
          else blockLayout exe s)
  ∧ (∀ s, blockData (push_back_layoutInfo stages layoutInfo exe) s = blockData exe s)
  ∧ (∀ s, isDirty (push_back_layoutInfo stages layoutInfo exe) s = isDirty exe s).
Proof.
  induction 1 as [|a stages Ha Hnd IH]; intros layoutInfo exe.
  { simpl. repeat split; try done. }
  cbn [push_back_layoutInfo].
  match goal with
  | |- context [push_back_layoutInfo stages layoutInfo ?e] =>
      destruct (IH layoutInfo e) as (Hl & Hd & Hb)
  end.
  split; [|split].
  - intros s. rewrite Hl. unfold blockLayout. cbn [mDefaultUniformBlocks].
    destruct (decide (s = a)) as [->|Hne].
    + rewrite fn_lookup_insert. cbn [uniformLayout].
      rewrite decide_False by done. by rewrite decide_True by (by left).
    + rewrite fn_lookup_insert_ne by done.
      destruct (decide (s ∈ stages)) as [Hs|Hs].
      * by rewrite decide_True by (by right).
      * rewrite decide_False; [done|]. by intros [?|?]%elem_of_cons.
  - intros s. rewrite Hd. unfold blockData. cbn [mDefaultUniformBlocks].
    destruct (decide (s = a)) as [->|Hne].
    + by rewrite fn_lookup_insert.
    + by rewrite fn_lookup_insert_ne.
  - intros s. by rewrite Hb.
Qed.

Lemma initDefaultUniformLayoutMapping_loop_spec state layoutMap locations :
  ∀ exe exe',
  initDefaultUniformLayoutMapping_loop state layoutMap locations exe = Done exe' →
  (∀ s, blockData exe' s = blockData exe s)
  ∧ (∀ s, isDirty exe' s = isDirty exe s)
  ∧ (∀ s, getLinkedShaderStages state s = false → blockLayout exe' s = blockLayout exe s)
  ∧ (∀ s, getLinkedShaderStages state s = true →
       ∃ infos,
         blockLayout exe' s = blockLayout exe s ++ infos
         ∧ Forall2 (λ location info,
                      ∃ layoutInfo,
                        location_layoutInfo state layoutMap location = Done layoutInfo
                        ∧ info = layoutInfo s) locations infos).
Proof.
  induction locations as [|location locations IH]; intros exe exe' Hrun.
  { simpl in Hrun. injection Hrun as <-. repeat split; try done.
    intros s _. exists []. by rewrite app_nil_r. }
  cbn [initDefaultUniformLayoutMapping_loop] in Hrun.
  apply bind_Done in Hrun as (layoutInfo & Hinfo & Hrun).
  destruct (IH _ _ Hrun) as (Hd & Hb & Hun & Hli).
  destruct (push_back_layoutInfo_spec (ShaderBitSet_iterate (getLinkedShaderStages state))
              (ShaderBitSet_iterate_NoDup _) layoutInfo exe) as (Hl1 & Hd1 & Hb1).
  split; [|split; [|split]].
  - intros s. by rewrite Hd, Hd1.
  - intros s. by rewrite Hb, Hb1.
  - intros s Hs. rewrite (Hun s Hs), Hl1. rewrite decide_False; [done|].
    rewrite ShaderBitSet_iterate_elem. congruence.
  - intros s Hs. destruct (Hli s Hs) as (infos & Heq & Hall).
    exists (layoutInfo s :: infos). split.
    + rewrite Heq, Hl1, decide_True by (by apply ShaderBitSet_iterate_elem).
      by rewrite <- app_assoc.
    + constructor; [by exists layoutInfo|done].
Qed.

Lemma initDefaultUniformLayoutMapping_loop_Done state layoutMap locations :
  Forall (λ location, ∃ layoutInfo,
            location_layoutInfo state layoutMap location = Done layoutInfo) locations →
  ∀ exe, ∃ exe', initDefaultUniformLayoutMapping_loop state layoutMap locations exe = Done exe'.
Proof.
  induction 1 as [|location locations (layoutInfo & Hinfo) _ IH]; intros exe.
  - by exists exe.
  - cbn [initDefaultUniformLayoutMapping_loop]. rewrite Hinfo. simpl. apply IH.
Qed.

(** X6.  The layout pass appends to the layout table of every linked stage one
    record per uniform location, in the order of the locations: the record
    of the [k]-th location is what [location_layoutInfo] gives for that
    stage.  It succeeds when every location resolves; it keeps the records
    that were there, the tables of the stages that are not linked, every
    block's bytes, the dirty bits and the program state. *)
Theorem initDefaultUniformLayoutMapping_appends_one_record_per_location
    (p : ProgramVk) (layoutMap : ShaderMap (gmap string BlockMemberInfo)) :
  (∀ location, location ∈ getUniformLocations (mState p) →
     ∃ layoutInfo, location_layoutInfo (mState p) layoutMap location = Done layoutInfo) →
  ∃ p',
    initDefaultUniformLayoutMapping p layoutMap = Done p'
    ∧ mState p' = mState p
    ∧ (∀ s, blockData (mExecutable p') s = blockData (mExecutable p) s
            ∧ isDirty (mExecutable p') s = isDirty (mExecutable p) s)
    ∧ (∀ s, getLinkedShaderStages (mState p) s = false →
         blockLayout (mExecutable p') s = blockLayout (mExecutable p) s)
    ∧ (∀ s, getLinkedShaderStages (mState p) s = true →
         length (blockLayout (mExecutable p') s)
         = (length (blockLayout (mExecutable p) s)
            + length (getUniformLocations (mState p)))%nat
         ∧ (∀ k info, blockLayout (mExecutable p) s !! k = Some info →
              blockLayout (mExecutable p') s !! k = Some info)
         ∧ (∀ k location, getUniformLocations (mState p) !! k = Some location →
              ∃ layoutInfo,
                location_layoutInfo (mState p) layoutMap location = Done layoutInfo
                ∧ blockLayout (mExecutable p') s
                    !! (length (blockLayout (mExecutable p) s) + k)%nat
                  = Some (layoutInfo s))).
Proof.
  intros Hall.
  destruct (initDefaultUniformLayoutMapping_loop_Done (mState p) layoutMap
              (getUniformLocations (mState p))) with (exe := mExecutable p)
    as (exe' & Hrun).
  { apply Forall_forall. exact Hall. }
  destruct (initDefaultUniformLayoutMapping_loop_spec _ _ _ _ _ Hrun) as (Hd & Hb & Hun & Hli).
  unfold initDefaultUniformLayoutMapping. rewrite Hrun. simpl.
  eexists. split; [done|]. simpl. split; [done|]. split; [by split|]. split; [done|].
  intros s Hs. destruct (Hli s Hs) as (infos & Heq & Hinfos).
  rewrite Heq. split; [|split].
  - rewrite length_app. f_equal. symmetry. by eapply Forall2_length.
  - intros k info Hk. by apply lookup_app_l_Some.
  - intros k location Hk.
    destruct (Forall2_lookup_l _ _ _ _ _ Hinfos Hk) as (info & Hinfo & layoutInfo & Hl & ->).
    exists layoutInfo. split; [done|].
    rewrite lookup_app_r by lia. rewrite <- Hinfo. f_equal. lia.
Qed.

Lemma initDefaultUniformLayoutMapping_appends_one_record_per_location_witness :
  ∃ p',
    initDefaultUniformLayoutMapping layout_example_program layout_example_map = Done p'
    ∧ blockLayout (mExecutable p') Fragment
      = [ mkBlockMemberInfo 0 16 0 false; kDefaultBlockMemberInfo ]
    ∧ blockLayout (mExecutable p') Vertex
      = [ kDefaultBlockMemberInfo; kDefaultBlockMemberInfo ]
    ∧ blockLayout (mExecutable p') Compute = [].
Proof.
  destruct (initDefaultUniformLayoutMapping_appends_one_record_per_location
              layout_example_program layout_example_map)
    as (p' & Hrun & _ & _ & Hun & Hli).
  - intros location Hin. simpl in Hin.
    apply elem_of_cons in Hin as [->|Hin]; [by eexists|].
    apply elem_of_cons in Hin as [->|Hin]; [by eexists|].
    by apply elem_of_nil in Hin.
  - exists p'. split; [exact Hrun|].
    assert (∀ s, getLinkedShaderStages layout_example_state s = true →
              ∀ a b,
              (∀ layoutInfo,
                 location_layoutInfo layout_example_state layout_example_map
                   (mkVariableLocation 0 0 false true) = Done layoutInfo → layoutInfo s = a) →
              (∀ layoutInfo,
                 location_layoutInfo layout_example_state layout_example_map
                   (mkVariableLocation 0 1 false true) = Done layoutInfo → layoutInfo s = b) →
              blockLayout (mExecutable p') s = [a; b]) as Htable.
    { intros s Hs a b Ha Hb. destruct (Hli s Hs) as (Hlen & _ & Hk).
      destruct (Hk 0%nat _ eq_refl) as (l0 & Hl0 & H0).
      destruct (Hk 1%nat _ eq_refl) as (l1 & Hl1 & H1).
      rewrite (Ha _ Hl0) in H0. rewrite (Hb _ Hl1) in H1.
      simpl in Hlen, H0, H1.
      destruct (blockLayout (mExecutable p') s) as [|x [|y [|z rest]]]; try discriminate Hlen.
      simpl in H0, H1. congruence. }
    split; [|split].
    + apply Htable; [done|..]; intros layoutInfo Hl; vm_compute in Hl; by injection Hl as <-.
    + apply Htable; [done|..]; intros layoutInfo Hl; vm_compute in Hl; by injection Hl as <-.
    + by rewrite Hun.
Defined.

Lemma location_layoutInfo_without_layout state layoutMap location :
  (used location = false ∨ ignored location = true
   ∨ ∃ uniform, at_index (getUniforms state) (index location) = Done uniform
                ∧ (isInDefaultBlock uniform = false ∨ isSampler uniform = true
                   ∨ isImage uniform = true ∨ isFragmentInOut uniform = true)) →
  location_layoutInfo state layoutMap location = Done (λ _, kDefaultBlockMemberInfo).
Proof.
  unfold location_layoutInfo. intros [-> | [-> | (uniform & Hu & Hcase)]]; [done| |].
  { by rewrite andb_false_r. }
  destruct (used location && negb (ignored location)); [|done].
  rewrite Hu. simpl.
  destruct Hcase as [-> | [-> | [-> | ->]]]; by rewrite ?andb_false_r.
Qed.

Lemma location_layoutInfo_regular state layoutMap location uniform layoutInfo :
  let uniformName :=
    if isArray uniform then StripLastArrayIndex (name uniform) else name uniform in
  location_layoutInfo state layoutMap location = Done layoutInfo →
  used location = true → ignored location = false →
  at_index (getUniforms state) (index location) = Done uniform →
  isInDefaultBlock uniform = true → isSampler uniform = false →
  isImage uniform = false → isFragmentInOut uniform = false →
  (∃ s, getLinkedShaderStages state s = true ∧ is_Some (layoutMap s !! uniformName))
  ∧ ∀ s, layoutInfo s
         = if getLinkedShaderStages state s
           then default kDefaultBlockMemberInfo (layoutMap s !! uniformName)
           else kDefaultBlockMemberInfo.
Proof.
  intros uniformName Hrun Hused Hign Hu Hdef Hsamp Himg Hfio.
  unfold location_layoutInfo in Hrun. rewrite Hused, Hign, Hu in Hrun. simpl in Hrun.
  rewrite Hdef, Hsamp, Himg, Hfio in Hrun. simpl in Hrun.
  apply bind_Done in Hrun as (uniformName' & Hname & Hrun).
  assert (uniformName' = uniformName) as ->.
  { unfold lookup_name, uniformName in *. destruct (isArray uniform); [|congruence].
    apply bind_Done in Hname as (_ & _ & Hname). congruence. }
  pose proof (lookup_in_stages_spec layoutMap uniformName
                (ShaderBitSet_iterate (getLinkedShaderStages state)) false
                (λ _, kDefaultBlockMemberInfo)) as Hspec.
  destruct (lookup_in_stages _ _ _ _ _) as [found layoutInfo'].
  destruct Hspec as [Hfound Hlayout].
  apply bind_Done in Hrun as (_ & Hassert%ASSERT_Done & Hrun). injection Hrun as <-.
  split.
  - destruct Hfound as [Hfound _]. destruct (Hfound Hassert) as [?|(s & Hs & Hsome)]; [done|].
    exists s. by rewrite <- ShaderBitSet_iterate_elem.
  - intros s. rewrite Hlayout.
    destruct (getLinkedShaderStages state s) eqn:Hs.
    + rewrite decide_True; [done|]. by apply ShaderBitSet_iterate_elem.
    + rewrite decide_False; [done|]. rewrite ShaderBitSet_iterate_elem. congruence.
Qed.

Lemma initDefaultUniformLayoutMapping_inv p layoutMap p' :
  initDefaultUniformLayoutMapping p layoutMap = Done p' →
  mState p' = mState p
  ∧ initDefaultUniformLayoutMapping_loop (mState p) layoutMap
      (getUniformLocations (mState p)) (mExecutable p) = Done (mExecutable p').
Proof.
  unfold initDefaultUniformLayoutMapping. intros (exe' & Hrun & Hp)%bind_Done.
  injection Hp as <-. by split.
Qed.

(** The table of a linked stage after the pass, when it was empty before. *)
Lemma initDefaultUniformLayoutMapping_table p layoutMap p' location locationInfo s :
  (∀ s, getLinkedShaderStages (mState p) s = true → blockLayout (mExecutable p) s = []) →
  initDefaultUniformLayoutMapping p layoutMap = Done p' →
  at_index (getUniformLocations (mState p)) location = Done locationInfo →
  getLinkedShaderStages (mState p) s = true →
  ∃ layoutInfo,
    location_layoutInfo (mState p) layoutMap locationInfo = Done layoutInfo
    ∧ at_index (blockLayout (mExecutable p') s) location = Done (layoutInfo s).
Proof.
  intros Hempty (Hstate & Hrun)%initDefaultUniformLayoutMapping_inv Hloc Hs.
  destruct (initDefaultUniformLayoutMapping_loop_spec _ _ _ _ _ Hrun) as (_ & _ & _ & Hli).
  destruct (Hli s Hs) as (infos & Heq & Hinfos).
  rewrite (Hempty s Hs) in Heq. simpl in Heq.
  apply at_index_Done in Hloc as [Hpos Hloc].
  destruct (Forall2_lookup_l _ _ _ _ _ Hinfos Hloc) as (info & Hinfo & layoutInfo & Hl & ->).
  exists layoutInfo. split; [done|]. apply at_index_Done. by rewrite Heq.
Qed.

(** X7.  Which record a setter finds after the pass.  Starting from empty
    tables, the table of a linked stage holds at the location of a uniform
    that is laid out (used, not ignored, in the default block, neither sampler
    nor image nor fragment in/out) the record that the stage's layout map has
    under the uniform's name without its array index, or the all [-1] record
    when the map has none; so all the locations of one uniform hold the same
    record. *)
Theorem initDefaultUniformLayoutMapping_table_entry
    (p : ProgramVk) (layoutMap : ShaderMap (gmap string BlockMemberInfo)) (p' : ProgramVk)
    (location : Z) (locationInfo : VariableLocation) (uniform : LinkedUniform) :
  let uniformName :=
    if isArray uniform then StripLastArrayIndex (name uniform) else name uniform in
  (∀ s, getLinkedShaderStages (mState p) s = true → blockLayout (mExecutable p) s = []) →
  initDefaultUniformLayoutMapping p layoutMap = Done p' →
  at_index (getUniformLocations (mState p)) location = Done locationInfo →
  used locationInfo = true → ignored locationInfo = false →
  at_index (getUniforms (mState p)) (index locationInfo) = Done uniform →
  isInDefaultBlock uniform = true → isSampler uniform = false →
  isImage uniform = false → isFragmentInOut uniform = false →
  (∀ s, getLinkedShaderStages (mState p) s = true →
     at_index (blockLayout (mExecutable p') s) location
     = Done (default kDefaultBlockMemberInfo (layoutMap s !! uniformName)))
  ∧ (∀ s location2 locationInfo2,
       getLinkedShaderStages (mState p) s = true →
       at_index (getUniformLocations (mState p)) location2 = Done locationInfo2 →
       used locationInfo2 = true → ignored locationInfo2 = false →
       index locationInfo2 = index locationInfo →
       at_index (blockLayout (mExecutable p') s) location2
       = at_index (blockLayout (mExecutable p') s) location).
Proof.
  intros uniformName Hempty Hrun Hloc Hused Hign Hu Hdef Hsamp Himg Hfio.
  assert (Hentry : ∀ s l li,
            getLinkedShaderStages (mState p) s = true →
            at_index (getUniformLocations (mState p)) l = Done li →
            used li = true → ignored li = false → index li = index locationInfo →
            at_index (blockLayout (mExecutable p') s) l
            = Done (default kDefaultBlockMemberInfo (layoutMap s !! uniformName))).
  { intros s l li Hs Hl Hused' Hign' Hindex.
    destruct (initDefaultUniformLayoutMapping_table p layoutMap p' l li s)
      as (layoutInfo & Hinfo & ->); try done.
    rewrite <- Hindex in Hu.
    destruct (location_layoutInfo_regular _ _ _ _ _ Hinfo Hused' Hign' Hu Hdef Hsamp Himg Hfio)
      as [_ Hall].
    by rewrite Hall, Hs. }
  split.
  - intros s Hs. by eapply Hentry.
  - intros s location2 locationInfo2 Hs Hloc2 Hused2 Hign2 Hindex.
    rewrite (Hentry s location2 locationInfo2), (Hentry s location locationInfo); done.
Qed.

Lemma initDefaultUniformLayoutMapping_table_entry_witness :
  ∃ p', initDefaultUniformLayoutMapping layout_example_program layout_example_map = Done p'
        ∧ at_index (blockLayout (mExecutable p') Fragment) 0
          = Done (mkBlockMemberInfo 0 16 0 false)
        ∧ at_index (blockLayout (mExecutable p') Vertex) 0 = Done kDefaultBlockMemberInfo.
Proof.
  destruct (initDefaultUniformLayoutMapping layout_example_program layout_example_map)
    as [p'| |] eqn:Hrun; [|by vm_compute in Hrun..].
  exists p'. split; [done|].
  destruct (initDefaultUniformLayoutMapping_table_entry layout_example_program
              layout_example_map p' 0 (mkVariableLocation 0 0 false true)
              (mkLinkedUniform "lights[0]" GL_FLOAT_VEC4
                 (mkUniformTypeInfo GL_FLOAT_VEC4 GL_FLOAT 4)
                 false false true false true 2 (Some Fragment)))
    as [Hentry _]; try reflexivity; try done.
  split; by rewrite Hentry.
Defined.

(** X8.  After the pass a setter call on a location that got no layout is a
    silent no-op.  Starting from empty tables, every linked stage holds the
    default-constructed record, with the offset [-1], at a location that is
    unused or ignored, and at a used location whose uniform is a sampler, an
    image, a fragment in/out variable or outside the default block.  At
    such a used location [setUniformImpl] (the uniform not being a sampler)
    and [setUniformMatrixfv] return the program as it was, whatever the
    count, the values and the entry point's type.  The pass never looks at
    the index of an unused or ignored location; the setters do, and run out
    of bounds when it is not the index of a uniform. *)
Theorem setters_skip_locations_without_layout
    (Run : Z → Z → Z → Z → Z → bool → list Z → MemoryBuffer → Z → outcome MemoryBuffer)
    (p : ProgramVk) (layoutMap : ShaderMap (gmap string BlockMemberInfo)) (p' : ProgramVk)
    (location : Z) (locationInfo : VariableLocation) :
  (∀ s, getLinkedShaderStages (mState p) s = true → blockLayout (mExecutable p) s = []) →
  initDefaultUniformLayoutMapping p layoutMap = Done p' →
  at_index (getUniformLocations (mState p)) location = Done locationInfo →
  (used locationInfo = false ∨ ignored locationInfo = true →
   ∀ s, getLinkedShaderStages (mState p) s = true →
     at_index (blockLayout (mExecutable p') s) location = Done kDefaultBlockMemberInfo)
  ∧ (∀ linkedUniform,
       used locationInfo = true → ignored locationInfo = false →
       at_index (getUniforms (mState p)) (index locationInfo) = Done linkedUniform →
       isInDefaultBlock linkedUniform = false ∨ isSampler linkedUniform = true
       ∨ isImage linkedUniform = true ∨ isFragmentInOut linkedUniform = true →
       (∀ s, getLinkedShaderStages (mState p) s = true →
          at_index (blockLayout (mExecutable p') s) location
          = Done kDefaultBlockMemberInfo)
       ∧ (isSampler linkedUniform = false →
          ∀ T count v entryPointType,
            setUniformImpl T p' location count v entryPointType = Done p')
       ∧ (∀ cols rows count transpose value,
            setUniformMatrixfv Run cols rows p' location count transpose value = Done p'))
  ∧ (at_index (getUniforms (mState p)) (index locationInfo) = OutOfBounds →
     (∀ T count v entryPointType,
        setUniformImpl T p' location count v entryPointType = OutOfBounds)
     ∧ (∀ cols rows count transpose value,
          setUniformMatrixfv Run cols rows p' location count transpose value
          = OutOfBounds)).
Proof.
  intros Hempty Hrun Hloc.
  pose proof (initDefaultUniformLayoutMapping_inv _ _ _ Hrun) as [Hstate _].
  assert (Hrecord :
            (used locationInfo = false ∨ ignored locationInfo = true
             ∨ ∃ uniform,
                 at_index (getUniforms (mState p)) (index locationInfo) = Done uniform
                 ∧ (isInDefaultBlock uniform = false ∨ isSampler uniform = true
                    ∨ isImage uniform = true ∨ isFragmentInOut uniform = true)) →
            ∀ s, getLinkedShaderStages (mState p) s = true →
              at_index (blockLayout (mExecutable p') s) location
              = Done kDefaultBlockMemberInfo).
  { intros Hcase s Hs.
    destruct (initDefaultUniformLayoutMapping_table p layoutMap p' location locationInfo s)
      as (layoutInfo & Hinfo & Hentry); try done.
    rewrite location_layoutInfo_without_layout in Hinfo by done.
    by injection Hinfo as <-. }
  split; [|split].
  - intros Hcase. apply Hrecord. tauto.
  - intros linkedUniform Hused Hign Hu Hcase.
    assert (Htable : ∀ s, getLinkedShaderStages (mState p) s = true →
              at_index (blockLayout (mExecutable p') s) location
              = Done kDefaultBlockMemberInfo).
    { apply Hrecord. right; right. by exists linkedUniform. }
    assert (Hskip : ∀ s, s ∈ ShaderBitSet_iterate (getLinkedShaderStages (mState p')) →
              ∃ layoutInfo,
                at_index (blockLayout (mExecutable p') s) location = Done layoutInfo
                ∧ offset layoutInfo = -1).
    { intros s Hs%ShaderBitSet_iterate_elem. rewrite Hstate in Hs.
      exists kDefaultBlockMemberInfo. split; [by apply Htable|done]. }
    rewrite <- Hstate in Hloc, Hu. split; [done|]. split.
    + intros Hsampler T count v entryPointType.
      rewrite (setUniformImpl_unfold T p' location count v entryPointType _ _ Hloc Hu
                 Hsampler).
      rewrite for_each_stage_all_skipped by done. by destruct p'.
    + intros cols rows count transpose value.
      rewrite (setUniformMatrixfv_unfold Run cols rows p' location count transpose value
                 _ _ Hloc Hu).
      rewrite for_each_stage_all_skipped by done. by destruct p'.
  - intros Hout. rewrite <- Hstate in Hloc, Hout. split.
    + intros T count v entryPointType. unfold setUniformImpl.
      rewrite Hloc. simpl. by rewrite Hout.
    + intros cols rows count transpose value. unfold setUniformMatrixfv.
      rewrite Hloc. simpl. by rewrite Hout.
Qed.

Lemma setters_skip_locations_without_layout_witness :
  ∃ p', initDefaultUniformLayoutMapping layout_example_program layout_example_map = Done p'
        ∧ at_index (blockLayout (mExecutable p') Fragment) 1 = Done kDefaultBlockMemberInfo
        ∧ setUniform4fv p' 1 1 example_floats = Done p'.
Proof.
  destruct (initDefaultUniformLayoutMapping layout_example_program layout_example_map)
    as [p'| |] eqn:Hrun; [|by vm_compute in Hrun..].
  exists p'. split; [done|].
  destruct (setters_skip_locations_without_layout example_Run layout_example_program
              layout_example_map p' 1 (mkVariableLocation 0 1 false true))
    as (_ & Hused & _); try reflexivity; try done.
  destruct (Hused (mkLinkedUniform "fetch" GL_FLOAT_VEC4
                     (mkUniformTypeInfo GL_FLOAT_VEC4 GL_FLOAT 4)
                     false false true true false 1 (Some Fragment)))
    as (Hrecord & Hset & _); try reflexivity.
  - tauto.
  - split; [by apply Hrecord|by apply Hset].
Defined.

Lemma location_layoutInfo_missing state layoutMap location uniform :
  let uniformName :=
    if isArray uniform then StripLastArrayIndex (name uniform) else name uniform in
  used location = true → ignored location = false →
  at_index (getUniforms state) (index location) = Done uniform →
  isInDefaultBlock uniform = true → isSampler uniform = false →
  isImage uniform = false → isFragmentInOut uniform = false →
  (∀ s, getLinkedShaderStages state s = true → layoutMap s !! uniformName = None) →
  location_layoutInfo state layoutMap location = AssertionFailure.
Proof.
  intros uniformName Hused Hign Hu Hdef Hsamp Himg Hfio Hnone.
  unfold location_layoutInfo. rewrite Hused, Hign, Hu. simpl.
  rewrite Hdef, Hsamp, Himg, Hfio. simpl.
  assert (lookup_name uniform = Done uniformName ∨ lookup_name uniform = AssertionFailure)
    as [-> | ->]; [|simpl|done].
  { unfold lookup_name, uniformName. destruct (isArray uniform); [|by left].
    destruct (negb _); simpl; auto. }
  pose proof (lookup_in_stages_spec layoutMap uniformName
                (ShaderBitSet_iterate (getLinkedShaderStages state)) false
                (λ _, kDefaultBlockMemberInfo)) as Hspec.
  destruct (lookup_in_stages _ _ _ _ _) as [found layoutInfo'].
  destruct Hspec as [[Hfound _] _]. destruct found; [|done].
  destruct (Hfound eq_refl) as [?|(s & Hs & Hsome)]; [done|].
  apply ShaderBitSet_iterate_elem in Hs. rewrite (Hnone s Hs) in Hsome. by destruct Hsome.
Qed.

Lemma location_layoutInfo_in_bounds state layoutMap location :
  (used location = true → ignored location = false →
   is_Some (getUniforms state !! Z.to_nat (index location)) ∧ 0 <= index location) →
  location_layoutInfo state layoutMap location ≠ OutOfBounds.
Proof.
  intros Hin. unfold location_layoutInfo.
  destruct (used location); [|done]. destruct (ignored location); [done|]. simpl.
  destruct Hin as [[uniform Hu] Hpos]; [done..|].
  rewrite (proj2 (at_index_Done _ _ _) (conj Hpos Hu)). simpl.
  destruct (_ && _); [|done].
  unfold lookup_name. destruct (isArray uniform); simpl.
  - destruct (negb _); [|done]. simpl.
    destruct (lookup_in_stages _ _ _ _ _) as [[] ?]; done.
  - destruct (lookup_in_stages _ _ _ _ _) as [[] ?]; done.
Qed.

Lemma initDefaultUniformLayoutMapping_loop_asserts state layoutMap locations :
  Forall (λ location, location_layoutInfo state layoutMap location ≠ OutOfBounds) locations →
  Exists (λ location, location_layoutInfo state layoutMap location = AssertionFailure)
    locations →
  ∀ exe, initDefaultUniformLayoutMapping_loop state layoutMap locations exe = AssertionFailure.
Proof.
  induction 1 as [|location locations Hin _ IH]; intros Hex exe.
  { by apply Exists_nil in Hex. }
  cbn [initDefaultUniformLayoutMapping_loop].
  destruct (location_layoutInfo state layoutMap location) as [layoutInfo| |] eqn:Hinfo;
    [|done..].
  simpl. apply IH. apply Exists_cons in Hex as [?|?]; [congruence|done].
Qed.

(** X9.  One name that no linked stage has fails the whole pass.  When the
    locations that are looked up refer to existing uniforms, and some used
    location that is not ignored belongs to a uniform that has to be laid
    out, but whose name (without array index) is in the layout map of no
    linked stage, the pass fails an assertion: no table is built. *)
Theorem initDefaultUniformLayoutMapping_asserts_name_in_no_stage
    (p : ProgramVk) (layoutMap : ShaderMap (gmap string BlockMemberInfo))
    (location : VariableLocation) (uniform : LinkedUniform) :
  let uniformName :=
    if isArray uniform then StripLastArrayIndex (name uniform) else name uniform in
  (∀ l, l ∈ getUniformLocations (mState p) → used l = true → ignored l = false →
     ∃ u, at_index (getUniforms (mState p)) (index l) = Done u) →
  location ∈ getUniformLocations (mState p) →
  used location = true → ignored location = false →
  at_index (getUniforms (mState p)) (index location) = Done uniform →
  isInDefaultBlock uniform = true → isSampler uniform = false →
  isImage uniform = false → isFragmentInOut uniform = false →
  (∀ s, getLinkedShaderStages (mState p) s = true → layoutMap s !! uniformName = None) →
  initDefaultUniformLayoutMapping p layoutMap = AssertionFailure.
Proof.
  intros uniformName Hbounds Hin Hused Hign Hu Hdef Hsamp Himg Hfio Hnone.
  unfold initDefaultUniformLayoutMapping.
  rewrite initDefaultUniformLayoutMapping_loop_asserts; [done| |].
  - apply Forall_forall. intros l Hl. apply location_layoutInfo_in_bounds.
    intros Hused' Hign'. destruct (Hbounds l Hl Hused' Hign') as (u & Hu').
    apply at_index_Done in Hu' as [? Hu']. split; [by exists u|done].
  - apply Exists_exists. exists location. split; [done|].
    by eapply location_layoutInfo_missing.
Qed.

Lemma initDefaultUniformLayoutMapping_asserts_name_in_no_stage_witness :
  initDefaultUniformLayoutMapping layout_example_program (λ _, ∅) = AssertionFailure.
Proof.
  apply (initDefaultUniformLayoutMapping_asserts_name_in_no_stage layout_example_program
           (λ _, ∅) (mkVariableLocation 0 0 false true)
           (mkLinkedUniform "lights[0]" GL_FLOAT_VEC4
              (mkUniformTypeInfo GL_FLOAT_VEC4 GL_FLOAT 4)
              false false true false true 2 (Some Fragment))); try reflexivity.
  - intros l Hl _ _. simpl in Hl.
    apply elem_of_cons in Hl as [->|Hl]; [by eexists|].
    apply elem_of_cons in Hl as [->|Hl]; [by eexists|].
    by apply elem_of_nil in Hl.
  - by left.
Defined.

(** ** The layout maps, stage by stage *)

Section generateUniformLayoutMapping_properties.
Variable IsOpaqueType : GLenum → bool.
Variable Std140_getBlockLayoutInfo : Z → GLenum → list Z → bool → Z * Z * Z.
Variable Std140_advanceOffset : Z → GLenum → list Z → bool → Z → Z → Z.
Variable getAttachedShader : ShaderMap (option (list ShaderVariable)).

Lemma generateUniformLayoutMapping_spec stages :
  NoDup stages → ∀ layoutMap requiredBufferSize s,
  let result :=
    generateUniformLayoutMapping IsOpaqueType Std140_getBlockLayoutInfo
      Std140_advanceOffset getAttachedShader stages layoutMap requiredBufferSize in
  (result.1 s, result.2 s)
  = match decide (s ∈ stages), getAttachedShader s with
    | left _, Some uniforms =>
        InitDefaultUniformBlock IsOpaqueType Std140_getBlockLayoutInfo Std140_advanceOffset
          uniforms (layoutMap s)
    | _, _ => (layoutMap s, requiredBufferSize s)
    end.
Proof.
  induction 1 as [|a stages Ha Hnd IH]; intros layoutMap requiredBufferSize s; [done|].
  cbn [generateUniformLayoutMapping].
  destruct (getAttachedShader a) as [uniforms|] eqn:Hshader.
  - destruct (InitDefaultUniformBlock _ _ _ uniforms (layoutMap a)) as [m blockSize] eqn:Hinit.
    rewrite IH. destruct (decide (s = a)) as [->|Hne].
    + rewrite (decide_False (P := a ∈ stages)) by done.
      rewrite (decide_True (P := a ∈ a :: stages)) by (by left).
      by rewrite Hshader, !fn_lookup_insert.
    + rewrite !fn_lookup_insert_ne by done.
      destruct (decide (s ∈ stages)) as [Hs|Hs].
      * by rewrite (decide_True (P := s ∈ a :: stages)) by (by right).
      * rewrite (decide_False (P := s ∈ a :: stages)); [done|].
        by intros [?|?]%elem_of_cons.
  - rewrite IH. destruct (decide (s = a)) as [->|Hne].
    + rewrite (decide_False (P := a ∈ stages)) by done.
      rewrite (decide_True (P := a ∈ a :: stages)) by (by left).
      by rewrite Hshader.
    + destruct (decide (s ∈ stages)) as [Hs|Hs].
      * by rewrite (decide_True (P := s ∈ a :: stages)) by (by right).
      * rewrite (decide_False (P := s ∈ a :: stages)); [done|].
        by intros [?|?]%elem_of_cons.
Qed.

(** X10.  The stages are laid out independently of one another: after
    [generateUniformLayoutMapping] over the linked stages, a linked stage
    with an attached shader has the map and the block size that
    [InitDefaultUniformBlock] gives for that shader's uniforms alone, and
    every other stage keeps the map and the size it had. *)
Theorem generateUniformLayoutMapping_stage_by_stage
    (linkedShaderStages : ShaderBitSet)
    (layoutMap : ShaderMap (gmap string BlockMemberInfo)) (requiredBufferSize : ShaderMap Z)
    (s : ShaderType) :
  let result :=
    generateUniformLayoutMapping IsOpaqueType Std140_getBlockLayoutInfo
      Std140_advanceOffset getAttachedShader (ShaderBitSet_iterate linkedShaderStages)
      layoutMap requiredBufferSize in
  (result.1 s, result.2 s)
  = match linkedShaderStages s, getAttachedShader s with
    | true, Some uniforms =>
        InitDefaultUniformBlock IsOpaqueType Std140_getBlockLayoutInfo Std140_advanceOffset
          uniforms (layoutMap s)
    | _, _ => (layoutMap s, requiredBufferSize s)
    end.
Proof.
  intros result. unfold result.
  rewrite (generateUniformLayoutMapping_spec _ (ShaderBitSet_iterate_NoDup _)).
  destruct (linkedShaderStages s) eqn:Hs.
  - rewrite decide_True; [done|]. by apply ShaderBitSet_iterate_elem.
  - rewrite decide_False; [done|]. rewrite ShaderBitSet_iterate_elem. congruence.
Qed.
End generateUniformLayoutMapping_properties.

(** ** The entry point's type *)

Lemma for_each_stage_write_asserts F location stages exe :
  (∀ s, s ∈ stages →
     ∃ layoutInfo,
       at_index (blockLayout exe s) location = Done layoutInfo
       ∧ (offset layoutInfo = -1 ∨ F layoutInfo (blockData exe s) = AssertionFailure)) →
  (∃ s layoutInfo, s ∈ stages ∧ at_index (blockLayout exe s) location = Done layoutInfo
                   ∧ offset layoutInfo ≠ -1) →
  for_each_stage (stage_write F location) stages exe = AssertionFailure.
Proof.
  induction stages as [|a stages IH]; intros Hall (s & li & Hs & Hli & Ho).
  { by apply elem_of_nil in Hs. }
  cbn [for_each_stage]. destruct (Hall a) as (la & Hla & Hcase); [by left|].
  destruct (decide (offset la = -1)) as [Hminus|Hminus].
  - assert (stage_write F location a exe = Done exe) as ->
      by (unfold stage_write; rewrite Hla; simpl; by rewrite Hminus).
    simpl. apply IH.
    + intros s' Hs'. apply Hall. by right.
    + apply elem_of_cons in Hs as [->|Hs]; [congruence|]. by exists s, li.
  - destruct Hcase as [?|Hfail]; [done|].
    assert (stage_write F location a exe = AssertionFailure) as ->; [|done].
    unfold stage_write. rewrite Hla. simpl.
    rewrite (proj2 (Z.eqb_neq _ _) Hminus). by rewrite Hfail.
Qed.

(** X11.  A setter whose type fits neither the declared type nor its boolean
    counterpart is caught only where the uniform is laid out: the type is
    checked inside the stage loop, after the test of the offset.  The call
    fails the assertion when some linked stage has the uniform in its block,
    and returns the program unchanged when none has. *)
Theorem setUniformImpl_checks_type_in_laid_out_stages_only
    (T : GLtype) (p : ProgramVk) (location count : Z) (v : list Z) (entryPointType : GLenum)
    (locationInfo : VariableLocation) (linkedUniform : LinkedUniform) :
  at_index (getUniformLocations (mState p)) location = Done locationInfo →
  at_index (getUniforms (mState p)) (index locationInfo) = Done linkedUniform →
  isSampler linkedUniform = false →
  typeInfo_type (typeInfo linkedUniform) ≠ entryPointType →
  typeInfo_type (typeInfo linkedUniform) ≠ VariableBoolVectorType entryPointType →
  (∀ s, getLinkedShaderStages (mState p) s = true →
     ∃ layoutInfo, at_index (blockLayout (mExecutable p) s) location = Done layoutInfo) →
  ((∃ s, touches p location s) →
   setUniformImpl T p location count v entryPointType = AssertionFailure)
  ∧ ((∀ s, ¬ touches p location s) →
     setUniformImpl T p location count v entryPointType = Done p).
Proof.
  intros Hloc Hu Hsampler Hne Hnb Htable.
  rewrite (setUniformImpl_unfold T p location count v entryPointType _ _ Hloc Hu Hsampler).
  split.
  - intros (s & Hs & li & Hli & Ho).
    rewrite for_each_stage_write_asserts; [done| |].
    + intros s' Hs'%ShaderBitSet_iterate_elem. destruct (Htable s' Hs') as (l' & Hl').
      exists l'. split; [done|]. right.
      unfold setUniformImpl_write, bool_write.
      rewrite (proj2 (Z.eqb_neq _ _) Hne), (proj2 (Z.eqb_neq _ _) Hnb). done.
    + exists s, li. by rewrite ShaderBitSet_iterate_elem.
  - intros Hnone. rewrite for_each_stage_all_skipped; [by destruct p|].
    intros s Hs%ShaderBitSet_iterate_elem. destruct (Htable s Hs) as (li & Hli).
    exists li. split; [done|].
    destruct (decide (offset li = -1)) as [|Ho]; [done|].
    destruct (Hnone s). split; [done|]. by exists li.
Qed.

Lemma setUniformImpl_checks_type_in_laid_out_stages_only_witness :
  setUniform1fv example_program 0 1 example_floats = AssertionFailure
  ∧ setUniform1fv example_program 3 1 example_floats = Done example_program.
Proof.
  split.
  - apply (setUniformImpl_checks_type_in_laid_out_stages_only GLfloat example_program 0 1
             example_floats GL_FLOAT (mkVariableLocation 0 0 false true)
             (example_uniform "color" GL_FLOAT_VEC4 GL_FLOAT 4 false false (Some Vertex)));
      try reflexivity; try (by vm_compute).
    + example_stages; by eexists.
    + exists Vertex. split; [reflexivity|]. eexists. split; [reflexivity|]. by vm_compute.
  - apply (setUniformImpl_checks_type_in_laid_out_stages_only GLfloat example_program 3 1
             example_floats GL_FLOAT (mkVariableLocation 0 3 false true)
             (example_uniform "img" GL_IMAGE_2D GL_INT 1 false true (Some Fragment)));
      try reflexivity; try (by vm_compute).
    + example_stages; by eexists.
    + intros s (Hs & li & Hli & Ho). destruct s; try discriminate Hs;
        vm_compute in Hli; injection Hli as <-; by apply Ho.
Defined.

(** ** The packed arm of UpdateDefaultUniformBlock *)

(** X12.  With an array stride of 0 or of exactly the element size,
    [UpdateDefaultUniformBlock] is one copy: the first [count] elements of
    the source go back to back to [offset + arrayIndex * arrayStride], and
    no other byte of the block changes.  With the stride 0 of a variable
    that is not an array this start is [offset] whatever the array index,
    and a count above 1 runs on into the bytes that follow the variable. *)
Theorem UpdateDefaultUniformBlock_packed_is_one_copy
    (sizeofT count arrayIndex componentCount : Z)
    (v : list byte) (layoutInfo : BlockMemberInfo) (uniformData : MemoryBuffer) :
  let elementSize := sizeofT * componentCount in
  let start := offset layoutInfo + arrayIndex * arrayStride layoutInfo in
  arrayStride layoutInfo = 0 ∨ arrayStride layoutInfo = elementSize →
  0 < sizeofT → 0 < componentCount → elementSize < 2 ^ 31 →
  0 <= offset layoutInfo → 0 <= arrayIndex → 0 <= count →
  start + elementSize * count <= MemoryBuffer_size uniformData →
  MemoryBuffer_size uniformData < 2 ^ 31 →
  elementSize * count <= MemoryBuffer_size v →
  ∃ uniformData',
    UpdateDefaultUniformBlock sizeofT count arrayIndex componentCount v layoutInfo uniformData
      = Done uniformData'
    ∧ MemoryBuffer_size uniformData' = MemoryBuffer_size uniformData
    ∧ mem_read uniformData' start (elementSize * count)
      = Done (take (Z.to_nat (elementSize * count)) v)
    ∧ (∀ q, q < start ∨ start + elementSize * count <= q →
         byte_at uniformData' q = byte_at uniformData q).
Proof.
  intros e start Hstride HT Hcc He Ho Hidx Hcount Hfit Hsz Hsrc.
  assert (0 < e) as Hepos by (unfold e; nia).
  assert (0 <= e * count) as Hn by nia.
  assert (0 <= arrayIndex * arrayStride layoutInfo) as Hprod by (destruct Hstride; nia).
  unfold UpdateDefaultUniformBlock. fold e.
  rewrite (wrap_int_small e) by lia.
  assert ((arrayStride layoutInfo =? 0) || (arrayStride layoutInfo =? e) = true) as ->.
  { apply orb_true_iff. destruct Hstride; [left|right]; by apply Z.eqb_eq. }
  rewrite wrap_uint_small by (unfold start in Hfit; lia).
  rewrite wrap_int_small by (unfold start in Hfit; lia).
  fold start. rewrite ASSERT_true by (apply Z.leb_le; lia). simpl.
  destruct (memcpy_Done uniformData start v 0 (e * count)) as [data' Hcpy];
    try (unfold start; lia).
  rewrite Hcpy. exists data'. split; [done|].
  destruct (memcpy_inv _ _ _ _ _ _ Hcpy) as (_ & _ & _ & _ & _ & Hsz' & Hin & Hout).
  split; [done|]. split; [|done].
  transitivity (mem_read v 0 (e * count)).
  - apply mem_read_eq; try (unfold start; lia). intros t Ht. by apply Hin.
  - by rewrite mem_read_Done by lia.
Qed.

Lemma UpdateDefaultUniformBlock_packed_is_one_copy_witness :
  ∃ uniformData',
    UpdateDefaultUniformBlock 4 2 1 4 example_source (mkBlockMemberInfo 16 0 0 false)
      example_uniformData = Done uniformData'
    ∧ mem_read uniformData' 16 32 = Done (take 32 example_source).
Proof.
  destruct (UpdateDefaultUniformBlock_packed_is_one_copy 4 2 1 4 example_source
              (mkBlockMemberInfo 16 0 0 false) example_uniformData)
    as (data' & Hrun & _ & Hread & _); try (vm_compute; congruence).
  - by left.
  - by exists data'.
Defined.

(** ** Edge cases of a write: no element, the same elements again *)

Lemma mem_write_nothing (m : MemoryBuffer) p :
  0 <= p <= MemoryBuffer_size m → mem_write m p [] = Done m.
Proof.
  intros Hp. rewrite mem_write_Done by (unfold MemoryBuffer_size in *; simpl; lia).
  simpl. rewrite Nat.add_0_r. by rewrite take_drop.
Qed.

Lemma setUniformImpl_write_nothing T v entryPointType locationInfo linkedUniform
    layoutInfo (data : MemoryBuffer) :
  let cc := componentCount (typeInfo linkedUniform) in
  typeInfo_type (typeInfo linkedUniform) = entryPointType
  ∨ typeInfo_type (typeInfo linkedUniform) = VariableBoolVectorType entryPointType →
  0 <= arrayIndex locationInfo < 2 ^ 31 → 0 < cc → 4 * cc < 2 ^ 31 →
  0 <= offset layoutInfo → 0 <= arrayStride layoutInfo →
  offset layoutInfo + arrayIndex locationInfo * arrayStride layoutInfo
    <= MemoryBuffer_size data →
  MemoryBuffer_size data < 2 ^ 31 →
  setUniformImpl_write T 0 v entryPointType locationInfo linkedUniform layoutInfo data
  = Done data.
Proof.
  intros cc Hty Hidx Hcc Hcc' Ho Hs Hfit Hsz.
  assert (0 <= arrayIndex locationInfo * arrayStride layoutInfo) as Hprod by nia.
  unfold setUniformImpl_write.
  destruct (Z.eqb_spec (typeInfo_type (typeInfo linkedUniform)) entryPointType) as [Heq|Hne].
  - unfold UpdateDefaultUniformBlock, sizeof. fold cc.
    rewrite (wrap_int_small (4 * cc)) by lia.
    destruct (_ || _).
    + rewrite Z.mul_0_r, (wrap_int_small 0) by lia.
      rewrite wrap_uint_small by lia. rewrite Z.add_0_r.
      rewrite ASSERT_true by (apply Z.leb_le; lia). simpl.
      unfold memcpy. rewrite mem_read_Done by (pose proof (encode_array_size v); lia).
      simpl. apply mem_write_nothing. lia.
    + rewrite Z.add_0_r, Z.sub_diag. done.
  - destruct Hty as [?|Hty]; [done|]. unfold bool_write.
    rewrite ASSERT_true by (by apply Z.eqb_eq). done.
Qed.

(** X13.  A write of no element: with a count of 0 a setter changes no byte of
    any block, and still marks dirty every linked stage that has the uniform
    in its block. *)
Theorem setUniformImpl_of_no_element_only_marks_dirty
    (T : GLtype) (p : ProgramVk) (location : Z) (v : list Z) (entryPointType : GLenum)
    (locationInfo : VariableLocation) (linkedUniform : LinkedUniform) :
  let cc := componentCount (typeInfo linkedUniform) in
  at_index (getUniformLocations (mState p)) location = Done locationInfo →
  at_index (getUniforms (mState p)) (index locationInfo) = Done linkedUniform →
  isSampler linkedUniform = false →
  typeInfo_type (typeInfo linkedUniform) = entryPointType
  ∨ typeInfo_type (typeInfo linkedUniform) = VariableBoolVectorType entryPointType →
  0 <= arrayIndex locationInfo < 2 ^ 31 → 0 < cc → 4 * cc < 2 ^ 31 →
  (∀ s, getLinkedShaderStages (mState p) s = true →
     ∃ layoutInfo,
       at_index (blockLayout (mExecutable p) s) location = Done layoutInfo
       ∧ (offset layoutInfo = -1
          ∨ (0 <= offset layoutInfo ∧ 0 <= arrayStride layoutInfo
             ∧ offset layoutInfo + arrayIndex locationInfo * arrayStride layoutInfo
               <= MemoryBuffer_size (blockData (mExecutable p) s)
             ∧ MemoryBuffer_size (blockData (mExecutable p) s) < 2 ^ 31))) →
  ∃ p',
    setUniformImpl T p location 0 v entryPointType = Done p'
    ∧ (∀ s, blockData (mExecutable p') s = blockData (mExecutable p) s)
    ∧ (∀ s, touches p location s → isDirty (mExecutable p') s = true)
    ∧ (∀ s, ¬ touches p location s →
         isDirty (mExecutable p') s = isDirty (mExecutable p) s).
Proof.
  intros cc Hloc Hu Hsampler Hty Hidx Hcc Hcc' Hstages.
  rewrite (setUniformImpl_unfold T p location 0 v entryPointType _ _ Hloc Hu Hsampler).
  set (F := setUniformImpl_write T 0 v entryPointType locationInfo linkedUniform).
  assert (HF : ∀ s li, getLinkedShaderStages (mState p) s = true →
            at_index (blockLayout (mExecutable p) s) location = Done li →
            offset li ≠ -1 →
            F li (blockData (mExecutable p) s) = Done (blockData (mExecutable p) s)).
  { intros s li Hs Hli Hminus. destruct (Hstages s Hs) as (li' & Hli' & Hcase).
    replace li' with li in * by congruence.
    destruct Hcase as [?|(Ho & Hstride & Hfit & Hsz)]; [done|].
    by apply setUniformImpl_write_nothing. }
  destruct (for_each_stage_write_Done F location
              (ShaderBitSet_iterate (getLinkedShaderStages (mState p))) (mExecutable p))
    as (exe' & Hrun & Hres).
  { apply ShaderBitSet_iterate_NoDup. }
  { intros s Hs%ShaderBitSet_iterate_elem. destruct (Hstages s Hs) as (li & Hli & Hcase).
    exists li. split; [done|].
    destruct (decide (offset li = -1)) as [|Hminus]; [by left|right].
    eexists. by apply HF. }
  rewrite Hrun. simpl. eexists. split; [done|]. simpl.
  pose proof (for_each_stage_write_frame _ _ _ _ _ Hrun) as (_ & _ & _ & Hskip).
  assert (Huntouched : ∀ s, ¬ touches p location s →
            blockData exe' s = blockData (mExecutable p) s
            ∧ isDirty exe' s = isDirty (mExecutable p) s).
  { intros s Hnot. apply Hskip.
    destruct (getLinkedShaderStages (mState p) s) eqn:Hs.
    - right. destruct (Hstages s Hs) as (li & Hli & _). exists li. split; [done|].
      destruct (decide (offset li = -1)) as [|Hminus]; [done|].
      destruct Hnot. split; [done|]. by exists li.
    - left. rewrite ShaderBitSet_iterate_elem. congruence. }
  split; [|split].
  - intros s. destruct (getLinkedShaderStages (mState p) s) eqn:Hs.
    + destruct (Hstages s Hs) as (li & Hli & _).
      destruct (decide (offset li = -1)) as [Hminus|Hminus].
      * apply Huntouched. intros (_ & li' & Hli' & Ho'). congruence.
      * pose proof (Hres s li (proj2 (ShaderBitSet_iterate_elem _ _) Hs) Hli Hminus) as Hd.
        rewrite (HF s li Hs Hli Hminus) in Hd. by injection Hd as <-.
    + apply Huntouched. intros (Hs' & _). congruence.
  - intros s (Hs & li & Hli & Ho).
    eapply for_each_stage_write_dirty; [exact Hrun|by apply ShaderBitSet_iterate_elem|done..].
  - intros s Hnot. by apply Huntouched.
Qed.

Lemma setUniformImpl_of_no_element_only_marks_dirty_witness :
  ∃ p', setUniform4fv example_program 0 0 [] = Done p'
        ∧ blockData (mExecutable p') Vertex = blockData (mExecutable example_program) Vertex
        ∧ isDirty (mExecutable example_program) Vertex = false
        ∧ isDirty (mExecutable p') Vertex = true.
Proof.
  destruct (setUniformImpl_of_no_element_only_marks_dirty GLfloat example_program 0 []
              GL_FLOAT_VEC4 (mkVariableLocation 0 0 false true)
              (example_uniform "color" GL_FLOAT_VEC4 GL_FLOAT 4 false false (Some Vertex)))
    as (p' & Hrun & Hdata & Hdirty & _); try reflexivity; try (simpl; lia).
  - example_stages; eexists; (split; [reflexivity|]); right;
      unfold MemoryBuffer_size, blockData; simpl; lia.
  - exists p'. split; [exact Hrun|]. split; [apply Hdata|]. split; [reflexivity|].
    apply Hdirty. split; [reflexivity|]. eexists. split; [reflexivity|]. by vm_compute.
Defined.

(** Two buffers of one size that hold the same values in the written elements
    and agree everywhere else are equal. *)
Lemma written_block_ext (a b : MemoryBuffer) (start : Z → Z) (count cc : Z)
    (v : list Z) (f : Z → Z) :
  0 <= cc → count * cc <= Z.of_nat (length v) →
  (∀ i k x, 0 <= i < count → 0 <= k < cc → v !! Z.to_nat (i * cc + k) = Some x →
     mem_read a (start i + 4 * k) 4 = Done (encode (f x))) →
  (∀ i k x, 0 <= i < count → 0 <= k < cc → v !! Z.to_nat (i * cc + k) = Some x →
     mem_read b (start i + 4 * k) 4 = Done (encode (f x))) →
  (∀ q, (∀ i, 0 <= i < count → q < start i ∨ start i + 4 * cc <= q) →
     byte_at a q = byte_at b q) →
  a = b.
Proof.
  intros Hcc Hsrc Ha Hb Hout. apply byte_at_ext. intros q.
  destruct (decide (Exists (λ i, start i <= q < start i + 4 * cc) (seqZ 0 count)))
    as [Hin|Hnot].
  - apply Exists_exists in Hin as (i & Hi%elem_of_seqZ & Hq).
    assert (∃ k t, 0 <= k < cc ∧ 0 <= t < 4 ∧ q = start i + 4 * k + t)
      as (k & t & Hk & Ht & ->).
    { exists ((q - start i) / 4), ((q - start i) mod 4).
      pose proof (Z.div_mod (q - start i) 4 ltac:(lia)).
      pose proof (Z.mod_pos_bound (q - start i) 4 ltac:(lia)). lia. }
    destruct (lookup_lt_is_Some_2 v (Z.to_nat (i * cc + k))) as [x Hx]; [nia|].
    rewrite <- (mem_read_byte_at a _ 4 _ t (Ha i k x ltac:(lia) Hk Hx) Ht).
    by rewrite <- (mem_read_byte_at b _ 4 _ t (Hb i k x ltac:(lia) Hk Hx) Ht).
  - apply Hout. intros i Hi.
    destruct (decide (start i <= q < start i + 4 * cc)) as [Hq|Hq]; [|lia].
    destruct Hnot. apply Exists_exists. exists i. split; [|done].
    apply elem_of_seqZ. lia.
Qed.

(** X14.  Writing the same elements again changes nothing: after a write, a second
    identical call succeeds and leaves every block, every layout table and
    every dirty bit as the first call left them. *)
Theorem setUniformImpl_twice_is_once
    (T : GLtype) (p : ProgramVk) (location count : Z) (v : list Z) (entryPointType : GLenum)
    (locationInfo : VariableLocation) (linkedUniform : LinkedUniform) :
  let cc := componentCount (typeInfo linkedUniform) in
  write_ready p location count locationInfo linkedUniform →
  isSampler linkedUniform = false →
  typeInfo_type (typeInfo linkedUniform) = entryPointType
  ∨ typeInfo_type (typeInfo linkedUniform) = VariableBoolVectorType entryPointType →
  count * cc <= Z.of_nat (length v) → 4 * Z.of_nat (length v) < 2 ^ 31 →
  ∃ p1 p2,
    setUniformImpl T p location count v entryPointType = Done p1
    ∧ setUniformImpl T p1 location count v entryPointType = Done p2
    ∧ mState p2 = mState p1
    ∧ ∀ s, blockData (mExecutable p2) s = blockData (mExecutable p1) s
           ∧ blockLayout (mExecutable p2) s = blockLayout (mExecutable p1) s
           ∧ isDirty (mExecutable p2) s = isDirty (mExecutable p1) s.
Proof.
  intros cc Hw Hsampler Hty Hsrc Hvsz.
  destruct (setUniformImpl_Done T p location count v entryPointType locationInfo linkedUniform)
    as (p1 & Hrun1 & Hstate1 & (Hlayout1 & _) & Hres1); try done.
  destruct (setUniformImpl_keeps _ _ _ _ _ _ _ Hrun1) as (_ & _ & Hsize1).
  pose proof (write_ready_kept p p1 location count locationInfo linkedUniform
                Hstate1 Hlayout1 Hsize1 Hw) as Hw1.
  destruct (setUniformImpl_Done T p1 location count v entryPointType locationInfo
              linkedUniform) as (p2 & Hrun2 & Hstate2 & (Hlayout2 & _ & _ & Hskip2) & Hres2);
    try done.
  pose proof Hw as (_ & _ & _ & _ & _ & Hcc & Hstages).
  exists p1, p2. split; [done|]. split; [done|]. split; [done|].
  intros s. split; [|split; [done|]].
  - destruct (getLinkedShaderStages (mState p) s) eqn:Hs.
    + destruct (Hstages s Hs) as (li & Hli & _).
      destruct (decide (offset li = -1)) as [Hminus|Hminus].
      * apply Hskip2. right. exists li. by rewrite Hlayout1.
      * destruct (Hres1 s li Hs Hli Hminus) as (_ & _ & Hchunks1 & _).
        destruct (Hres2 s li) as (_ & _ & Hchunks2 & Hout2);
          [by rewrite Hstate1|by rewrite Hlayout1|done|].
        apply (written_block_ext _ _
                 (λ i, offset li + (arrayIndex locationInfo + i) * arrayStride li)
                 count cc v (written_value T linkedUniform entryPointType));
          try done. fold cc in Hcc. lia.
    + apply Hskip2. left. rewrite Hstate1. congruence.
  - destruct (getLinkedShaderStages (mState p) s) eqn:Hs.
    + destruct (Hstages s Hs) as (li & Hli & _).
      destruct (decide (offset li = -1)) as [Hminus|Hminus].
      * apply Hskip2. right. exists li. by rewrite Hlayout1.
      * destruct (Hres1 s li Hs Hli Hminus) as (-> & _).
        by destruct (Hres2 s li) as (-> & _);
          [by rewrite Hstate1|by rewrite Hlayout1|done|].
    + apply Hskip2. left. rewrite Hstate1. congruence.
Qed.

Lemma setUniformImpl_twice_is_once_witness :
  ∃ p1 p2,
    setUniform2iv array_program 0 3 [1; 2; 3; 4; 5; 6] = Done p1
    ∧ setUniform2iv p1 0 3 [1; 2; 3; 4; 5; 6] = Done p2
    ∧ blockData (mExecutable p2) Vertex = blockData (mExecutable p1) Vertex.
Proof.
  destruct (setUniformImpl_twice_is_once GLint array_program 0 3 [1; 2; 3; 4; 5; 6]
              GL_INT_VEC2 (mkVariableLocation 0 0 false true) array_uniform)
    as (p1 & p2 & Hrun1 & Hrun2 & _ & Hsame); try reflexivity; try (simpl; lia).
  - repeat split; try done. example_stages; eexists; (split; [reflexivity|]); example_fits.
  - exists p1, p2. split; [exact Hrun1|]. split; [exact Hrun2|]. apply Hsame.
Defined.

(** ** The assertions of the getter *)

(** X15.  When [getUniformImpl] fails an assertion.  For a location of a
    uniform that is not a matrix, whose record in the stage it is read from
    exists and, unless it is the sentinel, describes bytes inside the block,
    the read fails an assertion exactly when the uniform is a sampler or an
    image, or is active in no stage, or has a component type that is neither
    the entry point's type nor its boolean counterpart, or has the offset
    [-1] in the stage it is read from.  In every other case it returns a
    destination of the length it was given. *)
Theorem getUniformImpl_fails_assertion_iff
    (Get : GLtype → GLenum → list byte → MemoryBuffer → Z → bool → outcome (list byte))
    (T : GLtype) (p : ProgramVk) (location : Z) (dst : list byte) (entryPointType : GLenum)
    (locationInfo : VariableLocation) (linkedUniform : LinkedUniform) :
  let cc := componentCount (typeInfo linkedUniform) in
  at_index (getUniformLocations (mState p)) location = Done locationInfo →
  at_index (getUniforms (mState p)) (index locationInfo) = Done linkedUniform →
  IsMatrixType (type linkedUniform) = false →
  (∀ shaderType, getFirstShaderTypeWhereActive linkedUniform = Some shaderType →
     ∃ layoutInfo,
       at_index (blockLayout (mExecutable p) shaderType) location = Done layoutInfo
       ∧ (offset layoutInfo ≠ -1 →
          0 <= offset layoutInfo
          ∧ 0 <= arrayIndex locationInfo * arrayStride layoutInfo < 2 ^ 31
          ∧ 0 <= 4 * cc < 2 ^ 31
          ∧ offset layoutInfo + arrayIndex locationInfo * arrayStride layoutInfo + 4 * cc
            <= MemoryBuffer_size (blockData (mExecutable p) shaderType)
          ∧ 4 * cc <= MemoryBuffer_size dst)) →
  (getUniformImpl Get T p location dst entryPointType = AssertionFailure
   ↔ isSampler linkedUniform = true ∨ isImage linkedUniform = true
     ∨ getFirstShaderTypeWhereActive linkedUniform = None
     ∨ (componentType (typeInfo linkedUniform) ≠ entryPointType
        ∧ componentType (typeInfo linkedUniform) ≠ VariableBoolVectorType entryPointType)
     ∨ ∃ shaderType layoutInfo,
         getFirstShaderTypeWhereActive linkedUniform = Some shaderType
         ∧ at_index (blockLayout (mExecutable p) shaderType) location = Done layoutInfo
         ∧ offset layoutInfo = -1)
  ∧ (getUniformImpl Get T p location dst entryPointType ≠ AssertionFailure →
     ∃ v, getUniformImpl Get T p location dst entryPointType = Done v
          ∧ length v = length dst).
Proof.
  intros cc Hloc Hu Hmat Hstage.
  unfold getUniformImpl. rewrite Hloc. simpl. rewrite Hu. simpl.
  destruct (isSampler linkedUniform) eqn:Hs.
  { simpl. split; [split; auto|by intros []]. }
  destruct (isImage linkedUniform) eqn:Hi.
  { simpl. split; [split; auto|by intros []]. }
  simpl.
  destruct (getFirstShaderTypeWhereActive linkedUniform) as [shaderType|] eqn:Hfirst.
  2: { split; [split; auto|by intros []]. }
  destruct (Hstage shaderType eq_refl) as (li & Hli & Hrange).
  pose proof Hli as Hli'. unfold blockLayout in Hli'. rewrite Hli'. simpl.
  destruct ((componentType (typeInfo linkedUniform) =? entryPointType)
            || (componentType (typeInfo linkedUniform)
                  =? VariableBoolVectorType entryPointType)) eqn:Hty.
  2: { apply orb_false_iff in Hty as [Hne%Z.eqb_neq Hnb%Z.eqb_neq]. simpl.
       split; [split; [intros _; do 3 right; by left|done]|by intros []]. }
  apply orb_true_iff in Hty. simpl. rewrite Hmat. fold cc.
  destruct (decide (offset li = -1)) as [Hminus|Hminus].
  { assert (ReadFromDefaultUniformBlock (sizeof T) cc (arrayIndex locationInfo) dst li
              (uniformData (mDefaultUniformBlocks (mExecutable p) shaderType))
            = AssertionFailure) as ->.
    { unfold ReadFromDefaultUniformBlock. by rewrite Hminus. }
    split; [|by intros []]. split; [|done]. intros _. do 4 right. by exists shaderType, li. }
  destruct (Hrange Hminus) as (Ho & Hprod & Hcc & Hfit & Hdst).
  destruct (ReadFromDefaultUniformBlock_memcpy (sizeof T) cc (arrayIndex locationInfo)
              dst li (uniformData (mDefaultUniformBlocks (mExecutable p) shaderType))
              Hminus Hprod) as (_ & _ & ->).
  unfold sizeof. rewrite wrap_int_small by lia.
  unfold blockData in Hfit.
  pose proof (mem_read_Done
                (uniformData (mDefaultUniformBlocks (mExecutable p) shaderType))
                (offset li + arrayIndex locationInfo * arrayStride li) (4 * cc)
                ltac:(lia) ltac:(lia) Hfit) as Hread.
  rewrite (memcpy_front dst _ _ _ _ Hread) by done.
  split.
  - split; [done|]. intros [?|[?|[?|[[Hne Hnb]|(st & l' & Hst & Hl' & Ho')]]]]; try done.
    + destruct Hty as [?%Z.eqb_eq|?%Z.eqb_eq]; done.
    + simplify_eq. unfold blockLayout in Hl'. congruence.
  - intros _. eexists. split; [done|].
    unfold MemoryBuffer_size in *.
    rewrite length_app, length_take, length_drop, length_drop. lia.
Qed.

Lemma getUniformImpl_fails_assertion_iff_witness :
  getUniformiv example_GetMatrixUniform example_program 0 (replicate 16 Init.Byte.x00)
  = AssertionFailure
  ∧ ∃ v, getUniformfv example_GetMatrixUniform example_program 0 (replicate 16 Init.Byte.x00)
         = Done v ∧ length v = 16%nat.
Proof.
  split.
  - apply (getUniformImpl_fails_assertion_iff example_GetMatrixUniform GLint example_program
             0 (replicate 16 Init.Byte.x00) GL_INT (mkVariableLocation 0 0 false true)
             (example_uniform "color" GL_FLOAT_VEC4 GL_FLOAT 4 false false (Some Vertex)));
      try reflexivity.
    + intros shaderType [= <-]. eexists. split; [reflexivity|]. intros _.
      unfold MemoryBuffer_size, blockData. simpl. lia.
    + do 3 right. left. by vm_compute.
  - apply (getUniformImpl_fails_assertion_iff example_GetMatrixUniform GLfloat example_program
             0 (replicate 16 Init.Byte.x00) GL_FLOAT (mkVariableLocation 0 0 false true)
             (example_uniform "color" GL_FLOAT_VEC4 GL_FLOAT 4 false false (Some Vertex)));
      try reflexivity.
    + intros shaderType [= <-]. eexists. split; [reflexivity|]. intros _.
      unfold MemoryBuffer_size, blockData. simpl. lia.
    + by vm_compute.
Defined.
